(** * daily-task: the items persistence service and the ordering engine

    The development embeds

    - the three backend variants of the items API: the pg server with
      per-user scoping ([server.js]), the same server behind zod request
      validation (second half of [server.js]) and the drizzle server
      (the file requiring [./src/db] and [./src/schema]);
    - the client-side engine (Item Store, Grouping Engine, Sync Manager),
      whose implementation lives in [index.html]. *)

From Stdlib Require Import ZArith List String Ascii Bool Lia Sorted Permutation.
From Stdlib Require Import DecimalString.
Import ListNotations.

Local Open Scope string_scope.
Local Open Scope list_scope.
Local Open Scope Z_scope.

Set Implicit Arguments.
Set Warnings "-register-all".

(* ===================================================================== *)
(** * 1. JavaScript values                                                *)
(* ===================================================================== *)

(** What [res.json] puts on the wire.  An object keeps its keys in
    insertion order, which is the order [JSON.stringify] emits them. *)
Inductive Json : Type :=
| JNull
| JBool (b : bool)
| JNum (z : Z)
| JStr (s : string)
| JArr (elems : list Json)
| JObj (props : list (string * Json)).

Definition keys (j : Json) : list string :=
  match j with
  | JObj props => map fst props
  | _ => []
  end.

Fixpoint lookup (k : string) (props : list (string * Json)) : option Json :=
  match props with
  | [] => None
  | (k', v) :: rest => if String.eqb k k' then Some v else lookup k rest
  end.

(** [obj.k]: the property, [None] standing for [undefined]. *)
Definition prop (k : string) (j : Json) : option Json :=
  match j with
  | JObj props => lookup k props
  | _ => None
  end.

(** ** Fields, falsy values and the [||] and [??] operators

    A field read off a request body is [undefined] when the body omits it,
    [null], or a value of the type the data model gives it. *)
Inductive Field (A : Type) : Type :=
| Undefined
| Null
| Val (v : A).

Arguments Undefined {A}.
Arguments Null {A}.
Arguments Val {A} v.

Class Falsy (A : Type) := falsy : A -> bool.

#[global] Instance Falsy_bool : Falsy bool := negb.
#[global] Instance Falsy_string : Falsy string := fun s => String.eqb s "".
#[global] Instance Falsy_Z : Falsy Z := fun z => Z.eqb z 0.

(** [v ? a : b] *)
Definition truthy {A} `{Falsy A} (v : Field A) : bool :=
  match v with
  | Val x => negb (falsy x)
  | _ => false
  end.

(** [v || d] *)
Definition or_else {A} `{Falsy A} (v : Field A) (d : A) : A :=
  match v with
  | Val x => if falsy x then d else x
  | _ => d
  end.

(** [v || null] *)
Definition or_null {A} `{Falsy A} (v : Field A) : Field A :=
  if truthy v then v else Null.

(** [v ?? d] *)
Definition nullish {A} (v : Field A) (d : A) : A :=
  match v with
  | Val x => x
  | _ => d
  end.

(** ** Dates

    A JavaScript [Date], given by its UTC calendar fields; a timestamp
    or a date of the database is given the same way.  Years count as
    JavaScript counts them: year 0 is 1 BC. *)
Record JsDate : Type := mkDate {
  year : Z; month : Z; day : Z;
  hours : Z; minutes : Z; seconds : Z; millis : Z
}.

Definition digit (n : Z) : ascii := ascii_of_nat (48 + Z.to_nat (n mod 10)).

Definition pad2 (n : Z) : string :=
  String (digit (n / 10)) (String (digit n) "").
Definition pad3 (n : Z) : string := String (digit (n / 100)) (pad2 n).
Definition pad4 (n : Z) : string := String (digit (n / 1000)) (pad3 n).
Definition pad6 (n : Z) : string :=
  String (digit (n / 100000)) (String (digit (n / 10000)) (pad4 n)).

(** Years outside 0..9999 are written with a sign and six digits. *)
Definition iso_year (y : Z) : string :=
  if (0 <=? y) && (y <=? 9999) then pad4 y
  else let sign := if y <? 0 then "-" else "+" in
       (sign ++ pad6 (Z.abs y))%string.

(** [Date.prototype.toISOString] *)
Definition toISOString (d : JsDate) : string :=
  (iso_year (year d) ++ "-" ++ pad2 (month d) ++ "-" ++ pad2 (day d) ++ "T"
   ++ pad2 (hours d) ++ ":" ++ pad2 (minutes d) ++ ":" ++ pad2 (seconds d)
   ++ "." ++ pad3 (millis d) ++ "Z")%string.

(** [s.split(c)[0]] *)
Fixpoint split_head (c : ascii) (s : string) : string :=
  match s with
  | EmptyString => EmptyString
  | String a rest => if Ascii.eqb a c then EmptyString
                     else String a (split_head c rest)
  end.

Definition is_digit (a : ascii) : bool :=
  let n := nat_of_ascii a in (Nat.leb 48 n) && (Nat.leb n 57).

(** [/^\d{4}-\d{2}-\d{2}$/.test(s)] *)
Definition is_ymd (s : string) : bool :=
  match list_ascii_of_string s with
  | [y1; y2; y3; y4; h1; m1; m2; h2; d1; d2] =>
      is_digit y1 && is_digit y2 && is_digit y3 && is_digit y4
      && Ascii.eqb h1 "-"
      && is_digit m1 && is_digit m2
      && Ascii.eqb h2 "-"
      && is_digit d1 && is_digit d2
  | _ => false
  end.

(** [String(n)] for an integer. *)
Definition string_of_Z (z : Z) : string := NilZero.string_of_int (Z.to_int z).

(** [Number(s)] for the decimal text of an integer, as the driver hands
    over a [BIGINT]: the nearest double, ties to the even significand.
    Integers up to 2^53 in absolute value are exact; above that the low
    bits are rounded away. *)
Definition Number_of_bigint (z : Z) : Z :=
  let a := Z.abs z in
  let e := Z.log2 a - 52 in
  if e <=? 0 then z
  else
    let q := a / 2 ^ e in
    let r := a mod 2 ^ e in
    let half := 2 ^ (e - 1) in
    let q' := if r <? half then q
              else if half <? r then q + 1
              else if Z.even q then q else q + 1 in
    Z.sgn z * (q' * 2 ^ e).

(* ===================================================================== *)
(** * 2. The items table                                                  *)
(* ===================================================================== *)

(** A row of [items] as [initDB] declares the table: [text], [type],
    [category] and [priority] are [NOT NULL], [id] is the primary key, the
    other columns are nullable.  Columns come in the order of
    [CREATE TABLE], followed by [user_id], which [ALTER TABLE] adds. *)
Module Row.
Record t : Type := mk {
  id : Z;
  text : string;
  completed : option bool;
  created_at : option JsDate;
  type : string;
  category : string;
  priority : string;
  due_date : option JsDate;
  notes : option string;
  sort_order : option Z;
  user_id : option string
}.
End Row.

Definition Table := list Row.t.

(** An item of a request body. *)
Module Req.
Record t : Type := mk {
  id : Field Z;
  text : Field string;
  completed : Field bool;
  createdAt : Field string;
  type : Field string;
  category : Field string;
  priority : Field string;
  dueDate : Field string;
  notes : Field string;
  order : Field Z
}.
End Req.

Definition json_opt {A} (f : A -> Json) (v : option A) : Json :=
  match v with
  | Some x => f x
  | None => JNull
  end.

(** [Date.prototype.toJSON] *)
Definition json_date (d : JsDate) : Json := JStr (toISOString d).

(** A row handed to [res.json] as the driver returned it: one key per
    column, [BIGINT] as text, dates through [toJSON], as a server that
    runs on UTC shows them. *)
Definition row_json (r : Row.t) : Json :=
  JObj [ ("id", JStr (string_of_Z (Row.id r)));
         ("text", JStr (Row.text r));
         ("completed", json_opt JBool (Row.completed r));
         ("created_at", json_opt json_date (Row.created_at r));
         ("type", JStr (Row.type r));
         ("category", JStr (Row.category r));
         ("priority", JStr (Row.priority r));
         ("due_date", json_opt json_date (Row.due_date r));
         ("notes", json_opt JStr (Row.notes r));
         ("sort_order", json_opt JNum (Row.sort_order r));
         ("user_id", json_opt JStr (Row.user_id r)) ].

(** The field names of the data model, as [PLAN.md] lists them. *)
Definition item_fields : list string :=
  ["id"; "text"; "completed"; "createdAt"; "type"; "category"; "priority";
   "dueDate"; "notes"; "order"].

(** ** The connection

    [committed] is the table other sessions see; [working] is the private
    copy of an open transaction.  [faults] is the environment: one flag
    per data statement still to come, [true] when the driver rejects that
    statement for a reason outside the table (lost connection, timeout,
    a value the column type refuses). *)
Record World : Type := mkWorld {
  committed : Table;
  working : option Table;
  faults : list bool
}.

(** A computation that may throw; the world survives the exception. *)
Definition Js (A : Type) : Type := World -> World * option A.

Definition ret {A} (a : A) : Js A := fun w => (w, Some a).
Definition throw {A} : Js A := fun w => (w, None).
Definition bind {A B} (m : Js A) (k : A -> Js B) : Js B :=
  fun w => match m w with
           | (w', Some a) => k a w'
           | (w', None) => (w', None)
           end.
Definition try_catch {A} (body handler : Js A) : Js A :=
  fun w => match body w with
           | (w', Some a) => (w', Some a)
           | (w', None) => handler w'
           end.

Declare Scope js_scope.
Delimit Scope js_scope with js.
Notation "x <- m ;; k" := (bind m (fun x => k))
  (at level 61, m at next level, right associativity) : js_scope.
Notation "m ;; k" := (bind m (fun _ => k))
  (at level 61, right associativity) : js_scope.

Local Open Scope js_scope.

(** [for (const x of xs) { ys.push(await f(x)) }] *)
Fixpoint for_each {A B} (f : A -> Js B) (xs : list A) : Js (list B) :=
  match xs with
  | [] => ret []
  | x :: rest => y <- f x ;; ys <- for_each f rest ;; ret (y :: ys)
  end.

Definition current (w : World) : Table :=
  match working w with
  | Some t => t
  | None => committed w
  end.

Definition set_current (t : Table) (w : World) : World :=
  match working w with
  | Some _ => mkWorld (committed w) (Some t) (faults w)
  | None => mkWorld t None (faults w)
  end.

(** [query(sql, params)] for a data statement whose effect on the table is
    [f]; [f] answers [None] when the statement violates the schema. *)
Definition query {A} (f : Table -> option (A * Table)) : Js A :=
  fun w =>
    let flag := hd false (faults w) in
    let w1 := mkWorld (committed w) (working w) (tl (faults w)) in
    if flag then (w1, None)
    else match f (current w1) with
         | Some (a, t') => (set_current t' w1, Some a)
         | None => (w1, None)
         end.

(** Transaction control.  The driver is taken to accept these three. *)
Definition BEGIN : Js unit :=
  fun w => (mkWorld (committed w) (Some (current w)) (faults w), Some tt).
Definition COMMIT : Js unit :=
  fun w => (mkWorld (current w) None (faults w), Some tt).
Definition ROLLBACK : Js unit :=
  fun w => (mkWorld (committed w) None (faults w), Some tt).

Record Response : Type := mkResponse { status : Z; body : Json }.

(** [res.json(j)] *)
Definition json (j : Json) : Response := mkResponse 200 j.
(** [res.status(code).json({ error: msg })] *)
Definition fail (code : Z) (msg : string) : Response :=
  mkResponse code (JObj [("error", JStr msg)]).

Definition success : Json := JObj [("success", JBool true)].

(** Serving one request on a fresh pool client: the table before, the
    faults the environment holds in store; the response (if the handler
    sent one) and the table after. *)
Definition serve (h : Js Response) (fs : list bool) (tbl : Table)
  : option Response * Table :=
  let '(w, r) := h (mkWorld tbl None fs) in (r, committed w).

(* ===================================================================== *)
(** * 3. SQL statements                                                   *)
(* ===================================================================== *)

(** What a statement says about one column: nothing ([Undefined]: the
    column keeps its value on UPDATE and takes its default on INSERT),
    [NULL], or a value. *)
Module Cols.
Record t : Type := mk {
  id : Field Z;
  text : Field string;
  completed : Field bool;
  created_at : Field string;
  type : Field string;
  category : Field string;
  priority : Field string;
  due_date : Field string;
  notes : Field string;
  sort_order : Field Z;
  user_id : Field string
}.
End Cols.

(** A parameter of a pg query: the driver sends [undefined] as [NULL]. *)
Definition param {A} (v : Field A) : Field A :=
  match v with
  | Undefined => Null
  | _ => v
  end.

(** The value a nullable column takes. *)
Definition stored {A} (v : Field A) (otherwise : option A) : option A :=
  match v with
  | Undefined => otherwise
  | Null => None
  | Val x => Some x
  end.


Definition lex (c1 c2 : comparison) : comparison :=
  match c1 with
  | Eq => c2
  | _ => c1
  end.

Definition compare_date (a b : JsDate) : comparison :=
  lex (year a ?= year b)
  (lex (month a ?= month b)
  (lex (day a ?= day b)
  (lex (hours a ?= hours b)
  (lex (minutes a ?= minutes b)
  (lex (seconds a ?= seconds b) (millis a ?= millis b)))))).

(** The time values a JavaScript [Date] holds: 100,000,000 days on
    either side of the epoch.  A [Date] made of anything else is an
    invalid date. *)
Definition js_min : JsDate := mkDate (-271821) 4 20 0 0 0 0.
Definition js_max : JsDate := mkDate 275760 9 13 0 0 0 0.

Definition js_valid (d : JsDate) : bool :=
  match compare_date js_min d, compare_date d js_max with
  | Gt, _ => false
  | _, Gt => false
  | _, _ => true
  end.

(** [d.toISOString()], which throws a [RangeError] on an invalid date:
    [None]. *)
Definition iso (d : JsDate) : option string :=
  if js_valid d then Some (toISOString d) else None.

(** The calendar. *)
Definition is_leap (y : Z) : bool :=
  ((y mod 4 =? 0) && negb (y mod 100 =? 0)) || (y mod 400 =? 0).

Definition days_in_month (y m : Z) : Z :=
  if m =? 2 then (if is_leap y then 29 else 28)
  else if (m =? 4) || (m =? 6) || (m =? 9) || (m =? 11) then 30
  else 31.

Definition day_before (d : JsDate) : JsDate :=
  if 1 <? day d then mkDate (year d) (month d) (day d - 1) 0 0 0 0
  else if 1 <? month d
       then mkDate (year d) (month d - 1)
                   (days_in_month (year d) (month d - 1)) 0 0 0 0
       else mkDate (year d - 1) 12 31 0 0 0 0.

(** The [Date] the pg driver makes of a [DATE]: midnight of that day in
    the zone of the server process, [new Date(year, month, day)].
    [zone d] is the offset of that zone from UTC at that moment, in
    minutes, positive to the east; it is less than a day either way.
    East of UTC the moment falls on the day before in UTC. *)
Definition local_midnight (zone : JsDate -> Z) (d : JsDate) : JsDate :=
  let off := zone d in
  if 0 <? off then
    let p := day_before d in
    mkDate (year p) (month p) (day p)
           ((1440 - off) / 60) ((1440 - off) mod 60) 0 0
  else
    mkDate (year d) (month d) (day d) ((- off) / 60) ((- off) mod 60) 0 0.

(** The text Postgres writes for a [DATE] (ISO style): the year with at
    least four digits, [BC] after a year before 1, and [infinity] and
    [-infinity] for the two values that lie beyond every date the type
    holds, which are rendered here as dates beyond 5874897 AD and
    4713 BC. *)
Definition date_out (d : JsDate) : string :=
  let ad := if year d <=? 9999 then pad4 (year d) else string_of_Z (year d) in
  let bc := pad4 (1 - year d) in
  let md := ("-" ++ pad2 (month d) ++ "-" ++ pad2 (day d))%string in
  if 5874897 <? year d then "infinity"
  else if year d <? -4712 then "-infinity"
  else if 1 <=? year d then (ad ++ md)%string
  else (bc ++ md ++ " BC")%string.

(** Ascending order puts [NULL] last. *)
Definition compare_nulls_last {A} (cmp : A -> A -> comparison)
  (a b : option A) : comparison :=
  match a, b with
  | Some x, Some y => cmp x y
  | Some _, None => Lt
  | None, Some _ => Gt
  | None, None => Eq
  end.

(** [ORDER BY sort_order ASC, created_at DESC] *)
Definition compare_rows (a b : Row.t) : comparison :=
  lex (compare_nulls_last Z.compare (Row.sort_order a) (Row.sort_order b))
      (CompOpp (compare_nulls_last compare_date
                  (Row.created_at a) (Row.created_at b))).

Fixpoint insert_sorted (r : Row.t) (rows : list Row.t) : list Row.t :=
  match rows with
  | [] => [r]
  | x :: rest =>
      match compare_rows r x with
      | Gt => x :: insert_sorted r rest
      | _ => r :: rows
      end
  end.

Definition order_by (rows : list Row.t) : list Row.t :=
  fold_right insert_sorted [] rows.

Definition id_is (i : Field Z) (r : Row.t) : bool :=
  match i with
  | Val n => Z.eqb (Row.id r) n
  | _ => false
  end.

Definition owned_by (userId : string) (r : Row.t) : bool :=
  match Row.user_id r with
  | Some u => String.eqb u userId
  | None => false
  end.

Section Backend.

(** The input functions of the column types [DATE] and [TIMESTAMPTZ]:
    the value a text denotes, [None] when the database refuses it. *)
Variable date_in : string -> option JsDate.
Variable timestamptz_in : string -> option JsDate.

(** The zone of the server process, as [local_midnight] takes it. *)
Variable zone : JsDate -> Z.

(** Reading a text parameter into a column type. *)
Definition read {A} (input : string -> option A) (v : Field string)
  : option (Field A) :=
  match v with
  | Undefined => Some Undefined
  | Null => Some Null
  | Val s => match input s with
             | Some x => Some (Val x)
             | None => None
             end
  end.

(** [SELECT * FROM items WHERE ... ORDER BY sort_order ASC, created_at DESC] *)
Definition sql_select (cond : Row.t -> bool) (tbl : Table)
  : option (list Row.t * Table) :=
  Some (order_by (filter cond tbl), tbl).

Definition is_null {A} (v : Field A) : bool :=
  match v with
  | Null => true
  | _ => false
  end.

(** The SET clause applied to a row. *)
Definition assign (c : Cols.t) (due : Field JsDate) (r : Row.t) : Row.t :=
  Row.mk (Row.id r)
         (nullish (Cols.text c) (Row.text r))
         (stored (Cols.completed c) (Row.completed r))
         (Row.created_at r)
         (nullish (Cols.type c) (Row.type r))
         (nullish (Cols.category c) (Row.category r))
         (nullish (Cols.priority c) (Row.priority r))
         (stored due (Row.due_date r))
         (stored (Cols.notes c) (Row.notes r))
         (stored (Cols.sort_order c) (Row.sort_order r))
         (Row.user_id r).

Definition violates_not_null (c : Cols.t) : bool :=
  is_null (Cols.text c) || is_null (Cols.type c)
  || is_null (Cols.category c) || is_null (Cols.priority c).

(** [UPDATE items SET ... WHERE ... RETURNING *].  The parameters are
    read when the statement is bound; the [NOT NULL] columns are checked
    when a row is written. *)
Definition sql_update (c : Cols.t) (cond : Row.t -> bool) (tbl : Table)
  : option (list Row.t * Table) :=
  match read date_in (Cols.due_date c) with
  | None => None
  | Some due =>
      if existsb cond tbl then
        if violates_not_null c then None
        else Some (map (assign c due) (filter cond tbl),
                   map (fun r => if cond r then assign c due r else r) tbl)
      else Some ([], tbl)
  end.

(** [INSERT INTO items (...) VALUES (...) RETURNING *], [now] being the
    clock behind [DEFAULT NOW()]. *)
Definition new_row (now : JsDate) (c : Cols.t) : option Row.t :=
  match stored (Cols.id c) None,
        stored (Cols.text c) None,
        stored (Cols.type c) (Some "task"),
        stored (Cols.category c) (Some "personal"),
        stored (Cols.priority c) (Some "medium"),
        read timestamptz_in (Cols.created_at c),
        read date_in (Cols.due_date c)
  with
  | Some i, Some t, Some ty, Some ca, Some pr, Some created, Some due =>
      Some (Row.mk i t
              (stored (Cols.completed c) (Some false))
              (stored created (Some now))
              ty ca pr
              (stored due None)
              (stored (Cols.notes c) (Some ""))
              (stored (Cols.sort_order c) (Some 0))
              (stored (Cols.user_id c) None))
  | _, _, _, _, _, _, _ => None
  end.

Definition sql_insert (now : JsDate) (c : Cols.t) (tbl : Table)
  : option (list Row.t * Table) :=
  match new_row now c with
  | Some r =>
      if existsb (fun x => Z.eqb (Row.id x) (Row.id r)) tbl then None
      else Some ([r], tbl ++ [r])
  | None => None
  end.


(* =================================================================== *)
(** * 4. The pg server ([server.js])                                    *)
(* =================================================================== *)

Definition of_option {A} (v : option A) : Field A :=
  match v with
  | Some x => Val x
  | None => Null
  end.

Definition first {A} (rows : list A) : option A :=
  match rows with
  | r :: _ => Some r
  | [] => None
  end.

(** [row.due_date ? row.due_date.toISOString().split('T')[0] : null];
    [None] when [toISOString] throws. *)
Definition due_of_row (row : Row.t) : option Json :=
  match Row.due_date row with
  | None => Some JNull
  | Some d =>
      match iso (local_midnight zone d) with
      | Some s => Some (JStr (split_head "T" s))
      | None => None
      end
  end.

(** The object [GET /api/items] builds from a row; [None] when building
    it throws: the [TypeError] of [row.created_at.toISOString()] on a
    null column, the [RangeError] of [toISOString] on a [created_at] or a
    [due_date] the driver could only make an invalid date of.  The
    values [infinity] and [-infinity], which lie beyond every date as
    [date_out] has it, throw likewise: the driver hands them over as
    numbers, which have no [toISOString]. *)
Definition item_of_row (row : Row.t) : option Json :=
  match Row.created_at row with
  | None => None
  | Some created =>
      match iso created, due_of_row row with
      | Some createdAt, Some dueDate =>
          Some (JObj
            [ ("id", JNum (Number_of_bigint (Row.id row)));
              ("text", JStr (Row.text row));
              ("completed", json_opt JBool (Row.completed row));
              ("createdAt", JStr createdAt);
              ("type", JStr (Row.type row));
              ("category", JStr (Row.category row));
              ("priority", JStr (Row.priority row));
              ("dueDate", dueDate);
              ("notes", JStr (or_else (of_option (Row.notes row)) ""));
              ("order", json_opt JNum (Row.sort_order row)) ])
      | _, _ => None
      end
  end.

Definition lift {A} (v : option A) : Js A :=
  match v with
  | Some a => ret a
  | None => throw
  end.

(** [app.get('/api/items', ...)] *)
Definition get_items (userId : string) : Js Response :=
  try_catch
    (rows <- query (sql_select (owned_by userId)) ;;
     items <- for_each (fun row => lift (item_of_row row)) rows ;;
     ret (json (JArr items)))
    (ret (fail 500 "Failed to fetch items")).

Inductive Body : Type :=
| One (item : Req.t)
| Many (items : list Req.t).

(** [Array.isArray(req.body) ? req.body : [req.body]] *)
Definition items_of (b : Body) : list Req.t :=
  match b with
  | One item => [item]
  | Many items => items
  end.

(** The parameters of the INSERT; [now] is the clock read by
    [new Date()]. *)
Definition insert_params (userId : string) (now : JsDate) (item : Req.t)
  : Cols.t :=
  Cols.mk (param (Req.id item))
          (param (Req.text item))
          (Val (or_else (Req.completed item) false))
          (Val (or_else (Req.createdAt item) (toISOString now)))
          (Val (or_else (Req.type item) "task"))
          (Val (or_else (Req.category item) "personal"))
          (Val (or_else (Req.priority item) "medium"))
          (or_null (Req.dueDate item))
          (Val (or_else (Req.notes item) ""))
          (Val (or_else (Req.order item) 0))
          (Val userId).

(** [app.post('/api/items', ...)] *)
Definition post_items (userId : string) (now : JsDate) (b : Body)
  : Js Response :=
  try_catch
    (BEGIN ;;
     inserted <- for_each
       (fun item =>
          rows <- query (sql_insert now (insert_params userId now item)) ;;
          ret (first rows))
       (items_of b) ;;
     COMMIT ;;
     ret (json (JArr (map (json_opt row_json) inserted))))
    (ROLLBACK ;; ret (fail 500 "Failed to create items")).

(** The parameters [$1 .. $8] of both UPDATE statements. *)
Definition update_params (item : Req.t) : Cols.t :=
  Cols.mk Undefined
          (param (Req.text item))
          (param (Req.completed item))
          Undefined
          (param (Req.type item))
          (param (Req.category item))
          (param (Req.priority item))
          (or_null (Req.dueDate item))
          (Val (or_else (Req.notes item) ""))
          (Val (or_else (Req.order item) 0))
          Undefined.

(** [app.put('/api/items/:id', ...)].  [id] is the path segment as the
    [BIGINT] input reads it: [Undefined] when it is not an integer, in
    which case the statement is refused. *)
Definition put_item (userId : string) (id : Field Z) (item : Req.t)
  : Js Response :=
  try_catch
    (rows <- query (fun tbl =>
               match id with
               | Val _ => sql_update (update_params item)
                            (fun r => id_is id r && owned_by userId r) tbl
               | _ => None
               end) ;;
     match rows with
     | [] => ret (fail 404 "Item not found")
     | row :: _ => ret (json (row_json row))
     end)
    (ret (fail 500 "Failed to update item")).

(** [app.put('/api/items', ...)] *)
Definition put_items (userId : string) (items : list Req.t) : Js Response :=
  try_catch
    (BEGIN ;;
     for_each
       (fun item =>
          query (sql_update (update_params item)
                   (fun r => id_is (Req.id item) r && owned_by userId r)))
       items ;;
     COMMIT ;;
     ret (json success))
    (ROLLBACK ;; ret (fail 500 "Failed to update items")).

(** ** The server before accounts

    The earlier [server.js] has the same handlers on a table without the
    [user_id] column: a row it returns has the ten columns of
    [CREATE TABLE], and its single-item update selects by id alone. *)
Definition row_json_unscoped (r : Row.t) : Json :=
  JObj [ ("id", JStr (string_of_Z (Row.id r)));
         ("text", JStr (Row.text r));
         ("completed", json_opt JBool (Row.completed r));
         ("created_at", json_opt json_date (Row.created_at r));
         ("type", JStr (Row.type r));
         ("category", JStr (Row.category r));
         ("priority", JStr (Row.priority r));
         ("due_date", json_opt json_date (Row.due_date r));
         ("notes", json_opt JStr (Row.notes r));
         ("sort_order", json_opt JNum (Row.sort_order r)) ].

Definition put_item_unscoped (id : Field Z) (item : Req.t) : Js Response :=
  try_catch
    (rows <- query (fun tbl =>
               match id with
               | Val _ => sql_update (update_params item) (id_is id) tbl
               | _ => None
               end) ;;
     match rows with
     | [] => ret (fail 404 "Item not found")
     | row :: _ => ret (json (row_json_unscoped row))
     end)
    (ret (fail 500 "Failed to update item")).

(* =================================================================== *)
(** * 5. The drizzle server                                             *)
(* =================================================================== *)

(** [rowToItem].  The driver of this server hands a [DATE] over as the
    text the database writes for it, which [rowToItem] passes on; a
    [created_at] is taken to be a timestamp a [Date] holds, as is every
    timestamp this server writes. *)
Definition rowToItem (row : Row.t) : Json :=
  JObj
    [ ("id", JNum (Number_of_bigint (Row.id row)));
      ("text", JStr (Row.text row));
      ("completed", json_opt JBool (Row.completed row));
      ("createdAt", json_opt json_date (Row.created_at row));
      ("type", JStr (Row.type row));
      ("category", JStr (Row.category row));
      ("priority", JStr (Row.priority row));
      ("dueDate", match Row.due_date row with
                  | Some d => JStr (date_out d)
                  | None => JNull
                  end);
      ("notes", JStr (or_else (of_option (Row.notes row)) ""));
      ("order", json_opt JNum (Row.sort_order row)) ].

Definition json_field {A} (k : string) (f : A -> Json) (v : Field A)
  : list (string * Json) :=
  match v with
  | Undefined => []
  | Null => [(k, JNull)]
  | Val x => [(k, f x)]
  end.

(** [{ ...item, id: item.id }] on the wire. *)
Definition req_json (item : Req.t) : Json :=
  JObj (json_field "id" JNum (Req.id item)
        ++ json_field "text" JStr (Req.text item)
        ++ json_field "completed" JBool (Req.completed item)
        ++ json_field "createdAt" JStr (Req.createdAt item)
        ++ json_field "type" JStr (Req.type item)
        ++ json_field "category" JStr (Req.category item)
        ++ json_field "priority" JStr (Req.priority item)
        ++ json_field "dueDate" JStr (Req.dueDate item)
        ++ json_field "notes" JStr (Req.notes item)
        ++ json_field "order" JNum (Req.order item)).

(** [db.insert(items).values({...})]: a key left [undefined] is left to
    the column default. *)
Definition drizzle_values (item : Req.t) : Cols.t :=
  Cols.mk (Req.id item)
          (Req.text item)
          (Val (or_else (Req.completed item) false))
          (if truthy (Req.createdAt item) then Req.createdAt item
           else Undefined)
          (Val (or_else (Req.type item) "task"))
          (Val (or_else (Req.category item) "personal"))
          (Val (or_else (Req.priority item) "medium"))
          (or_null (Req.dueDate item))
          (Val (or_else (Req.notes item) ""))
          (Val (nullish (Req.order item) 0))
          Undefined.

(** [app.post('/api/items', ...)], drizzle server *)
Definition drizzle_post_items (now : JsDate) (b : Body) : Js Response :=
  try_catch
    (inserted <- for_each
       (fun item =>
          rows <- query (sql_insert now (drizzle_values item)) ;;
          ret (match rows with
               | row :: _ => rowToItem row
               | [] => req_json item
               end))
       (items_of b) ;;
     ret (json (JArr inserted)))
    (ret (fail 500 "Failed to create items")).

(** [db.update(items).set({...})]: a key left [undefined] is not
    assigned. *)
Definition drizzle_set (item : Req.t) : Cols.t :=
  Cols.mk Undefined
          (Req.text item)
          (Req.completed item)
          Undefined
          (Req.type item)
          (Req.category item)
          (Req.priority item)
          (or_null (Req.dueDate item))
          (Val (or_else (Req.notes item) ""))
          (Val (nullish (Req.order item) 0))
          Undefined.

(** [app.put('/api/items', ...)], drizzle server *)
Definition drizzle_put_items (items : list Req.t) : Js Response :=
  try_catch
    (for_each
       (fun item =>
          query (sql_update (drizzle_set item) (id_is (Req.id item))))
       items ;;
     ret (json success))
    (ret (fail 500 "Failed to update items")).

(* =================================================================== *)
(** * 6. The validated server (second [server.js])                      *)
(* =================================================================== *)

(** ** The one-time migration middleware

    [app.use('/api', ...)], mounted before the routes of both pg
    servers: until it has once run to its end it counts the rows without
    owner and hands them to the caller. *)
Definition unclaimed (r : Row.t) : bool :=
  match Row.user_id r with
  | None => true
  | Some _ => false
  end.

Definition claim (userId : string) (r : Row.t) : Row.t :=
  if unclaimed r then
    Row.mk (Row.id r) (Row.text r) (Row.completed r) (Row.created_at r)
           (Row.type r) (Row.category r) (Row.priority r) (Row.due_date r)
           (Row.notes r) (Row.sort_order r) (Some userId)
  else r.

(** [SELECT COUNT( * ) FROM items WHERE user_id IS NULL] *)
Definition sql_count_unclaimed (tbl : Table) : option (Z * Table) :=
  Some (Z.of_nat (List.length (filter unclaimed tbl)), tbl).

(** [UPDATE items SET user_id = $1 WHERE user_id IS NULL] *)
Definition sql_claim (userId : string) (tbl : Table)
  : option (unit * Table) :=
  Some (tt, map (claim userId) tbl).

(** The same UPDATE on [learning_data] and on [custom_categories]:
    statements that leave [items] alone. *)
Definition sql_elsewhere (tbl : Table) : option (unit * Table) :=
  Some (tt, tbl).

(** The middleware, from the flag [unclaimedDataClaimed] to its new
    value; it never throws and always calls [next]. *)
Definition claim_unclaimed (unclaimedDataClaimed : bool) (userId : string)
  : Js bool :=
  if unclaimedDataClaimed then ret true
  else
    try_catch
      (unclaimedCount <- query sql_count_unclaimed ;;
       (if 0 <? unclaimedCount then
          query (sql_claim userId) ;;
          query sql_elsewhere ;;
          query sql_elsewhere
        else ret tt) ;;
       ret true)
      (ret false).

(** The application: the migration middleware, then the route.  The
    caller has passed [requireAuth()], so [userId] is known. *)
Definition api (unclaimedDataClaimed : bool) (userId : string)
  (route : Js Response) : Js (bool * Response) :=
  flag <- claim_unclaimed unclaimedDataClaimed userId ;;
  res <- route ;;
  ret (flag, res).

(** ** Schemas *)

(** [.min(n)], [.max(n)], [.regex(/^\d{4}-\d{2}-\d{2}$/)], [.int()],
    [.positive()] *)
Inductive Rule : Type :=
| c_min (n : Z)
| c_max (n : Z)
| c_regex_ymd
| c_int
| c_positive.

(** The zod combinators the server uses. *)
Inductive Schema : Type :=
| z_string (checks : list Rule)
| z_number (checks : list Rule)
| z_boolean
| z_enum (values : list string)
| z_optional (inner : Schema)
| z_nullable (inner : Schema)
| z_default (inner : Schema) (value : Json)
| z_object (shape : list (string * Schema))
| z_array (element : Schema) (checks : list Rule)
| z_union (options : list Schema).

Definition itemSchema : Schema :=
  z_object
    [ ("id", z_number [c_int; c_positive]);
      ("text", z_string [c_min 1; c_max 1000]);
      ("completed", z_default (z_optional z_boolean) (JBool false));
      ("createdAt", z_optional (z_string []));
      ("type", z_enum ["task"; "idea"]);
      ("category", z_string [c_min 1; c_max 100]);
      ("priority", z_enum ["high"; "medium"; "low"]);
      ("dueDate", z_optional (z_nullable (z_string [c_regex_ymd])));
      ("notes", z_default (z_optional (z_string [c_max 5000]))
                  (JStr ""));
      ("order", z_default (z_optional (z_number [c_int; c_min 0]))
                  (JNum 0)) ].

Definition itemUpdateSchema : Schema :=
  z_object
    [ ("text", z_string [c_min 1; c_max 1000]);
      ("completed", z_boolean);
      ("type", z_enum ["task"; "idea"]);
      ("category", z_string [c_min 1; c_max 100]);
      ("priority", z_enum ["high"; "medium"; "low"]);
      ("dueDate", z_optional (z_nullable (z_string [c_regex_ymd])));
      ("notes", z_optional (z_string [c_max 5000]));
      ("order", z_optional (z_number [c_int; c_min 0])) ].

Inductive IssueCode : Type :=
| invalid_type | too_small | too_big
| invalid_string | invalid_enum_value | invalid_union.

Record Issue : Type := mkIssue { code : IssueCode; path : list string }.

(** The outcome of [schema.parse(data)]: the validated value
    ([None] for [undefined]) or the issues of the [ZodError]. *)
Inductive Parsed : Type :=
| Valid (value : option Json)
| Invalid (issues : list Issue).

Section Validation.

(** zod itself: its parser and the message it words an issue with. *)
Variable parse : Schema -> option Json -> Parsed.
Variable message : Issue -> string.

(** [{ field: err.path.join('.'), message: err.message }] *)
Definition detail (err : Issue) : Json :=
  JObj [ ("field", JStr (String.concat "." (path err)));
         ("message", JStr (message err)) ].

Definition validation_failed (issues : list Issue) : Response :=
  mkResponse 400
    (JObj [ ("error", JStr "Validation failed");
            ("details", JArr (map detail issues)) ]).

(** [validate(schema)]: the middleware replaces [req.body] by the
    validated value and calls [next], or answers 400. *)
Definition validate (schema : Schema) (reqBody : option Json)
  (next : option Json -> Js Response) : Js Response :=
  match parse schema reqBody with
  | Valid validated => next validated
  | Invalid issues => ret (validation_failed issues)
  end.

End Validation.

(** ** Reading the validated body *)

Definition as_Z (v : option Json) : Field Z :=
  match v with
  | Some (JNum z) => Val z
  | Some JNull => Null
  | _ => Undefined
  end.

Definition as_string (v : option Json) : Field string :=
  match v with
  | Some (JStr s) => Val s
  | Some JNull => Null
  | _ => Undefined
  end.

Definition as_bool (v : option Json) : Field bool :=
  match v with
  | Some (JBool b) => Val b
  | Some JNull => Null
  | _ => Undefined
  end.

(** The fields a handler reads off an item of the body. *)
Definition req_of_json (j : Json) : Req.t :=
  Req.mk (as_Z (prop "id" j))
         (as_string (prop "text" j))
         (as_bool (prop "completed" j))
         (as_string (prop "createdAt" j))
         (as_string (prop "type" j))
         (as_string (prop "category" j))
         (as_string (prop "priority" j))
         (as_string (prop "dueDate" j))
         (as_string (prop "notes" j))
         (as_Z (prop "order" j)).

Definition body_of_json (v : option Json) : Body :=
  match v with
  | Some (JArr elems) => Many (map req_of_json elems)
  | Some j => One (req_of_json j)
  | None => One (req_of_json JNull)
  end.

Definition list_of_json (v : option Json) : list Req.t :=
  match v with
  | Some (JArr elems) => map req_of_json elems
  | _ => []
  end.

(** [app.put('/api/items/:id', validate(itemUpdateSchema), ...)]: the
    handler behind the validation.  [id] is what [parseInt] makes of
    the path segment, [Undefined] for [NaN]. *)
Definition put_item_checked (userId : string) (id : Field Z) (item : Req.t)
  : Js Response :=
  match id with
  | Val itemId =>
      if itemId <=? 0 then ret (fail 400 "Invalid item ID")
      else
        try_catch
          (rows <- query (sql_update (update_params item)
                            (fun r => id_is id r && owned_by userId r)) ;;
           match rows with
           | [] => ret (fail 404 "Item not found or unauthorized")
           | row :: _ => ret (json (row_json row))
           end)
          (ret (fail 500 "Failed to update item"))
  | _ => ret (fail 400 "Invalid item ID")
  end.

(** The schema-validated items endpoints. *)
Inductive Endpoint : Type :=
| POST_items
| PUT_item (id : Field Z)
| PUT_items.

Definition schema_of (e : Endpoint) : Schema :=
  match e with
  | POST_items => z_union [itemSchema; z_array itemSchema []]
  | PUT_item _ => itemUpdateSchema
  | PUT_items => z_array itemSchema [c_min 1; c_max 1000]
  end.

Definition handler_of (e : Endpoint) (userId : string) (now : JsDate)
  (reqBody : option Json) : Js Response :=
  match e with
  | POST_items => post_items userId now (body_of_json reqBody)
  | PUT_item id =>
      put_item_checked userId id
        (req_of_json (match reqBody with Some j => j | None => JNull end))
  | PUT_items => put_items userId (list_of_json reqBody)
  end.

End Backend.

(** Serving one request through the application: the flag and the table
    before; the response, the table and the flag after. *)
Definition serve_app (h : Js (bool * Response)) (fs : list bool)
  (tbl : Table) : option (bool * Response) * Table :=
  let '(w, r) := h (mkWorld tbl None fs) in (r, committed w).

(** ** A parser for the schemas

    What [schema.parse] accepts and the value it yields, for the
    combinators above; unknown keys of an object are stripped.  A union
    that matches no option reports one [invalid_union] issue. *)
Definition rule_string (p : list string) (s : string) (c : Rule)
  : list Issue :=
  match c with
  | c_min n => if Z.of_nat (String.length s) <? n
               then [mkIssue too_small p] else []
  | c_max n => if n <? Z.of_nat (String.length s)
               then [mkIssue too_big p] else []
  | c_regex_ymd => if is_ymd s then [] else [mkIssue invalid_string p]
  | _ => []
  end.

Definition rule_number (p : list string) (z : Z) (c : Rule) : list Issue :=
  match c with
  | c_min n => if z <? n then [mkIssue too_small p] else []
  | c_max n => if n <? z then [mkIssue too_big p] else []
  | c_positive => if z <=? 0 then [mkIssue too_small p] else []
  | _ => []
  end.

Definition rule_array (p : list string) (elems : list Json) (c : Rule)
  : list Issue :=
  match c with
  | c_min n => if Z.of_nat (List.length elems) <? n
               then [mkIssue too_small p] else []
  | c_max n => if n <? Z.of_nat (List.length elems)
               then [mkIssue too_big p] else []
  | _ => []
  end.

Definition verdict (value : option Json) (issues : list Issue) : Parsed :=
  match issues with
  | [] => Valid value
  | _ => Invalid issues
  end.

Fixpoint zod_parse_at (p : list string) (s : Schema) (data : option Json)
  : Parsed :=
  match s with
  | z_string checks =>
      match data with
      | Some (JStr str) => verdict data (flat_map (rule_string p str) checks)
      | _ => Invalid [mkIssue invalid_type p]
      end
  | z_number checks =>
      match data with
      | Some (JNum z) => verdict data (flat_map (rule_number p z) checks)
      | _ => Invalid [mkIssue invalid_type p]
      end
  | z_boolean =>
      match data with
      | Some (JBool _) => Valid data
      | _ => Invalid [mkIssue invalid_type p]
      end
  | z_enum values =>
      match data with
      | Some (JStr str) =>
          if existsb (String.eqb str) values then Valid data
          else Invalid [mkIssue invalid_enum_value p]
      | _ => Invalid [mkIssue invalid_type p]
      end
  | z_optional inner =>
      match data with
      | None => Valid None
      | _ => zod_parse_at p inner data
      end
  | z_nullable inner =>
      match data with
      | Some JNull => Valid data
      | _ => zod_parse_at p inner data
      end
  | z_default inner value =>
      match data with
      | None => zod_parse_at p inner (Some value)
      | _ => zod_parse_at p inner data
      end
  | z_object shape =>
      match data with
      | Some (JObj props) =>
          let fix fields (sh : list (string * Schema))
            : list (string * Json) * list Issue :=
            match sh with
            | [] => ([], [])
            | (k, sk) :: rest =>
                let '(out, issues) := fields rest in
                match zod_parse_at (p ++ [k]) sk (lookup k props) with
                | Valid (Some v) => ((k, v) :: out, issues)
                | Valid None => (out, issues)
                | Invalid here => (out, here ++ issues)
                end
            end in
          let '(out, issues) := fields shape in
          verdict (Some (JObj out)) issues
      | _ => Invalid [mkIssue invalid_type p]
      end
  | z_array element checks =>
      match data with
      | Some (JArr elems) =>
          let fix each (i : Z) (l : list Json) : list Json * list Issue :=
            match l with
            | [] => ([], [])
            | x :: rest =>
                let '(out, issues) := each (i + 1) rest in
                match zod_parse_at (p ++ [string_of_Z i]) element (Some x)
                with
                | Valid v => (json_opt (fun j => j) v :: out, issues)
                | Invalid here => (out, here ++ issues)
                end
            end in
          let '(out, issues) := each 0 elems in
          verdict (Some (JArr out))
                  (flat_map (rule_array p elems) checks ++ issues)
      | _ => Invalid [mkIssue invalid_type p]
      end
  | z_union options =>
      let fix attempt (os : list Schema) : Parsed :=
        match os with
        | [] => Invalid [mkIssue invalid_union p]
        | o :: rest =>
            match zod_parse_at p o data with
            | Valid v => Valid v
            | Invalid _ => attempt rest
            end
        end in
      attempt options
  end.

Definition zod_parse : Schema -> option Json -> Parsed := zod_parse_at [].

(** zod words its messages itself; the code of the issue stands for them
    here. *)
Definition zod_message (err : Issue) : string :=
  match code err with
  | invalid_type => "invalid_type"
  | too_small => "too_small"
  | too_big => "too_big"
  | invalid_string => "invalid_string"
  | invalid_enum_value => "invalid_enum_value"
  | invalid_union => "invalid_union"
  end.

(* ===================================================================== *)
(** * 7. The client engine                                                *)
(* ===================================================================== *)

(** The engine runs in the browser, in [index.html]; what follows renders
    the Item Store, the Grouping Engine and the Sync Manager as the
    specification describes them. *)
Module Engine.

(** Modelled from the spec: the calendar date of the data model (the
    client source is missing), a date without time component. *)
Record Date : Type := mkDay { dyear : Z; dmonth : Z; dday : Z }.

Definition compare (a b : Date) : comparison :=
  lex (dyear a ?= dyear b) (lex (dmonth a ?= dmonth b) (dday a ?= dday b)).

Definition before (a b : Date) : Prop := compare a b = Lt.

Definition date_eqb (a b : Date) : bool :=
  match compare a b with
  | Eq => true
  | _ => false
  end.

(** Modelled from the spec: the Item of the data model (the client
    source is missing). *)
Record Item : Type := mkItem {
  id : Z;
  text : string;
  notes : string;
  completed : bool;
  type : string;
  category : string;
  priority : string;
  dueDate : option Date;
  order : Z;
  createdAt : string
}.

(** Modelled from the spec: the group key, [overdue], a calendar date
    or [no-date] (the client source is missing). *)
Inductive GroupKey : Type :=
| overdue
| on (d : Date)
| no_date.

Definition key_eqb (a b : GroupKey) : bool :=
  match a, b with
  | overdue, overdue => true
  | on x, on y => date_eqb x y
  | no_date, no_date => true
  | _, _ => false
  end.

(** Modelled from the spec: the filters of [groupAndFilter] (the client
    source is missing); [None] lets every type or category through. *)
Record Filters : Type := mkFilters {
  byType : option string;
  byCategory : option string;
  showCompleted : bool
}.

(** Modelled from the spec: a Group of the data model (the client
    source is missing). *)
Record Group : Type := mkGroup {
  key : GroupKey;
  label : string;
  isToday : bool;
  isOverdue : bool;
  items : list Item
}.

Section Grouping.

Variable today : Date.
(** The heading of a group; the specification leaves its wording to
    the presentation. *)
Variable getGroupLabel : GroupKey -> string.

(** Modelled from the spec: group-key derivation (the client source
    is missing).  An incomplete item due strictly before today is
    overdue; an item without due date has no date; every other item
    goes under its own due date. *)
Definition group_key (it : Item) : GroupKey :=
  match dueDate it with
  | None => no_date
  | Some d =>
      match compare d today with
      | Lt => if completed it then on d else overdue
      | _ => on d
      end
  end.

(** Modelled from the spec: an item passes the filters (the client
    source is missing). *)
Definition passes (f : Filters) (it : Item) : bool :=
  match byType f with
  | Some t => String.eqb (type it) t
  | None => true
  end
  && match byCategory f with
     | Some c => String.eqb (category it) c
     | None => true
     end
  && (showCompleted f || negb (completed it)).

(** Ascending by [order], ties broken by [id]. *)
Definition compare_items (a b : Item) : comparison :=
  lex (order a ?= order b) (id a ?= id b).

Fixpoint insert_item (it : Item) (l : list Item) : list Item :=
  match l with
  | [] => [it]
  | x :: rest =>
      match compare_items it x with
      | Gt => x :: insert_item it rest
      | _ => it :: l
      end
  end.

Definition sort_items (l : list Item) : list Item :=
  fold_right insert_item [] l.

Fixpoint insert_date (d : Date) (l : list Date) : list Date :=
  match l with
  | [] => [d]
  | x :: rest =>
      match compare d x with
      | Lt => d :: l
      | Eq => l
      | Gt => x :: insert_date d rest
      end
  end.

(** The distinct dates that key a group, ascending. *)
Definition dates_of (l : list Item) : list Date :=
  fold_right insert_date []
    (flat_map (fun it => match group_key it with
                         | on d => [d]
                         | _ => []
                         end) l).

Definition members (k : GroupKey) (l : list Item) : list Item :=
  sort_items (filter (fun it => key_eqb (group_key it) k) l).

Definition group_of (l : list Item) (k : GroupKey) : Group :=
  mkGroup k (getGroupLabel k)
          (key_eqb k (on today))
          (key_eqb k overdue)
          (members k l).

Definition is_empty (g : Group) : bool :=
  match items g with
  | [] => true
  | _ => false
  end.

(** Modelled from the spec: the Grouping Engine's [groupAndFilter]
    (the client source is missing).  The overdue group, the groups of
    the dates that have items in ascending order, the no-date group;
    a group left without item is dropped. *)
Definition groupAndFilter (l : list Item) (f : Filters) : list Group :=
  let shown := filter (passes f) l in
  filter (fun g => negb (is_empty g))
    (map (group_of shown)
         (overdue :: map on (dates_of shown) ++ [no_date])).

(** ** Item Store *)

Definition with_schedule (d : option Date) (o : Z) (it : Item) : Item :=
  mkItem (id it) (text it) (notes it) (completed it) (type it)
         (category it) (priority it) d o (createdAt it).

Definition find_item (i : Z) (store : list Item) : option Item :=
  find (fun it => Z.eqb (id it) i) store.

(** The largest [order] in a group, [None] for a group without
    item. *)
Definition group_max (k : GroupKey) (store : list Item) : option Z :=
  fold_right (fun it acc =>
                if key_eqb (group_key it) k then
                  match acc with
                  | Some m => Some (Z.max m (order it))
                  | None => Some (order it)
                  end
                else acc)
             None store.

(** Modelled from the spec: the position at the end of a group (the
    client source is missing): one past the maximum of the group; 0 for
    a group without item, where the specification names no maximum. *)
Definition end_of_group (k : GroupKey) (store : list Item) : Z :=
  match group_max k store with
  | Some m => m + 1
  | None => 0
  end.

(** Modelled from the spec: applying a Reschedule intent
    [(itemId, newDueDate-or-null)] to the Item Store (the client
    source is missing): [setDueDate], with the [order] the Drag
    Controller assigns, the end of the destination group. *)
Definition reschedule (i : Z) (d : option Date) (store : list Item)
  : list Item :=
  match find_item i store with
  | None => store
  | Some a =>
      let destination := group_key (with_schedule d (order a) a) in
      let o := end_of_group destination store in
      map (fun it => if Z.eqb (id it) i then with_schedule d o it else it)
          store
  end.

(** ** Sync Manager *)

(** Modelled from the spec: a persistence call in flight (the client
    source is missing): the item it is about, its sequence number and
    the snapshot taken before the mutation. *)
Record Call : Type := mkCall {
  item : Z;
  seq : nat;
  snapshot : list Item
}.

Record Sync : Type := mkSync {
  store : list Item;
  issued : list (Z * nat)
}.

(** The latest sequence number issued for an item id, 0 before the
    first. *)
Fixpoint latest (i : Z) (l : list (Z * nat)) : nat :=
  match l with
  | [] => O
  | (j, n) :: rest => if Z.eqb j i then n else latest i rest
  end.

(** Modelled from the spec: the Sync Manager taking a Reschedule
    intent (the client source is missing): snapshot, optimistic
    mutation, and a call carrying the next sequence number of the
    item. *)
Definition issue (i : Z) (d : option Date) (s : Sync) : Sync * Call :=
  let n := S (latest i (issued s)) in
  (mkSync (reschedule i d (store s)) ((i, n) :: issued s),
   mkCall i n (store s)).

(** Modelled from the spec: [restore] for the affected item (the client
    source is missing): it takes back the state the snapshot holds for
    it. *)
Definition restore (i : Z) (snap : list Item) (now : list Item)
  : list Item :=
  match find_item i snap with
  | Some old => map (fun it => if Z.eqb (id it) i then old else it) now
  | None => now
  end.

(** Modelled from the spec: the Sync Manager receiving the response
    to a call (the client source is missing).  A response that is not
    the latest issued for its item is discarded; the latest one
    confirms on success and rolls back on failure. *)
Definition deliver (c : Call) (ok : bool) (s : Sync) : Sync :=
  if Nat.eqb (seq c) (latest (item c) (issued s)) then
    if ok then s
    else mkSync (restore (item c) (snapshot c) (store s)) (issued s)
  else s.

Definition dueDate_of (i : Z) (s : Sync) : option (option Date) :=
  option_map dueDate (find_item i (store s)).

End Grouping.

(** Some shown item has the group key [k]. *)
Definition has (today : Date) (k : GroupKey) (l : list Item) : bool :=
  existsb (fun it => key_eqb (group_key today it) k) l.

(** Every field but [dueDate] and [order] is the same. *)
Definition same_but_schedule (old new : Item) : Prop :=
  id new = id old /\ text new = text old /\ notes new = notes old
  /\ completed new = completed old /\ type new = type old
  /\ category new = category old /\ priority new = priority old
  /\ createdAt new = createdAt old.

(** Two Reschedule intents for one item, both issued before either
    response arrives; then the two responses, in either order. *)
Definition two_reschedules (today : Date) (i : Z) (d1 d2 : option Date)
  (ok1 ok2 d1_first : bool) (s0 : Sync) : Sync :=
  let '(s1, c1) := issue today i d1 s0 in
  let '(s2, c2) := issue today i d2 s1 in
  if d1_first then deliver c2 ok2 (deliver c1 ok1 s2)
  else deliver c1 ok1 (deliver c2 ok2 s2).

(** The end-to-end scenario of the specification. *)
Module Scenario.
Definition yesterday : Date := mkDay 2026 3 8.
Definition today : Date := mkDay 2026 3 9.
Definition tomorrow : Date := mkDay 2026 3 10.
Definition item (i : Z) (d : option Date) (o : Z) : Item :=
  mkItem i "item" "" false "task" "personal" "medium" d o
         "2026-03-01T09:00:00.000Z".
Definition store : list Item :=
  [item 1 (Some yesterday) 0; item 2 (Some today) 0; item 3 None 0].
(** The same items when the overdue one sits far down its group. *)
Definition crowded : list Item :=
  [item 1 (Some yesterday) 50; item 2 (Some today) 0; item 3 None 0].
Definition filters : Filters := mkFilters None None false.
Definition heading (k : GroupKey) : string :=
  match k with
  | overdue => "Overdue"
  | on _ => "Date"
  | no_date => "No Date"
  end.
End Scenario.

End Engine.

(* ===================================================================== *)
(** * 8. Reference semantics and concrete data                            *)
(* ===================================================================== *)

(** Data statements attempted one after the other against a table, under
    the faults of the environment, up to the first one refused: whether
    all passed (and what they returned), the table reached, the faults
    left. *)
Fixpoint run {A B} (f : A -> Table -> option (B * Table)) (xs : list A)
  (fs : list bool) (t : Table) : option (list B) * Table * list bool :=
  match xs with
  | [] => (Some [], t, fs)
  | x :: rest =>
      if hd false fs then (None, t, tl fs)
      else match f x t with
           | None => (None, t, tl fs)
           | Some (b, t1) =>
               let '(r, t2, fs2) := run f rest (tl fs) t1 in
               (option_map (cons b) r, t2, fs2)
           end
  end.

(** The statements of the handlers. *)
Definition insert_stmt (date_in timestamptz_in : string -> option JsDate)
  (userId : string) (now : JsDate) (item : Req.t) :=
  sql_insert date_in timestamptz_in now (insert_params userId now item).

Definition update_stmt (date_in : string -> option JsDate)
  (userId : string) (item : Req.t) :=
  sql_update date_in (update_params item)
    (fun r => id_is (Req.id item) r && owned_by userId r).

Definition drizzle_update_stmt (date_in : string -> option JsDate)
  (item : Req.t) :=
  sql_update date_in (drizzle_set item) (id_is (Req.id item)).

(** ** Input functions for the examples: the ISO forms *)

Fixpoint number (l : list ascii) (acc : Z) : option Z :=
  match l with
  | [] => Some acc
  | a :: rest =>
      if is_digit a
      then number rest (10 * acc + (Z.of_nat (nat_of_ascii a) - 48))
      else None
  end.

Definition numeral (start len : nat) (s : string) : option Z :=
  number (list_ascii_of_string (substring start len s)) 0.

(** [YYYY-MM-DD], read as midnight UTC. *)
Definition iso_date_in (s : string) : option JsDate :=
  if is_ymd s then
    match numeral 0 4 s, numeral 5 2 s, numeral 8 2 s with
    | Some y, Some m, Some d => Some (mkDate y m d 0 0 0 0)
    | _, _, _ => None
    end
  else None.

(** [YYYY-MM-DDTHH:mm:ss.sssZ] *)
Definition iso_timestamptz_in (s : string) : option JsDate :=
  if Nat.eqb (String.length s) 24
     && is_ymd (substring 0 10 s)
     && String.eqb (substring 10 1 s) "T"
     && String.eqb (substring 13 1 s) ":"
     && String.eqb (substring 16 1 s) ":"
     && String.eqb (substring 19 1 s) "."
     && String.eqb (substring 23 1 s) "Z"
  then
    match numeral 0 4 s, numeral 5 2 s, numeral 8 2 s,
          numeral 11 2 s, numeral 14 2 s, numeral 17 2 s, numeral 20 3 s
    with
    | Some y, Some m, Some d, Some h, Some mi, Some se, Some ms =>
        Some (mkDate y m d h mi se ms)
    | _, _, _, _, _, _, _ => None
    end
  else None.

Module Sample.

Definition clock : JsDate := mkDate 2026 3 9 8 30 0 0.

(** [{ id: 1, text: 'water the plants' }] *)
Definition plants : Req.t :=
  Req.mk (Val 1) (Val "water the plants") Undefined Undefined Undefined
         Undefined Undefined Undefined Undefined Undefined.

(** The row [POST /api/items] stores for [plants] on behalf of [ana]. *)
Definition plants_row : Row.t :=
  Row.mk 1 "water the plants" (Some false) (Some clock) "task" "personal"
         "medium" None (Some "") (Some 0) (Some "ana").

(** A full replacement of item 1. *)
Definition plants_done : Req.t :=
  Req.mk (Val 1) (Val "water the plants") (Val true) Undefined (Val "task")
         (Val "personal") (Val "high") (Val "2026-03-10") (Val "done")
         (Val 2).

(** The same replacement with [text] left out. *)
Definition no_text : Req.t :=
  Req.mk (Val 1) Undefined (Val true) Undefined (Val "task")
         (Val "personal") (Val "high") (Val "2026-03-10") (Val "done")
         (Val 2).

(** The same replacement with [text: null]. *)
Definition null_text : Req.t :=
  Req.mk (Val 1) Null (Val true) Undefined (Val "task")
         (Val "personal") (Val "high") (Val "2026-03-10") (Val "done")
         (Val 2).

(** A replacement for an item that does not exist. *)
Definition stranger : Req.t :=
  Req.mk (Val 7) (Val "call the bank") (Val false) Undefined (Val "task")
         (Val "work") (Val "low") Null (Val "") (Val 0).

(** A row left from before accounts: it has no owner. *)
Definition legacy_row : Row.t :=
  Row.mk 3 "old note" (Some false) (Some clock) "idea" "personal"
         "low" None (Some "") (Some 0) None.

(** [{ text: 'Test task' }], the body of the validation test script. *)
Definition test_body : Json := JObj [("text", JStr "Test task")].


(** A replacement for the legacy row that leaves [text] out. *)
Definition legacy_no_text : Req.t :=
  Req.mk (Val 3) Undefined (Val true) Undefined (Val "idea")
         (Val "personal") (Val "low") Null (Val "") (Val 0).

(** An item whose optional fields are all left out or falsy. *)
Definition bare : Req.t :=
  Req.mk (Val 2) (Val "stretch") (Val false) (Val "") Null Undefined
         (Val "") (Val "") Undefined (Val 0).

Definition bare_row (owner : option string) : Row.t :=
  Row.mk 2 "stretch" (Some false) (Some clock) "task" "personal"
         "medium" None (Some "") (Some 0) owner.

(** An item of bob, due on 10 March 2026. *)
Definition bob_row : Row.t :=
  Row.mk 4 "call the bank" (Some false) (Some clock) "task" "work"
         "low" (Some (mkDate 2026 3 10 0 0 0 0)) (Some "") (Some 1)
         (Some "bob").

(** A server that runs on UTC, and one that runs two hours east of
    it. *)
Definition utc (d : JsDate) : Z := 0.
Definition east (d : JsDate) : Z := 120.

End Sample.

(* ===================================================================== *)
(** * 9. Notions the statements use                                       *)
(* ===================================================================== *)

(** Every statement of the loop is accepted. *)
Definition accepted {A B} (f : A -> Table -> option (B * Table))
  (xs : list A) (fs : list bool) (t : Table) : bool :=
  match run f xs fs t with
  | (Some _, _, _) => true
  | (None, _, _) => false
  end.

(** The WHERE clause of the single-item update. *)
Definition mine (userId : string) (id : Field Z) (r : Row.t) : bool :=
  id_is id r && owned_by userId r.

Definition is_val {A} (v : Field A) : bool :=
  match v with
  | Val _ => true
  | _ => false
  end.

Definition is_none {A} (v : option A) : bool :=
  match v with
  | None => true
  | Some _ => false
  end.

(** The UPDATE of [PUT /api/items/:id] is refused: by the environment,
    because the path segment is no integer, because the due date is no
    date, or because a row would lose a [NOT NULL] column. *)
Definition update_refused (date_in : string -> option JsDate)
  (cond : Row.t -> bool) (id : Field Z) (item : Req.t) (fs : list bool)
  (tbl : Table) : bool :=
  hd false fs
  || negb (is_val id)
  || is_none (read date_in (Cols.due_date (update_params item)))
  || (existsb cond tbl && violates_not_null (update_params item)).

(** The mutable fields of a row are those of the request, [dueDate],
    [notes] and [order] after their [||]. *)
Definition fully_replaced (date_in : string -> option JsDate)
  (item : Req.t) (row : Row.t) : Prop :=
  Val (Row.text row) = Req.text item
  /\ Row.completed row = stored (param (Req.completed item)) None
  /\ Val (Row.type row) = Req.type item
  /\ Val (Row.category row) = Req.category item
  /\ Val (Row.priority row) = Req.priority item
  /\ option_map (fun due => stored due None)
       (read date_in (or_null (Req.dueDate item))) = Some (Row.due_date row)
  /\ Row.notes row = Some (or_else (Req.notes item) "")
  /\ Row.sort_order row = Some (or_else (Req.order item) 0).

(** The single-item update as C2 words it: 404 exactly when the caller
    has no item of that id, and otherwise the replaced row is returned. *)
Definition put_item_claim (date_in : string -> option JsDate)
  (userId : string) (id : Field Z) (item : Req.t) (fs : list bool)
  (tbl : Table) : Prop :=
  let '(res, tbl') := serve (put_item date_in userId id item) fs tbl in
  (option_map status res = Some 404 <-> existsb (mine userId id) tbl = false)
  /\ (existsb (mine userId id) tbl = true ->
      exists row, res = Some (json (row_json row))
                  /\ In row tbl' /\ fully_replaced date_in item row).

(** The bulk update as C9 words it: a failed request leaves the table as
    it found it, and otherwise the response reports success. *)
Definition bulk_update_claim (date_in : string -> option JsDate)
  (unclaimedDataClaimed : bool) (userId : string) (items : list Req.t)
  (fs : list bool) (tbl : Table) : Prop :=
  match serve_app (api unclaimedDataClaimed userId
                     (put_items date_in userId items)) fs tbl with
  | (Some (_, res), tbl') =>
      (status res = 500 /\ tbl' = tbl) \/ res = json success
  | (None, _) => False
  end.

(** Validation as C6 words it: a body that fails the schema is answered
    400 and the table is not touched. *)
Definition validation_claim (date_in timestamptz_in : string -> option JsDate)
  (unclaimedDataClaimed : bool) (userId : string) (now : JsDate)
  (e : Endpoint) (reqBody : option Json) (fs : list bool) (tbl : Table)
  : Prop :=
  match serve_app (api unclaimedDataClaimed userId
                     (validate zod_parse zod_message (schema_of e) reqBody
                        (handler_of date_in timestamptz_in e userId now)))
          fs tbl with
  | (Some (_, res), tbl') => status res = 400 /\ tbl' = tbl
  | (None, _) => False
  end.

(** The two bulk updates as C5 words them: same response, same table. *)
Definition bulk_equivalence_claim (date_in : string -> option JsDate)
  (userId : string) (items : list Req.t) (fs : list bool) (tbl : Table)
  : Prop :=
  serve (put_items date_in userId items) fs tbl
  = serve (drizzle_put_items date_in items) fs tbl.

(** A full replacement: none of the fields both servers pass on as they
    are is left out. *)
Definition complete (item : Req.t) : Prop :=
  Req.text item <> Undefined
  /\ Req.completed item <> Undefined
  /\ Req.type item <> Undefined
  /\ Req.category item <> Undefined
  /\ Req.priority item <> Undefined.

(** The defaults of [POST /api/items] for the fields an item leaves out
    or gives a falsy value. *)
Definition defaults_hold (item : Req.t) (row : Row.t) : Prop :=
  (truthy (Req.completed item) = false -> Row.completed row = Some false)
  /\ (truthy (Req.type item) = false -> Row.type row = "task")
  /\ (truthy (Req.category item) = false -> Row.category row = "personal")
  /\ (truthy (Req.priority item) = false -> Row.priority row = "medium")
  /\ (truthy (Req.dueDate item) = false -> Row.due_date row = None)
  /\ (truthy (Req.notes item) = false -> Row.notes row = Some "")
  /\ (truthy (Req.order item) = false -> Row.sort_order row = Some 0).

(** The columns of a row, in the order the driver returns them. *)
Definition columns : list string :=
  ["id"; "text"; "completed"; "created_at"; "type"; "category"; "priority";
   "due_date"; "notes"; "sort_order"; "user_id"].

(** A record of the data model on the wire: its fields under their
    names, [dueDate] null or [YYYY-MM-DD]. *)
Definition is_item_record (rec : Json) : Prop :=
  keys rec = item_fields
  /\ (prop "dueDate" rec = Some JNull
      \/ exists s, prop "dueDate" rec = Some (JStr s) /\ is_ymd s = true).

(* ===================================================================== *)
(** * 9a. The other routes of the pg server                               *)
(* ===================================================================== *)

(** [DELETE FROM items WHERE ... RETURNING id]: the rows deleted and the
    rows kept. *)
Definition sql_delete (cond : Row.t -> bool) (tbl : Table)
  : option (list Row.t * Table) :=
  Some (filter cond tbl, filter (fun r => negb (cond r)) tbl).

(** [app.delete('/api/items/:id', ...)], with [id] read as for the
    update. *)
Definition delete_item (userId : string) (id : Field Z) : Js Response :=
  try_catch
    (query (fun tbl =>
              match id with
              | Val _ => sql_delete (mine userId id) tbl
              | _ => None
              end) ;;
     ret (json success))
    (ret (fail 500 "Failed to delete item")).

(** The same route of the validated server: [parseInt] on the path
    segment, then [DELETE ... RETURNING id]. *)
Definition delete_item_checked (userId : string) (id : Field Z)
  : Js Response :=
  match id with
  | Val itemId =>
      if itemId <=? 0 then ret (fail 400 "Invalid item ID")
      else
        try_catch
          (rows <- query (sql_delete (mine userId id)) ;;
           match rows with
           | [] => ret (fail 404 "Item not found or unauthorized")
           | _ :: _ => ret (json success)
           end)
          (ret (fail 500 "Failed to delete item"))
  | _ => ret (fail 400 "Invalid item ID")
  end.

(** A request to [/api/items]; [now] is the clock read while it is
    served. *)
Inductive Request : Type :=
| GetItems
| PostItems (now : JsDate) (b : Body)
| PutItem (id : Field Z) (item : Req.t)
| PutItems (items : list Req.t)
| DeleteItem (id : Field Z).

(** The routes [app.get], [app.post], [app.put] and [app.delete] register
    for [/api/items]. *)
Definition route (zone : JsDate -> Z)
  (date_in timestamptz_in : string -> option JsDate)
  (userId : string) (req : Request) : Js Response :=
  match req with
  | GetItems => get_items zone userId
  | PostItems now b => post_items date_in timestamptz_in userId now b
  | PutItem id item => put_item date_in userId id item
  | PutItems items => put_items date_in userId items
  | DeleteItem id => delete_item userId id
  end.

(** [app.get('/api/items', ...)] of the drizzle server: every row of the
    table, through [rowToItem]. *)
Definition drizzle_get_items : Js Response :=
  try_catch
    (rows <- query (sql_select (fun _ => true)) ;;
     ret (json (JArr (map rowToItem rows))))
    (ret (fail 500 "Failed to fetch items")).

(** The INSERT of the drizzle server, with the record its handler pushes
    for the item. *)
Definition drizzle_insert_stmt
  (date_in timestamptz_in : string -> option JsDate) (now : JsDate) (item : Req.t) (tbl : Table) : option (Json * Table) :=
  match sql_insert date_in timestamptz_in now (drizzle_values item) tbl with
  | Some (rows, tbl1) =>
      Some (match rows with
            | row :: _ => rowToItem row
            | [] => req_json item
            end, tbl1)
  | None => None
  end.

(** The row has its [created_at]. *)
Definition dated (r : Row.t) : bool := negb (is_none (Row.created_at r)).

(** [GET /api/items] can make its record of the row: the row has a
    [created_at] that is a valid [Date], and its [due_date], if it has
    one, is a valid [Date] at the midnight of the server. *)
Definition renders (zone : JsDate -> Z) (r : Row.t) : bool :=
  match Row.created_at r with
  | Some created => js_valid created
  | None => false
  end
  && match Row.due_date r with
     | Some d => js_valid (local_midnight zone d)
     | None => true
     end.

(** The ids [Number] reads exactly. *)
Definition exact_id (i : Z) : Prop := Z.abs i < 2 ^ 53.

(** [xs.map(g)] where [g] may throw: every result, or the exception. *)
Fixpoint collect {A B} (g : A -> option B) (xs : list A) : option (list B) :=
  match xs with
  | [] => Some []
  | x :: rest =>
      match g x, collect g rest with
      | Some y, Some ys => Some (y :: ys)
      | _, _ => None
      end
  end.

(** What one statement issued on behalf of [userId] does to the table:
    it rewrites rows of the caller without touching [id], [created_at] or
    [user_id], appends a row of the caller with a fresh id and a
    [created_at], deletes rows of the caller, or hands the ownerless rows
    to the caller. *)
Inductive step (userId : string) : Table -> Table -> Prop :=
| step_rewrite (g : Row.t -> Row.t) (t : Table) :
    (forall r, Row.id (g r) = Row.id r
               /\ Row.created_at (g r) = Row.created_at r
               /\ Row.user_id (g r) = Row.user_id r) ->
    (forall r, owned_by userId r = false -> g r = r) ->
    step userId t (map g t)
| step_append (r : Row.t) (t : Table) :
    ~ In (Row.id r) (map Row.id t) ->
    Row.user_id r = Some userId ->
    dated r = true ->
    step userId t (t ++ [r])
| step_remove (cond : Row.t -> bool) (t : Table) :
    (forall r, cond r = true -> owned_by userId r = true) ->
    step userId t (filter (fun r => negb (cond r)) t)
| step_claim (t : Table) :
    step userId t (map (claim userId) t).

(** Any number of such statements. *)
Inductive steps (userId : string) : Table -> Table -> Prop :=
| steps_none (t : Table) : steps userId t t
| steps_more (t t1 t2 : Table) :
    steps userId t t1 -> step userId t1 t2 -> steps userId t t2.

(** What a record read back by [GET /api/items] shows of the item that
    was posted. *)
Definition reads_back (item : Req.t) (rec : Json) : Prop :=
  exists i t,
    Req.id item = Val i /\ Req.text item = Val t
    /\ prop "id" rec = Some (JNum (Number_of_bigint i))
    /\ prop "text" rec = Some (JStr t)
    /\ prop "completed" rec
       = Some (JBool (or_else (Req.completed item) false))
    /\ prop "type" rec = Some (JStr (or_else (Req.type item) "task"))
    /\ prop "category" rec
       = Some (JStr (or_else (Req.category item) "personal"))
    /\ prop "priority" rec
       = Some (JStr (or_else (Req.priority item) "medium"))
    /\ prop "notes" rec = Some (JStr (or_else (Req.notes item) ""))
    /\ prop "order" rec = Some (JNum (or_else (Req.order item) 0)).

(** The order of [ORDER BY sort_order ASC, created_at DESC]. *)
Definition row_le (a b : Row.t) : Prop := compare_rows a b <> Gt.

(** A comparison that orders: antisymmetric, transitive, and compatible
    with its own equivalence. *)
Definition ordering {A} (cmp : A -> A -> comparison) : Prop :=
  (forall a b, cmp b a = CompOpp (cmp a b))
  /\ (forall a b c, cmp a b = Lt -> cmp b c = Lt -> cmp a c = Lt)
  /\ (forall a b c, cmp a b = Eq -> cmp a c = cmp b c).

(** ** The categorize proxy

    The body [POST /api/categorize] forwards: the one allowed model and
    at most 4000 tokens.  [Number(x) || 2000] is [x || 2000] on a number,
    [null] or [undefined]. *)
Definition allowedModel : string := "claude-sonnet-4-20250514".

Definition forwarded_model (model : Field string) : string :=
  match model with
  | Val m => if String.eqb m allowedModel then m else allowedModel
  | _ => allowedModel
  end.

Definition forwarded_max_tokens (max_tokens : Field Z) : Z :=
  Z.min (or_else max_tokens 2000) 4000.

Definition categorize_body (model : Field string) (max_tokens : Field Z)
  (messages : option Json) : Json :=
  JObj ([ ("model", JStr (forwarded_model model));
          ("max_tokens", JNum (forwarded_max_tokens max_tokens)) ]
        ++ match messages with
           | Some m => [("messages", m)]
           | None => []
           end).

(** ** Renaming a custom category *)

Definition set_category (name : string) (r : Row.t) : Row.t :=
  Row.mk (Row.id r) (Row.text r) (Row.completed r) (Row.created_at r)
         (Row.type r) name (Row.priority r) (Row.due_date r)
         (Row.notes r) (Row.sort_order r) (Row.user_id r).

(** The rows [WHERE category = $2 AND user_id = $3] selects. *)
Definition filed_under (oldName userId : string) (r : Row.t) : bool :=
  String.eqb (Row.category r) oldName && owned_by userId r.

(** [UPDATE items SET category = $1 WHERE category = $2 AND user_id = $3] *)
Definition sql_recategorize (nameVal oldName userId : string) (tbl : Table)
  : option (unit * Table) :=
  Some (tt, map (fun r => if filed_under oldName userId r
                          then set_category nameVal r else r) tbl).

Section Categories.

(** [String.prototype.trim] *)
Variable trim : string -> string.

(** [newName != null && String(newName).trim() !== ''
     && String(newName).trim() !== oldName] *)
Definition renames (oldName : string) (newName : Field string) : bool :=
  match newName with
  | Val s => negb (String.eqb (trim s) "")
             && negb (String.eqb (trim s) oldName)
  | _ => false
  end.

(** [newEmoji !== undefined] *)
Definition given {A} (v : Field A) : bool :=
  match v with
  | Undefined => false
  | _ => true
  end.

(** [app.put('/api/custom-categories/:name', ...)] of the pg server, as
    far as [items] goes: [oldName] is the decoded path segment; the
    statements on [custom_categories] and [learning_data] leave [items]
    alone. *)
Definition put_custom_category (userId oldName : string)
  (newName newEmoji : Field string) : Js Response :=
  try_catch
    (if negb (renames oldName newName) && negb (given newEmoji)
     then ret (json success)
     else
       query sql_elsewhere ;;
       (if renames oldName newName then
          query (sql_recategorize (trim (nullish newName "")) oldName userId)
          ;; query sql_elsewhere
        else ret tt) ;;
       ret (json success))
    (ret (fail 500 "Failed to update custom category")).

End Categories.

(** Trimming the blanks of ASCII, for the examples. *)
Definition is_blank (a : ascii) : bool :=
  let n := nat_of_ascii a in
  Nat.eqb n 32 || (Nat.leb 9 n && Nat.leb n 13).

Fixpoint trim_start (s : string) : string :=
  match s with
  | String a rest => if is_blank a then trim_start rest else s
  | EmptyString => EmptyString
  end.

Fixpoint trim_end (s : string) : string :=
  match s with
  | String a rest =>
      match trim_end rest with
      | EmptyString => if is_blank a then EmptyString else String a EmptyString
      | kept => String a kept
      end
  | EmptyString => EmptyString
  end.

Definition ascii_trim (s : string) : string := trim_end (trim_start s).

(* ===================================================================== *)
(** * 10. The loop of statements                                          *)
(* ===================================================================== *)

Lemma set_current_current c wk fs :
  set_current (current (mkWorld c wk fs)) (mkWorld c wk fs) = mkWorld c wk fs.
Proof. destruct wk; reflexivity. Qed.

(** A loop of queries runs its statements in order up to the first one
    refused. *)
Lemma for_each_query {A B} (f : A -> Table -> option (B * Table)) xs :
  forall c wk fs,
    for_each (fun x => query (f x)) xs (mkWorld c wk fs) =
    let '(r, t, fs') := run f xs fs (current (mkWorld c wk fs)) in
    (set_current t (mkWorld c wk fs'), r).
Proof.
  induction xs as [|x rest IH]; intros c wk fs.
  - destruct wk; reflexivity.
  - cbn [for_each run]. unfold bind at 1, query at 1. cbn [faults hd].
    destruct (hd false fs) eqn:Hflag; [destruct wk; reflexivity|].
    destruct wk as [t|]; cbn [current working committed].
    + destruct (f x t) as [[b t1]|] eqn:Hf; [|reflexivity].
      cbn [set_current working committed faults].
      unfold bind at 1. rewrite IH. cbn [current working committed].
      destruct (run f rest (tl fs) t1) as [[r t2] fs2].
      destruct r; reflexivity.
    + destruct (f x c) as [[b t1]|] eqn:Hf; [|reflexivity].
      cbn [set_current working committed faults].
      unfold bind at 1. rewrite IH. cbn [current working committed].
      destruct (run f rest (tl fs) t1) as [[r t2] fs2].
      destruct r; reflexivity.
Qed.

Lemma for_each_ret {A B C} (m : A -> Js B) (h : B -> C) xs :
  forall w,
    for_each (fun x => y <- m x ;; ret (h y)) xs w =
    (ys <- for_each m xs ;; ret (map h ys)) w.
Proof.
  induction xs as [|x rest IH]; intros w; [reflexivity|].
  cbn [for_each]. unfold bind, ret in *.
  destruct (m x w) as [w1 [y|]]; [|reflexivity].
  rewrite IH.
  destruct (for_each m rest w1) as [w2 [ys|]]; reflexivity.
Qed.

Section Handlers.

Variable date_in : string -> option JsDate.
Variable timestamptz_in : string -> option JsDate.

(** The bulk update on a fresh client: all statements and a commit, or
    a rollback to the table the handler found. *)
Lemma put_items_js userId items c fs :
  put_items date_in userId items (mkWorld c None fs) =
  match run (update_stmt date_in userId) items fs c with
  | (Some _, t, fs') => (mkWorld t None fs', Some (json success))
  | (None, _, fs') =>
      (mkWorld c None fs', Some (fail 500 "Failed to update items"))
  end.
Proof.
  unfold put_items, try_catch.
  unfold bind at 1. unfold BEGIN at 1. cbn [current working committed faults].
  unfold bind at 1.
  change (for_each _ items)
    with (for_each (fun x => query (update_stmt date_in userId x)) items).
  rewrite for_each_query. cbn [current working committed].
  destruct (run (update_stmt date_in userId) items fs c) as [[r t] fs'].
  destruct r; reflexivity.
Qed.

Lemma drizzle_put_items_js items c fs :
  drizzle_put_items date_in items (mkWorld c None fs) =
  match run (drizzle_update_stmt date_in) items fs c with
  | (Some _, t, fs') => (mkWorld t None fs', Some (json success))
  | (None, t, fs') =>
      (mkWorld t None fs', Some (fail 500 "Failed to update items"))
  end.
Proof.
  unfold drizzle_put_items, try_catch.
  unfold bind at 1.
  change (for_each _ items)
    with (for_each (fun x => query (drizzle_update_stmt date_in x)) items).
  rewrite for_each_query. cbn [current working committed].
  destruct (run (drizzle_update_stmt date_in) items fs c) as [[r t] fs'].
  destruct r; reflexivity.
Qed.

Lemma post_items_js userId now b c fs :
  post_items date_in timestamptz_in userId now b (mkWorld c None fs) =
  match run (insert_stmt date_in timestamptz_in userId now) (items_of b) fs c
  with
  | (Some results, t, fs') =>
      (mkWorld t None fs',
       Some (json (JArr (map (json_opt row_json) (map (@first _) results)))))
  | (None, _, fs') =>
      (mkWorld c None fs', Some (fail 500 "Failed to create items"))
  end.
Proof.
  unfold post_items, try_catch.
  unfold bind at 1. unfold BEGIN at 1. cbn [current working committed faults].
  unfold bind at 1.
  change (for_each _ (items_of b))
    with (for_each
            (fun x => rows <- query (insert_stmt date_in timestamptz_in
                                       userId now x) ;; ret (first rows))
            (items_of b)).
  rewrite for_each_ret. unfold bind at 1.
  rewrite for_each_query. cbn [current working committed].
  destruct (run _ (items_of b) fs c) as [[r t] fs'].
  destruct r; reflexivity.
Qed.

End Handlers.

(** The migration middleware leaves no transaction open, always answers,
    and either leaves the table alone or hands the ownerless rows to the
    caller. *)
Lemma claim_unclaimed_js claimed userId c fs :
  exists found fs1 flag,
    claim_unclaimed claimed userId (mkWorld c None fs)
    = (mkWorld found None fs1, Some flag)
    /\ (if claimed then found = c
        else found = c \/ found = map (claim userId) c).
Proof.
  destruct claimed.
  - exists c, fs, true. split; reflexivity.
  - unfold claim_unclaimed, try_catch, bind, query, ret, sql_count_unclaimed,
      sql_claim, sql_elsewhere.
    cbn [faults current working committed set_current].
    destruct (hd false fs).
    { do 3 eexists. split; [reflexivity|now left]. }
    cbn [faults current working committed set_current].
    destruct (0 <? Z.of_nat (Datatypes.length (filter unclaimed c))).
    2:{ do 3 eexists. split; [reflexivity|now left]. }
    cbn [faults current working committed set_current].
    destruct (hd false (tl fs)).
    { do 3 eexists. split; [reflexivity|now left]. }
    cbn [faults current working committed set_current].
    destruct (hd false (tl (tl fs))).
    { do 3 eexists. split; [reflexivity|now right]. }
    cbn [faults current working committed set_current].
    destruct (hd false (tl (tl (tl fs)))).
    { do 3 eexists. split; [reflexivity|now right]. }
    do 3 eexists. split; [reflexivity|now right].
Qed.

Section Create.

Variable date_in : string -> option JsDate.
Variable timestamptz_in : string -> option JsDate.

Lemma run_insert userId now items :
  forall fs c results t fs',
    run (insert_stmt date_in timestamptz_in userId now) items fs c
    = (Some results, t, fs') ->
    t = c ++ List.concat results
    /\ Forall2 (fun item rows =>
                  exists row, rows = [row]
                    /\ new_row date_in timestamptz_in now
                         (insert_params userId now item) = Some row)
               items results.
Proof.
  induction items as [|item rest IH]; intros fs c results t fs' H;
    cbn [run] in H.
  - inversion H; subst. cbn. rewrite app_nil_r. split; constructor.
  - destruct (hd false fs); [discriminate|].
    unfold insert_stmt at 1, sql_insert in H.
    destruct (new_row date_in timestamptz_in now
                (insert_params userId now item)) as [row|] eqn:Hrow;
      [|discriminate].
    destruct (existsb _ c); [discriminate|].
    destruct (run _ rest (tl fs) (c ++ [row])) as [[r t2] fs2] eqn:Hrest.
    destruct r as [rs|]; [|discriminate].
    inversion H; subst. apply IH in Hrest as [-> Hall].
    split.
    + cbn. now rewrite <- app_assoc.
    + constructor; [eauto|assumption].
Qed.


End Create.

(* ===================================================================== *)
(** * 11. Updating one item                                               *)
(* ===================================================================== *)

Section SingleUpdate.
Variable date_in : string -> option JsDate.
Variable timestamptz_in : string -> option JsDate.

Lemma existsb_filter_nil {A} (p : A -> bool) l :
  existsb p l = false <-> filter p l = [].
Proof.
  induction l as [|x l IH]; cbn; [tauto|].
  destruct (p x); cbn; [split; discriminate|exact IH].
Qed.

Lemma assign_replaces item due row :
  violates_not_null (update_params item) = false ->
  read date_in (or_null (Req.dueDate item)) = Some due ->
  fully_replaced date_in item (assign (update_params item) due row).
Proof.
  intros Hnn Hdue. unfold fully_replaced. rewrite Hdue.
  unfold violates_not_null, update_params in Hnn. cbn in Hnn.
  assert (Hstored : stored due (Row.due_date row) = stored due None).
  { unfold or_null, read, truthy in Hdue.
    destruct (Req.dueDate item) as [| |s];
      try (inversion Hdue; reflexivity).
    destruct (negb (falsy s)); [destruct (date_in s)|];
      inversion Hdue; reflexivity. }
  destruct item as [i t c cr ty ca pr du no o]; cbn in *.
  destruct t, ty, ca, pr; cbn in Hnn; try discriminate; cbn;
    rewrite Hstored; destruct c; repeat split; reflexivity.
Qed.

(** The two single-item updates share their shape; [cond] is the WHERE
    clause. *)
Lemma single_update_outcomes (cond : Row.t -> bool) miss id item fs tbl :
  serve
    (try_catch
       (rows <- query (fun t =>
                  match id with
                  | Val _ => sql_update date_in (update_params item) cond t
                  | _ => None
                  end) ;;
        match rows with
        | [] => ret (fail 404 miss)
        | row :: _ => ret (json (row_json row))
        end)
       (ret (fail 500 "Failed to update item"))) fs tbl
  = if update_refused date_in cond id item fs tbl
    then (Some (fail 500 "Failed to update item"), tbl)
    else match read date_in (or_null (Req.dueDate item)),
               filter cond tbl with
         | Some due, row :: _ =>
             (Some (json (row_json (assign (update_params item) due row))),
              map (fun r => if cond r
                            then assign (update_params item) due r else r)
                  tbl)
         | _, _ => (Some (fail 404 miss), tbl)
         end.
Proof.
  unfold serve, try_catch, bind, query, update_refused, sql_update.
  cbn [faults current working committed set_current].
  destruct (hd false fs); [reflexivity|]. cbn [orb].
  destruct id as [| |n]; cbn [is_val negb orb]; try reflexivity.
  change (Cols.due_date (update_params item))
    with (or_null (Req.dueDate item)).
  destruct (read date_in (or_null (Req.dueDate item))) as [due|];
    [|reflexivity].
  cbn [is_none orb].
  destruct (existsb cond tbl) eqn:Hex; cbn [andb].
  - destruct (violates_not_null (update_params item)); [reflexivity|].
    destruct (filter cond tbl) as [|row rest] eqn:Hf.
    + apply existsb_filter_nil in Hf. congruence.
    + reflexivity.
  - apply existsb_filter_nil in Hex. rewrite Hex. reflexivity.
Qed.

(** C2 (amended): [PUT /api/items/:id] has three outcomes.  When the
    UPDATE is refused the answer is a 500 error and the handler leaves
    the table as it found it.  Otherwise the answer is 404 exactly when no row of that
    id belongs to the caller, and when one does its mutable fields are
    those of the request ([dueDate], [notes] and [order] after their
    [||]), every other row and column is unchanged, and the stored row is
    returned. *)
Theorem put_item_outcomes userId id item fs tbl :
  let outcome := serve (put_item date_in userId id item) fs tbl in
  if update_refused date_in (mine userId id) id item fs tbl
  then outcome = (Some (fail 500 "Failed to update item"), tbl)
  else if existsb (mine userId id) tbl
       then exists row tbl',
           outcome = (Some (json (row_json row)), tbl')
           /\ In row tbl' /\ mine userId id row = true
           /\ fully_replaced date_in item row
           /\ Forall2 (fun old new =>
                         if mine userId id old
                         then fully_replaced date_in item new
                              /\ Row.id new = Row.id old
                              /\ Row.created_at new = Row.created_at old
                              /\ Row.user_id new = Row.user_id old
                         else new = old) tbl tbl'
       else outcome = (Some (fail 404 "Item not found"), tbl).
Proof.
  cbv zeta. unfold put_item.
  change (fun r => id_is id r && owned_by userId r) with (mine userId id).
  rewrite single_update_outcomes.
  destruct (update_refused date_in (mine userId id) id item fs tbl) eqn:Href;
    [reflexivity|].
  unfold update_refused in Href.
  apply orb_false_iff in Href as [Href Hnn].
  apply orb_false_iff in Href as [Href Hdue].
  change (Cols.due_date (update_params item))
    with (or_null (Req.dueDate item)) in Hdue.
  destruct (read date_in (or_null (Req.dueDate item))) as [due|] eqn:Hread;
    [|discriminate].
  destruct (existsb (mine userId id) tbl) eqn:Hex.
  - cbn [andb] in Hnn.
    destruct (filter (mine userId id) tbl) as [|row rest] eqn:Hf.
    { apply existsb_filter_nil in Hf. congruence. }
    assert (Hin : In row (filter (mine userId id) tbl))
      by (rewrite Hf; now left).
    apply filter_In in Hin as [Hin Hmine].
    eexists _, _. split; [reflexivity|].
    split; [|split; [|split]].
    + apply in_map_iff. exists row. now rewrite Hmine.
    + unfold mine in *. destruct row; exact Hmine.
    + now apply assign_replaces.
    + clear - Hnn Hread. induction tbl as [|r t IH]; cbn; constructor; auto.
      destruct (mine userId id r); [|reflexivity].
      split; [now apply assign_replaces|]. now destruct r.
  - apply existsb_filter_nil in Hex. rewrite Hex. reflexivity.
Qed.

End SingleUpdate.

(* ===================================================================== *)
(** * 12. Bulk update, validation, and the two servers                    *)
(* ===================================================================== *)

Section Bulk.
Variable date_in : string -> option JsDate.
Variable timestamptz_in : string -> option JsDate.

(** C9 (amended): the per-item UPDATE statements of the bulk update run
    in one transaction.  If one of them is refused the transaction is
    rolled back, the table is left exactly as the handler found it and
    the answer is a 500 error; otherwise all updates are committed
    together and the answer reports success.  The table the handler
    finds is the table before the request once the migration middleware
    has done its work; before that it may be that table with the
    ownerless rows handed to the caller. *)
Theorem put_items_transaction unclaimedDataClaimed userId items fs tbl :
  exists found fs1 flag,
    claim_unclaimed unclaimedDataClaimed userId (mkWorld tbl None fs)
    = (mkWorld found None fs1, Some flag)
    /\ (if unclaimedDataClaimed then found = tbl
        else found = tbl \/ found = map (claim userId) tbl)
    /\ serve_app (api unclaimedDataClaimed userId
                    (put_items date_in userId items)) fs tbl
       = match run (update_stmt date_in userId) items fs1 found with
         | (Some _, updated, _) => (Some (flag, json success), updated)
         | (None, _, _) =>
             (Some (flag, fail 500 "Failed to update items"), found)
         end.
Proof.
  destruct (claim_unclaimed_js unclaimedDataClaimed userId tbl fs)
    as (found & fs1 & flag & Hmw & Hfound).
  exists found, fs1, flag. split; [exact Hmw|]. split; [exact Hfound|].
  unfold serve_app, api. unfold bind at 1. rewrite Hmw.
  unfold bind at 1. rewrite put_items_js.
  destruct (run (update_stmt date_in userId) items fs1 found)
    as [[r t] fs'].
  destruct r; reflexivity.
Qed.

(** C6 (amended): a request whose body fails the schema of its endpoint
    is answered 400 with the validation details, and the route handler
    is never reached: whatever handler stands behind the validation, no
    statement of it runs, and the server is left exactly as the
    migration middleware, which runs before the route, left it. *)
Theorem validation_rejects_before_handler
  (parse : Schema -> option Json -> Parsed) (message : Issue -> string)
  unclaimedDataClaimed userId e reqBody issues
  (next : option Json -> Js Response) fs tbl :
  parse (schema_of e) reqBody = Invalid issues ->
  exists found fs1 flag,
    claim_unclaimed unclaimedDataClaimed userId (mkWorld tbl None fs)
    = (mkWorld found None fs1, Some flag)
    /\ (if unclaimedDataClaimed then found = tbl
        else found = tbl \/ found = map (claim userId) tbl)
    /\ api unclaimedDataClaimed userId
         (validate parse message (schema_of e) reqBody next)
         (mkWorld tbl None fs)
       = (mkWorld found None fs1,
          Some (flag, validation_failed message issues)).
Proof.
  intros Hparse.
  destruct (claim_unclaimed_js unclaimedDataClaimed userId tbl fs)
    as (found & fs1 & flag & Hmw & Hfound).
  exists found, fs1, flag. split; [exact Hmw|]. split; [exact Hfound|].
  unfold api. unfold bind at 1. rewrite Hmw.
  unfold validate. rewrite Hparse. reflexivity.
Qed.

(** Both UPDATE statements keep the owner of every row. *)
Lemma sql_update_owned userId c cond t rows t' :
  Forall (fun r => owned_by userId r = true) t ->
  sql_update date_in c cond t = Some (rows, t') ->
  Forall (fun r => owned_by userId r = true) t'.
Proof.
  intros Hown H. unfold sql_update in H.
  destruct (read date_in (Cols.due_date c)) as [due|]; [|discriminate].
  destruct (existsb cond t); [|now inversion H; subst].
  destruct (violates_not_null c); [discriminate|].
  inversion H; subst. clear H.
  induction Hown as [|r t Hr _ IH]; cbn; constructor; [|exact IH].
  destruct (cond r); [|exact Hr]. destruct r; exact Hr.
Qed.

Lemma or_else_nullish (v : Field Z) : or_else v 0 = nullish v 0.
Proof.
  destruct v as [| |n]; try reflexivity. cbn.
  unfold falsy, Falsy_Z. destruct (Z.eqb_spec n 0); congruence.
Qed.

Lemma param_defined {A} (v : Field A) : v <> Undefined -> param v = v.
Proof. destruct v; [congruence|reflexivity|reflexivity]. Qed.

Lemma complete_params item :
  complete item -> update_params item = drizzle_set item.
Proof.
  intros (Ht & Hc & Hty & Hca & Hpr). unfold update_params, drizzle_set.
  rewrite !param_defined by assumption. now rewrite or_else_nullish.
Qed.

(** On a table of the caller's rows the two WHERE clauses select the
    same rows. *)
Lemma statements_agree userId item t :
  Forall (fun r => owned_by userId r = true) t ->
  complete item ->
  update_stmt date_in userId item t = drizzle_update_stmt date_in item t.
Proof.
  intros Hown Hc. unfold update_stmt, drizzle_update_stmt, sql_update.
  rewrite (complete_params Hc).
  destruct (read date_in (Cols.due_date (drizzle_set item))) as [due|];
    [|reflexivity].
  assert (Hex : existsb (fun r => id_is (Req.id item) r && owned_by userId r) t
                = existsb (id_is (Req.id item)) t).
  { clear - Hown. induction Hown as [|r t Hr _ IH]; cbn [existsb]; [reflexivity|].
    rewrite Hr, andb_true_r, IH. reflexivity. }
  assert (Hfi : filter (fun r => id_is (Req.id item) r && owned_by userId r) t
                = filter (id_is (Req.id item)) t).
  { clear - Hown. induction Hown as [|r t Hr _ IH]; cbn [filter]; [reflexivity|].
    rewrite Hr, andb_true_r, IH. reflexivity. }
  assert (Hmap :
    map (fun r => if id_is (Req.id item) r && owned_by userId r
                  then assign (drizzle_set item) due r else r) t
    = map (fun r => if id_is (Req.id item) r
                    then assign (drizzle_set item) due r else r) t).
  { clear - Hown. induction Hown as [|r t Hr _ IH]; cbn [map]; [reflexivity|].
    rewrite Hr, andb_true_r, IH. reflexivity. }
  now rewrite Hex, Hfi, Hmap.
Qed.

Lemma run_agree userId items :
  forall fs t,
    Forall (fun r => owned_by userId r = true) t ->
    Forall complete items ->
    run (update_stmt date_in userId) items fs t
    = run (drizzle_update_stmt date_in) items fs t.
Proof.
  induction items as [|item rest IH]; intros fs t Hown Hall; [reflexivity|].
  cbn [run]. inversion Hall as [|? ? Hc Hrest]; subst.
  rewrite (@statements_agree userId item t Hown Hc).
  destruct (hd false fs); [reflexivity|].
  destruct (drizzle_update_stmt date_in item t) as [[rows t1]|] eqn:Hs;
    [|reflexivity].
  rewrite IH; [reflexivity| |assumption].
  unfold drizzle_update_stmt in Hs. eapply sql_update_owned; eauto.
Qed.

(** C5 (amended): on a table whose rows all belong to the caller and a
    body of full replacements, the bulk updates of the pg server and of
    the drizzle server agree as long as no statement is refused: same
    table, same success response.  When a statement is refused both
    answer the same 500 error, but the pg server restores the table it
    found while the drizzle server keeps the updates made before the
    refusal. *)
Theorem bulk_variants_agree userId items fs tbl :
  Forall (fun r => owned_by userId r = true) tbl ->
  Forall complete items ->
  match run (update_stmt date_in userId) items fs tbl with
  | (Some _, updated, _) =>
      serve (put_items date_in userId items) fs tbl
      = (Some (json success), updated)
      /\ serve (drizzle_put_items date_in items) fs tbl
         = (Some (json success), updated)
  | (None, reached, _) =>
      serve (put_items date_in userId items) fs tbl
      = (Some (fail 500 "Failed to update items"), tbl)
      /\ serve (drizzle_put_items date_in items) fs tbl
         = (Some (fail 500 "Failed to update items"), reached)
  end.
Proof.
  intros Hown Hall. unfold serve.
  rewrite put_items_js, drizzle_put_items_js.
  rewrite <- (@run_agree userId items fs tbl Hown Hall).
  destruct (run (update_stmt date_in userId) items fs tbl) as [[r t] fs'].
  destruct r; split; reflexivity.
Qed.

End Bulk.

(* ===================================================================== *)
(** * 13. Defaults of created items                                       *)
(* ===================================================================== *)

Section Defaults.
Variable date_in : string -> option JsDate.
Variable timestamptz_in : string -> option JsDate.

Lemma or_else_default {A} `{Falsy A} (v : Field A) (d : A) :
  truthy v = false -> or_else v d = d.
Proof.
  destruct v as [| |x]; cbn; try reflexivity.
  now destruct (falsy x).
Qed.

Lemma or_null_default {A} `{Falsy A} (v : Field A) :
  truthy v = false -> or_null v = Null.
Proof. unfold or_null. now intros ->. Qed.



Lemma stored_defaults (c : Cols.t) now item row :
  new_row date_in timestamptz_in now c = Some row ->
  Cols.completed c = Val (or_else (Req.completed item) false) ->
  Cols.type c = Val (or_else (Req.type item) "task") ->
  Cols.category c = Val (or_else (Req.category item) "personal") ->
  Cols.priority c = Val (or_else (Req.priority item) "medium") ->
  Cols.due_date c = or_null (Req.dueDate item) ->
  Cols.notes c = Val (or_else (Req.notes item) "") ->
  Cols.sort_order c = Val (or_else (Req.order item) 0) ->
  defaults_hold item row.
Proof.
  intros H Hco Hty Hca Hpr Hdu Hno Hso. unfold new_row in H.
  rewrite Hco, Hty, Hca, Hpr, Hdu, Hno, Hso in H. cbn [stored] in H.
  repeat match type of H with
         | match ?x with _ => _ end = _ =>
             let E := fresh "E" in destruct x eqn:E; try discriminate
         end.
  inversion H; subst; clear H. unfold defaults_hold.
  cbn [Row.completed Row.type Row.category Row.priority Row.due_date
       Row.notes Row.sort_order].
  repeat split; intros Hf; rewrite ?(or_else_default _ _ Hf);
    try reflexivity.
  match goal with
  | E : read date_in (or_null _) = Some _ |- _ =>
      rewrite (or_null_default _ Hf) in E; cbn in E;
      inversion E; reflexivity
  end.
Qed.

(** The row either INSERT makes of an item takes the fixed default for
    every optional field the item leaves out or gives a falsy value. *)
Lemma new_row_defaults userId now item row :
  (new_row date_in timestamptz_in now (insert_params userId now item)
   = Some row ->
   defaults_hold item row
   /\ (truthy (Req.createdAt item) = false ->
       Row.created_at row = timestamptz_in (toISOString now)))
  /\ (new_row date_in timestamptz_in now (drizzle_values item) = Some row ->
      defaults_hold item row
      /\ (truthy (Req.createdAt item) = false ->
          Row.created_at row = Some now)).
Proof.
  split; intros H; split.
  - eapply stored_defaults; eauto.
  - intros Hc. unfold new_row in H.
    cbn [insert_params Cols.created_at] in H.
    rewrite (or_else_default _ _ Hc) in H. cbn [read] in H.
    destruct (timestamptz_in (toISOString now)) as [created|];
      repeat match type of H with
             | match ?x with _ => _ end = _ =>
                 destruct x; try discriminate
             end;
      inversion H; reflexivity.
  - eapply stored_defaults; eauto.
    cbn [drizzle_values Cols.sort_order]. now rewrite or_else_nullish.
  - intros Hc. unfold new_row in H.
    cbn [drizzle_values Cols.created_at] in H. rewrite Hc in H.
    cbn [read] in H.
    repeat match type of H with
           | match ?x with _ => _ end = _ =>
               destruct x; try discriminate
           end;
      inversion H; reflexivity.
Qed.

End Defaults.

(* ===================================================================== *)
(** * 14. Records on the wire                                             *)
(* ===================================================================== *)

(** ** Dates on the wire *)

Lemma digit_cases n :
  In (digit n) ["0"; "1"; "2"; "3"; "4"; "5"; "6"; "7"; "8"; "9"]%char.
Proof.
  unfold digit.
  assert (H : 0 <= n mod 10 < 10) by (apply Z.mod_pos_bound; lia).
  assert (Hk : exists k, (k < 10)%nat /\ Z.to_nat (n mod 10) = k)
    by (exists (Z.to_nat (n mod 10)); split; [lia|reflexivity]).
  destruct Hk as (k & Hlt & ->).
  do 10 (destruct k as [|k]; [cbn; tauto|]). lia.
Qed.

Lemma is_digit_digit n : is_digit (digit n) = true.
Proof.
  pose proof (digit_cases n) as H. unfold In in H.
  repeat (destruct H as [<-|H]; [reflexivity|]). contradiction.
Qed.

Lemma digit_not_T n : Ascii.eqb (digit n) "T" = false.
Proof.
  pose proof (digit_cases n) as H. unfold In in H.
  repeat (destruct H as [<-|H]; [reflexivity|]). contradiction.
Qed.

(** The date part of an ISO rendering is [YYYY-MM-DD] for the years that
    take four digits. *)
Lemma date_part_is_ymd d :
  0 <= year d <= 9999 ->
  is_ymd (split_head "T" (toISOString d)) = true.
Proof.
  intros Hy. unfold toISOString, iso_year.
  replace ((0 <=? year d) && (year d <=? 9999)) with true
    by (symmetry; apply andb_true_iff; split; apply Z.leb_le; lia).
  unfold pad4, pad3, pad2.
  cbn [append split_head].
  repeat match goal with
         | |- context [Ascii.eqb (digit ?a) _] => rewrite (digit_not_T a)
         end.
  change (Ascii.eqb "-" "T") with false. change (Ascii.eqb "T" "T") with true.
  cbn iota. unfold is_ymd. cbn [list_ascii_of_string].
  repeat match goal with
         | |- context [is_digit (digit ?a)] => rewrite (is_digit_digit a)
         end.
  reflexivity.
Qed.

Lemma in_insert_sorted r x rows :
  In x (insert_sorted r rows) -> x = r \/ In x rows.
Proof.
  induction rows as [|y rest IH]; cbn [insert_sorted In].
  - intros [->|[]]. now left.
  - destruct (compare_rows r y); cbn [In].
    + intros [->|[->|H]]; auto.
    + intros [->|[->|H]]; auto.
    + intros [->|H]; [auto|]. apply IH in H as [->|H]; auto.
Qed.

Lemma in_order_by x rows : In x (order_by rows) -> In x rows.
Proof.
  induction rows as [|r rest IH]; cbn [order_by fold_right In]; [tauto|].
  intros H. apply in_insert_sorted in H as [->|H]; [now left|right; auto].
Qed.

Lemma row_json_keys r : keys (row_json r) = columns.
Proof. reflexivity. Qed.

Lemma columns_not_item_fields : columns <> item_fields.
Proof. discriminate. Qed.

(** A record built by [GET /api/items] has the fields of the data model. *)
Lemma item_of_row_record zone row rec :
  (forall d, Row.due_date row = Some d ->
             0 <= year (local_midnight zone d) <= 9999) ->
  item_of_row zone row = Some rec ->
  is_item_record rec.
Proof.
  intros Hy H. unfold item_of_row, due_of_row, iso in H.
  destruct (Row.created_at row) as [created|]; [|discriminate].
  destruct (js_valid created); [|discriminate].
  destruct (Row.due_date row) as [d|].
  - destruct (js_valid (local_midnight zone d)); [|discriminate].
    inversion H; subst; clear H. split; [reflexivity|].
    right. eexists. split; [reflexivity|]. apply date_part_is_ymd.
    now apply Hy.
  - inversion H; subst; clear H. split; [reflexivity|]. now left.
Qed.

Lemma for_each_lift {A B} (g : A -> option B) xs :
  forall w ys,
    snd (for_each (fun x => lift (g x)) xs w) = Some ys ->
    Forall2 (fun x y => g x = Some y) xs ys.
Proof.
  induction xs as [|x rest IH]; intros w ys H; cbn in H.
  - inversion H. constructor.
  - unfold bind at 1 in H. unfold lift at 1 in H.
    destruct (g x) as [y|] eqn:Hg; cbn in H; [|discriminate].
    unfold bind at 1 in H.
    destruct (for_each (fun x => lift (g x)) rest w) as [w' [ys'|]] eqn:Hr;
      cbn in H; [|discriminate].
    inversion H; subst. constructor; [assumption|].
    apply (IH w). now rewrite Hr.
Qed.

(** Every record of a successful [GET /api/items] is an item record. *)
Lemma get_items_records zone userId fs tbl res tbl' :
  Forall (fun row => forall d, Row.due_date row = Some d ->
                               0 <= year (local_midnight zone d) <= 9999)
    tbl ->
  serve (get_items zone userId) fs tbl = (Some res, tbl') ->
  status res = 200 ->
  exists recs, body res = JArr recs /\ Forall is_item_record recs.
Proof.
  intros Hy H Hs. unfold serve, get_items, try_catch in H.
  unfold bind at 1 in H. unfold query at 1, sql_select in H.
  cbn [faults current working committed set_current] in H.
  destruct (hd false fs).
  { inversion H; subst. discriminate. }
  cbn [set_current working] in H. unfold bind at 1 in H.
  destruct (for_each _ (order_by (filter (owned_by userId) tbl)) _)
    as [w [recs|]] eqn:Hloop.
  2:{ inversion H; subst. discriminate. }
  inversion H; subst. exists recs. split; [reflexivity|].
  assert (Hall : Forall2 (fun row rec => item_of_row zone row = Some rec)
                   (order_by (filter (owned_by userId) tbl)) recs).
  { eapply for_each_lift. rewrite Hloop. reflexivity. }
  assert (Hrows : Forall (fun row => forall d, Row.due_date row = Some d ->
                                   0 <= year (local_midnight zone d) <= 9999)
                    (order_by (filter (owned_by userId) tbl))).
  { apply Forall_forall. intros row Hin. apply in_order_by in Hin.
    apply filter_In in Hin as [Hin _].
    rewrite Forall_forall in Hy. now apply Hy. }
  clear - Hall Hrows. induction Hall as [|row rec rows recs Hrec _ IH];
    constructor.
  - inversion Hrows; subst. eapply item_of_row_record; eauto.
  - inversion Hrows; subst. auto.
Qed.

(* ===================================================================== *)
(** * 15. The client engine                                               *)
(* ===================================================================== *)

Module EngineFacts.
Import Engine.

Lemma lex_eq c1 c2 : lex c1 c2 = Eq -> c1 = Eq /\ c2 = Eq.
Proof. destruct c1; cbn; intros H; try discriminate; auto. Qed.

Lemma compare_eq a b : compare a b = Eq -> a = b.
Proof.
  unfold compare. intros H.
  apply lex_eq in H as [Hy H]. apply lex_eq in H as [Hm Hd].
  apply Z.compare_eq in Hy, Hm, Hd. destruct a, b; cbn in *; congruence.
Qed.

Lemma compare_refl a : compare a a = Eq.
Proof. unfold compare. now rewrite !Z.compare_refl. Qed.

Lemma compare_lt_iff a b :
  compare a b = Lt <->
  dyear a < dyear b
  \/ (dyear a = dyear b
      /\ (dmonth a < dmonth b \/ (dmonth a = dmonth b /\ dday a < dday b))).
Proof.
  unfold compare, lex.
  destruct (Z.compare_spec (dyear a) (dyear b));
    destruct (Z.compare_spec (dmonth a) (dmonth b));
    destruct (Z.compare_spec (dday a) (dday b));
    split; intros; try discriminate; try reflexivity; lia.
Qed.

Lemma compare_gt_lt a b : compare a b = Gt -> compare b a = Lt.
Proof.
  intros H. apply compare_lt_iff. revert H. unfold compare, lex.
  destruct (Z.compare_spec (dyear a) (dyear b));
    destruct (Z.compare_spec (dmonth a) (dmonth b));
    destruct (Z.compare_spec (dday a) (dday b));
    intros; try discriminate; lia.
Qed.

Lemma before_trans a b c : before a b -> before b c -> before a c.
Proof. unfold before. rewrite !compare_lt_iff. lia. Qed.

Lemma date_eqb_eq a b : date_eqb a b = true <-> a = b.
Proof.
  unfold date_eqb. split.
  - destruct (compare a b) eqn:H; try discriminate.
    intros _. now apply compare_eq.
  - intros ->. now rewrite compare_refl.
Qed.

Lemma key_eqb_eq a b : key_eqb a b = true <-> a = b.
Proof.
  destruct a, b; cbn; try (split; [discriminate|congruence]);
    try tauto.
  rewrite date_eqb_eq. split; congruence.
Qed.

(** *** Sorting the dates *)

Lemma in_insert_date x d l : In x (insert_date d l) <-> x = d \/ In x l.
Proof.
  induction l as [|y rest IH]; cbn [insert_date In];
    [intuition congruence|].
  destruct (compare d y) eqn:Hc; cbn [In].
  - apply compare_eq in Hc. subst. intuition congruence.
  - intuition congruence.
  - rewrite IH. intuition congruence.
Qed.

Lemma insert_date_sorted d l :
  StronglySorted before l -> StronglySorted before (insert_date d l).
Proof.
  induction 1 as [|y rest Hs IH Hall]; cbn [insert_date].
  - repeat constructor.
  - destruct (compare d y) eqn:Hc.
    + now constructor.
    + constructor; [now constructor|].
      constructor; [exact Hc|].
      eapply Forall_impl; [|exact Hall].
      intros z Hz. eapply before_trans; eauto.
    + constructor; [exact IH|].
      apply Forall_forall. intros z Hz.
      apply in_insert_date in Hz as [->|Hz].
      * now apply compare_gt_lt.
      * rewrite Forall_forall in Hall. now apply Hall.
Qed.

Lemma dates_of_sorted today l : StronglySorted before (dates_of today l).
Proof.
  unfold dates_of.
  induction (flat_map _ l) as [|d ds IH]; cbn [fold_right];
    [constructor|now apply insert_date_sorted].
Qed.

Lemma in_dates_of today l d :
  In d (dates_of today l) <->
  exists it, In it l /\ group_key today it = on d.
Proof.
  unfold dates_of.
  assert (H : forall ds, In d (fold_right insert_date [] ds) <-> In d ds).
  { induction ds as [|x ds IH]; cbn [fold_right]; [tauto|].
    rewrite in_insert_date, IH. cbn. intuition congruence. }
  rewrite H, in_flat_map. split.
  - intros (it & Hin & Hd). exists it. split; [assumption|].
    destruct (group_key today it); cbn in Hd; intuition congruence.
  - intros (it & Hin & Hk). exists it. split; [assumption|].
    rewrite Hk. now left.
Qed.

(** *** Sorting the items of a group *)

Lemma in_insert_item x it l : In x (insert_item it l) <-> x = it \/ In x l.
Proof.
  induction l as [|y rest IH]; cbn [insert_item In];
    [intuition congruence|].
  destruct (compare_items it y); cbn [In]; rewrite ?IH;
    intuition congruence.
Qed.

Lemma in_sort_items x l : In x (sort_items l) <-> In x l.
Proof.
  unfold sort_items. induction l as [|y rest IH]; cbn [fold_right];
    [tauto|].
  rewrite in_insert_item, IH. cbn. intuition congruence.
Qed.

Lemma in_members today k l it :
  In it (members today k l) <-> In it l /\ group_key today it = k.
Proof.
  unfold members. rewrite in_sort_items, filter_In, key_eqb_eq. tauto.
Qed.

Lemma members_nil today k l :
  members today k l = [] <-> has today k l = false.
Proof.
  unfold has. split.
  - intros H. destruct (existsb _ l) eqn:Hex; [|reflexivity].
    apply existsb_exists in Hex as (it & Hin & Hk).
    assert (Hm : In it (members today k l))
      by (apply in_members; split; [assumption|now apply key_eqb_eq]).
    rewrite H in Hm. contradiction.
  - intros H. destruct (members today k l) as [|it rest] eqn:Hm;
      [reflexivity|].
    assert (Hin : In it (members today k l)) by (rewrite Hm; now left).
    apply in_members in Hin as [Hin Hk].
    assert (existsb (fun it => key_eqb (group_key today it) k) l = true).
    { apply existsb_exists. exists it. split; [assumption|].
      now apply key_eqb_eq. }
    congruence.
Qed.

Lemma keep_group today label l k :
  (if has today k l then [k] else [])
  = map key (filter (fun g => negb (is_empty g))
                    [group_of today label l k]).
Proof.
  cbn [filter]. unfold is_empty. cbn [items group_of].
  destruct (members today k l) as [|it rest] eqn:Hm.
  - apply members_nil in Hm. now rewrite Hm.
  - destruct (has today k l) eqn:Hh; [reflexivity|].
    apply members_nil in Hh. congruence.
Qed.

Lemma keep_dates today label l ds :
  (forall d, In d ds -> has today (on d) l = true) ->
  map key (filter (fun g => negb (is_empty g))
             (map (group_of today label l) (map on ds)))
  = map on ds.
Proof.
  induction ds as [|d ds IH]; intros H; [reflexivity|].
  cbn [map filter]. unfold is_empty at 1. cbn [items group_of].
  destruct (members today (on d) l) as [|it rest] eqn:Hm.
  - apply members_nil in Hm. rewrite H in Hm by now left. discriminate.
  - cbn [negb map key]. f_equal. apply IH. intros x Hx. apply H. now right.
Qed.

(** C3: the group sequence of [groupAndFilter] is the overdue group when
    a shown item is overdue, then one group per distinct date that has
    shown items, in strictly ascending chronological order, then the
    no-date group when a shown item has no date.  No group of the
    sequence is empty, and each holds exactly the shown items of its
    key. *)
Theorem groupAndFilter_sequence today getGroupLabel l f :
  let shown := filter (passes f) l in
  let groups := groupAndFilter today getGroupLabel l f in
  map key groups
  = (if has today overdue shown then [overdue] else [])
    ++ map on (dates_of today shown)
    ++ (if has today no_date shown then [no_date] else [])
  /\ StronglySorted before (dates_of today shown)
  /\ (forall d, In d (dates_of today shown) <->
                exists it, In it shown /\ group_key today it = on d)
  /\ Forall (fun g =>
               items g <> []
               /\ forall it, In it (items g) <->
                             In it shown /\ group_key today it = key g)
            groups.
Proof.
  cbv zeta. set (shown := filter (passes f) l).
  split; [|split; [apply dates_of_sorted|split; [apply in_dates_of|]]].
  - unfold groupAndFilter. fold shown.
    change (overdue :: map on (dates_of today shown) ++ [no_date])
      with ([overdue] ++ map on (dates_of today shown) ++ [no_date]).
    rewrite !map_app, !filter_app, !map_app.
    change (map (group_of today getGroupLabel shown) [overdue])
      with [group_of today getGroupLabel shown overdue].
    change (map (group_of today getGroupLabel shown) [no_date])
      with [group_of today getGroupLabel shown no_date].
    rewrite <- !keep_group. rewrite keep_dates; [reflexivity|].
    intros d Hd. apply in_dates_of in Hd as (it & Hin & Hk).
    apply existsb_exists. exists it. split; [assumption|].
    now apply key_eqb_eq.
  - unfold groupAndFilter. fold shown. apply Forall_forall.
    intros g Hg. apply filter_In in Hg as [Hg Hne].
    apply in_map_iff in Hg as (k & <- & _).
    split.
    + unfold is_empty in Hne. destruct (items _); [discriminate|easy].
    + intros it. cbn [items key group_of]. apply in_members.
Qed.


Lemma group_max_bound today k store b :
  In b store -> group_key today b = k ->
  exists m, group_max today k store = Some m /\ order b <= m.
Proof.
  induction store as [|x rest IH]; intros Hin Hk; [contradiction|].
  cbn [group_max fold_right]. fold (group_max today k rest).
  destruct Hin as [->|Hin].
  - rewrite Hk.
    replace (key_eqb k k) with true by (symmetry; now apply key_eqb_eq).
    destruct (group_max today k rest) as [m|]; eexists; split;
      try reflexivity; lia.
  - destruct (IH Hin Hk) as (m & -> & Hle).
    destruct (key_eqb (group_key today x) k); eexists; split;
      try reflexivity; lia.
Qed.

Lemma group_max_attained today k store m :
  group_max today k store = Some m ->
  exists top, In top store /\ group_key today top = k /\ order top = m.
Proof.
  revert m. induction store as [|x rest IH]; intros m; [discriminate|].
  cbn [group_max fold_right]. fold (group_max today k rest).
  destruct (key_eqb (group_key today x) k) eqn:Hk.
  - apply key_eqb_eq in Hk.
    destruct (group_max today k rest) as [m'|] eqn:Hrest.
    + intros H. inversion H; subst m; clear H.
      destruct (Z.max_spec m' (order x)) as [[_ ->]|[_ ->]].
      * exists x. split; [now left|]. split; [exact Hk|reflexivity].
      * destruct (IH m' eq_refl) as (top & Hin & Htop & Ho).
        exists top. split; [now right|]. split; assumption.
    + intros H. inversion H; subst m.
      exists x. split; [now left|]. split; [exact Hk|reflexivity].
  - intros H. destruct (IH m H) as (top & Hin & Htop & Ho).
    exists top. split; [now right|]. split; assumption.
Qed.

(** C8: applying a Reschedule intent to an item of the store changes, of
    that item, only [dueDate] (to the target) and [order]; every other
    field of it and every other item are unchanged.  The new [order] is
    greater than that of every item of the destination group and, when
    that group has items, exactly one more than the [order] of one of
    them: it is one past the maximum of the destination group. *)
Theorem reschedule_isolation today i d store a :
  find_item i store = Some a ->
  let destination := group_key today (with_schedule d (order a) a) in
  exists o,
    Forall2 (fun old new =>
               if Z.eqb (id old) i
               then dueDate new = d /\ order new = o
                    /\ same_but_schedule old new
               else new = old)
            store (reschedule today i d store)
    /\ (forall b, In b store -> group_key today b = destination ->
                  order b < o)
    /\ (forall b, In b store -> group_key today b = destination ->
                  exists top, In top store
                              /\ group_key today top = destination
                              /\ o = order top + 1).
Proof.
  intros Hfind. cbv zeta.
  exists (end_of_group today
            (group_key today (with_schedule d (order a) a)) store).
  split; [|split].
  - unfold reschedule. rewrite Hfind.
    generalize (end_of_group today
                  (group_key today (with_schedule d (order a) a)) store).
    intros o. clear Hfind.
    induction store as [|y l IH]; cbn [map]; constructor; [|exact IH].
    destruct (Z.eqb (id y) i); [|reflexivity].
    cbn. unfold same_but_schedule. cbn. repeat split; reflexivity.
  - intros b Hin Hk. unfold end_of_group.
    destruct (@group_max_bound today _ store b Hin Hk) as (m & -> & Hle). lia.
  - intros b Hin Hk. unfold end_of_group.
    destruct (@group_max_bound today _ store b Hin Hk) as (m & Hm & _).
    rewrite Hm.
    destruct (@group_max_attained today _ store m Hm)
      as (top & Htop & Hkey & Ho).
    exists top. split; [exact Htop|]. split; [exact Hkey|]. now rewrite Ho.
Qed.

(** *** Sync Manager *)

Lemma find_item_map i (g : Item -> Item) store a :
  (forall it, id (g it) = id it) ->
  find_item i store = Some a ->
  find_item i (map (fun it => if Z.eqb (id it) i then g it else it) store)
  = Some (g a).
Proof.
  intros Hid. unfold find_item.
  induction store as [|x rest IH]; cbn [find map]; [discriminate|].
  destruct (Z.eqb (id x) i) eqn:Hx.
  - intros H. inversion H; subst. now rewrite Hid, Hx.
  - rewrite Hx. exact IH.
Qed.

Lemma find_item_reschedule today i d store a :
  find_item i store = Some a ->
  exists a', find_item i (reschedule today i d store) = Some a'
             /\ dueDate a' = d.
Proof.
  intros H. unfold reschedule. rewrite H.
  eexists. split; [apply find_item_map; [reflexivity|exact H]|reflexivity].
Qed.

Lemma find_item_restore i snap now old cur :
  find_item i snap = Some old ->
  find_item i now = Some cur ->
  find_item i (restore i snap now) = Some old.
Proof.
  intros Hs Hn. unfold restore. rewrite Hs.
  assert (Hold : id old = i).
  { unfold find_item in Hs. apply find_some in Hs as [_ H].
    now apply Z.eqb_eq in H. }
  clear Hs. unfold find_item in *.
  induction now as [|x rest IH]; cbn [find map] in *; [discriminate|].
  destruct (Z.eqb (id x) i) eqn:Hx.
  - rewrite Hold, Z.eqb_refl. reflexivity.
  - rewrite Hx. now apply IH.
Qed.

(** Two Reschedule intents for one item, to [d1] and then to [d2], both
    issued before either response arrives.  The response to the first is
    stale: delivering it, before or after the other, changes nothing and
    rolls nothing back, whatever it reports.  When the response to the
    second reports success the item is due on [d2] in both delivery
    orders. *)
Lemma stale_response_discarded today i d1 d2 ok1 ok2 d1_first s0 a :
  find_item i (store s0) = Some a ->
  let s1 := fst (issue today i d1 s0) in
  let c1 := snd (issue today i d1 s0) in
  let s2 := fst (issue today i d2 s1) in
  let c2 := snd (issue today i d2 s1) in
  deliver c1 ok1 s2 = s2
  /\ deliver c1 ok1 (deliver c2 ok2 s2) = deliver c2 ok2 s2
  /\ dueDate_of i (two_reschedules today i d1 d2 ok1 true d1_first s0)
     = Some d2.
Proof.
  intros Ha. cbv zeta.
  destruct (@find_item_reschedule today i d1 (store s0) a Ha)
    as (a1 & Ha1 & Hd1).
  destruct (@find_item_reschedule today i d2 _ a1 Ha1) as (a2 & Ha2 & Hd2).
  assert (Hstale : forall s, issued s = issued (fst (issue today i d2
                               (fst (issue today i d1 s0)))) ->
                   deliver (snd (issue today i d1 s0)) ok1 s = s).
  { intros s Hs. unfold deliver. rewrite Hs. cbn.
    rewrite Z.eqb_refl.
    replace (Nat.eqb (latest i (issued s0)) (S (latest i (issued s0))))
      with false; [reflexivity|].
    symmetry. apply Nat.eqb_neq. lia. }
  assert (Hissued : forall ok,
             issued (deliver (snd (issue today i d2
                                     (fst (issue today i d1 s0)))) ok
                       (fst (issue today i d2 (fst (issue today i d1 s0)))))
             = issued (fst (issue today i d2 (fst (issue today i d1 s0))))).
  { intros ok. unfold deliver.
    destruct (Nat.eqb _ _); [destruct ok|]; reflexivity. }
  assert (Hc2 : deliver (snd (issue today i d2 (fst (issue today i d1 s0))))
                  true
                  (fst (issue today i d2 (fst (issue today i d1 s0))))
                = fst (issue today i d2 (fst (issue today i d1 s0)))).
  { unfold deliver. destruct (Nat.eqb _ _); reflexivity. }
  split; [now apply Hstale|]. split; [apply Hstale, Hissued|].
  assert (Htwo : two_reschedules today i d1 d2 ok1 true d1_first s0
                 = if d1_first
                   then deliver (snd (issue today i d2
                                        (fst (issue today i d1 s0)))) true
                          (deliver (snd (issue today i d1 s0)) ok1
                             (fst (issue today i d2
                                     (fst (issue today i d1 s0)))))
                   else deliver (snd (issue today i d1 s0)) ok1
                          (deliver (snd (issue today i d2
                                           (fst (issue today i d1 s0))))
                             true
                             (fst (issue today i d2
                                     (fst (issue today i d1 s0))))))
    by reflexivity.
  rewrite Htwo. clear Htwo.
  assert (Hfinal : forall s,
             s = fst (issue today i d2 (fst (issue today i d1 s0))) ->
             dueDate_of i s = Some d2).
  { intros s ->. unfold dueDate_of. cbn [store issue fst].
    rewrite Ha2. cbn. now rewrite Hd2. }
  apply Hfinal. destruct d1_first.
  - rewrite Hstale by reflexivity. exact Hc2.
  - rewrite Hc2. now apply Hstale.
Qed.

End EngineFacts.

(* ===================================================================== *)
(** * 16. Runs on concrete requests                                       *)
(* ===================================================================== *)

Section Unscoped.

Variable date_in : string -> option JsDate.

(** The server before accounts answers the single-item update the same
    way, with the id alone as WHERE clause and a row of ten columns. *)
Lemma put_item_unscoped_outcomes id item fs tbl :
  serve (put_item_unscoped date_in id item) fs tbl
  = if update_refused date_in (id_is id) id item fs tbl
    then (Some (fail 500 "Failed to update item"), tbl)
    else match read date_in (or_null (Req.dueDate item)),
               filter (id_is id) tbl with
         | Some due, row :: _ =>
             (Some (json (row_json_unscoped
                            (assign (update_params item) due row))),
              map (fun r => if id_is id r
                            then assign (update_params item) due r else r)
                  tbl)
         | _, _ => (Some (fail 404 "Item not found"), tbl)
         end.
Proof.
  unfold put_item_unscoped, serve, try_catch, bind, query, update_refused,
    sql_update.
  cbn [faults current working committed set_current].
  destruct (hd false fs); [reflexivity|]. cbn [orb].
  destruct id as [| |n]; cbn [is_val negb orb]; try reflexivity.
  change (Cols.due_date (update_params item))
    with (or_null (Req.dueDate item)).
  destruct (read date_in (or_null (Req.dueDate item))) as [due|];
    [|reflexivity].
  cbn [is_none orb].
  destruct (existsb (id_is (Val n)) tbl) eqn:Hex; cbn [andb].
  - destruct (violates_not_null (update_params item)); [reflexivity|].
    destruct (filter (id_is (Val n)) tbl) as [|row rest] eqn:Hf.
    + apply existsb_filter_nil in Hf. congruence.
    + reflexivity.
  - apply existsb_filter_nil in Hex. rewrite Hex. reflexivity.
Qed.

End Unscoped.

Lemma row_json_not_item_record r : ~ is_item_record (row_json r).
Proof. intros [H _]. rewrite row_json_keys in H. discriminate. Qed.

(** C1: the rows [POST /api/items] and [PUT /api/items/:id] answer with
    are the rows of the table as the driver returned them.  Creating
    [{ id: 1, text: 'water the plants' }] and then replacing it, the
    records on the wire carry the column names ([created_at], [due_date],
    [sort_order], [user_id]) instead of the fields of the data model, and
    the due date of the updated record is a timestamp with its time
    component. *)
Theorem post_and_put_answer_with_rows :
  let created :=
    serve (post_items iso_date_in iso_timestamptz_in "ana" Sample.clock
             (One Sample.plants)) [] [] in
  let updated :=
    serve (put_item iso_date_in "ana" (Val 1) Sample.plants_done) []
          [Sample.plants_row] in
  (exists rec,
      created = (Some (json (JArr [rec])), [Sample.plants_row])
      /\ keys rec = columns
      /\ ~ is_item_record rec)
  /\ (exists rec,
         fst updated = Some (json rec)
         /\ keys rec = columns
         /\ prop "dueDate" rec = None
         /\ prop "due_date" rec = Some (JStr "2026-03-10T00:00:00.000Z")
         /\ ~ is_item_record rec).
Proof.
  cbv zeta. split.
  - exists (row_json Sample.plants_row).
    split; [vm_compute; reflexivity|].
    split; [reflexivity|apply row_json_not_item_record].
  - eexists. split; [vm_compute; reflexivity|].
    split; [reflexivity|]. split; [reflexivity|]. split; [reflexivity|].
    intros [H _]. discriminate H.
Qed.

(** The same item read back by [GET /api/items] is an item record. *)
Example get_after_post :
  exists rec,
    fst (serve (get_items Sample.utc "ana") [] [Sample.plants_row])
    = Some (json (JArr [rec]))
    /\ keys rec = item_fields
    /\ prop "dueDate" rec = Some JNull.
Proof. eexists. split; [vm_compute; reflexivity|]. split; reflexivity. Qed.

(** The listing of a server east of UTC shows a due date one day early;
    a due date no [Date] can hold, or an id beyond 2^53, shows in what
    the listing answers. *)
Example get_items_on_the_edge :
  (exists rec,
      fst (serve (get_items Sample.utc "bob") [] [Sample.bob_row])
      = Some (json (JArr [rec]))
      /\ prop "dueDate" rec = Some (JStr "2026-03-10"))
  /\ (exists rec,
         fst (serve (get_items Sample.east "bob") [] [Sample.bob_row])
         = Some (json (JArr [rec]))
         /\ prop "dueDate" rec = Some (JStr "2026-03-09"))
  /\ fst (serve (get_items Sample.utc "bob") []
            [Row.mk 5 "far" None (Some Sample.clock) "task" "work" "low"
               (Some (mkDate 300000 1 1 0 0 0 0)) None None (Some "bob")])
     = Some (fail 500 "Failed to fetch items")
  /\ (exists rec,
         fst (serve (get_items Sample.utc "bob") []
                [Row.mk 9007199254740993 "big" None (Some Sample.clock)
                   "task" "work" "low" None None None (Some "bob")])
         = Some (json (JArr [rec]))
         /\ prop "id" rec = Some (JNum 9007199254740992)).
Proof.
  split; [eexists; split; [vm_compute; reflexivity|reflexivity]|].
  split; [eexists; split; [vm_compute; reflexivity|reflexivity]|].
  split; [vm_compute; reflexivity|].
  eexists; split; [vm_compute; reflexivity|reflexivity].
Qed.

(** C2, refuted as stated: item 1 belongs to the caller, the request
    leaves [text] out, the UPDATE violates [NOT NULL]; the answer is a 500
    error, neither 404 nor the replaced row. *)
Lemma put_item_counterexample :
  ~ put_item_claim iso_date_in "ana" (Val 1) Sample.no_text []
      [Sample.plants_row].
Proof.
  unfold put_item_claim.
  replace (serve (put_item iso_date_in "ana" (Val 1) Sample.no_text) []
             [Sample.plants_row])
    with (Some (fail 500 "Failed to update item"), [Sample.plants_row])
    by (vm_compute; reflexivity).
  intros [_ H]. destruct (H eq_refl) as (row & Hres & _).
  inversion Hres.
Qed.

(** The three outcomes of the single-item update, one request each. *)
Example put_item_three_outcomes :
  option_map status
    (fst (serve (put_item iso_date_in "ana" (Val 1) Sample.plants_done) []
            [Sample.plants_row])) = Some 200
  /\ option_map status
       (fst (serve (put_item iso_date_in "ana" (Val 7) Sample.stranger) []
               [Sample.plants_row])) = Some 404
  /\ option_map status
       (fst (serve (put_item iso_date_in "ana" (Val 1) Sample.plants_done)
               [true] [Sample.plants_row])) = Some 500.
Proof. repeat split; vm_compute; reflexivity. Qed.

(** C5, refuted as stated: the second of two replacements of item 1 has
    [text: null] and is refused by [NOT NULL]; both servers answer 500,
    but the pg server restores the table while the drizzle server keeps
    the first replacement. *)
Lemma bulk_equivalence_counterexample :
  ~ bulk_equivalence_claim iso_date_in "ana"
      [Sample.plants_done; Sample.null_text] [] [Sample.plants_row].
Proof. unfold bulk_equivalence_claim. vm_compute. discriminate. Qed.

(** The same divergence when the environment fails the second
    statement. *)
Example bulk_divergence_on_fault :
  serve (put_items iso_date_in "ana" [Sample.plants_done; Sample.stranger])
        [false; true] [Sample.plants_row]
  = (Some (fail 500 "Failed to update items"), [Sample.plants_row])
  /\ serve (drizzle_put_items iso_date_in
              [Sample.plants_done; Sample.stranger])
           [false; true] [Sample.plants_row]
     = (Some (fail 500 "Failed to update items"),
        [Row.mk 1 "water the plants" (Some true) (Some Sample.clock) "task"
           "personal" "high" (Some (mkDate 2026 3 10 0 0 0 0)) (Some "done")
           (Some 2) (Some "ana")]).
Proof. split; vm_compute; reflexivity. Qed.

Lemma bulk_variants_agree_witness :
  Forall (fun r => owned_by "ana" r = true) [Sample.plants_row]
  /\ Forall complete [Sample.plants_done; Sample.stranger]
  /\ match run (update_stmt iso_date_in "ana")
             [Sample.plants_done; Sample.stranger] [] [Sample.plants_row]
     with
     | (Some _, updated, _) =>
         serve (put_items iso_date_in "ana"
                  [Sample.plants_done; Sample.stranger]) []
               [Sample.plants_row]
         = (Some (json success), updated)
         /\ serve (drizzle_put_items iso_date_in
                     [Sample.plants_done; Sample.stranger]) []
                  [Sample.plants_row]
            = (Some (json success), updated)
     | (None, reached, _) =>
         serve (put_items iso_date_in "ana"
                  [Sample.plants_done; Sample.stranger]) []
               [Sample.plants_row]
         = (Some (fail 500 "Failed to update items"), [Sample.plants_row])
         /\ serve (drizzle_put_items iso_date_in
                     [Sample.plants_done; Sample.stranger]) []
                  [Sample.plants_row]
            = (Some (fail 500 "Failed to update items"), reached)
     end.
Proof.
  assert (Hown : Forall (fun r => owned_by "ana" r = true)
                   [Sample.plants_row])
    by (repeat constructor).
  assert (Hall : Forall complete [Sample.plants_done; Sample.stranger])
    by (repeat constructor; discriminate).
  split; [exact Hown|]. split; [exact Hall|].
  exact (@bulk_variants_agree iso_date_in "ana"
           [Sample.plants_done; Sample.stranger] [] [Sample.plants_row]
           Hown Hall).
Defined.

(** C6, refuted as stated: the first request after start-up carries the
    body of the validation test script; it is answered 400, yet the
    legacy row of the table now belongs to the caller. *)
Lemma validation_counterexample :
  ~ validation_claim iso_date_in iso_timestamptz_in false "ana" Sample.clock
      POST_items (Some Sample.test_body) [] [Sample.legacy_row].
Proof.
  unfold validation_claim.
  replace (serve_app _ [] [Sample.legacy_row])
    with (Some (true, validation_failed zod_message
                        [mkIssue invalid_union []]),
          [claim "ana" Sample.legacy_row])
    by (vm_compute; reflexivity).
  intros [_ H]. discriminate H.
Qed.

Lemma validation_rejects_before_handler_witness :
  zod_parse (schema_of PUT_items) (Some (JArr [Sample.test_body]))
  = Invalid [mkIssue invalid_type ["0"; "id"];
             mkIssue invalid_type ["0"; "type"];
             mkIssue invalid_type ["0"; "category"];
             mkIssue invalid_type ["0"; "priority"]]
  /\ exists found fs1 flag,
      claim_unclaimed true "ana" (mkWorld [Sample.plants_row] None [])
      = (mkWorld found None fs1, Some flag)
      /\ found = [Sample.plants_row]
      /\ api true "ana"
           (validate zod_parse zod_message (schema_of PUT_items)
              (Some (JArr [Sample.test_body]))
              (handler_of iso_date_in iso_timestamptz_in PUT_items "ana"
                 Sample.clock))
           (mkWorld [Sample.plants_row] None [])
         = (mkWorld found None fs1,
            Some (flag,
                  validation_failed zod_message
                    [mkIssue invalid_type ["0"; "id"];
                     mkIssue invalid_type ["0"; "type"];
                     mkIssue invalid_type ["0"; "category"];
                     mkIssue invalid_type ["0"; "priority"]])).
Proof.
  assert (H : zod_parse (schema_of PUT_items)
                (Some (JArr [Sample.test_body]))
              = Invalid [mkIssue invalid_type ["0"; "id"];
                         mkIssue invalid_type ["0"; "type"];
                         mkIssue invalid_type ["0"; "category"];
                         mkIssue invalid_type ["0"; "priority"]])
    by reflexivity.
  split; [exact H|].
  exact (@validation_rejects_before_handler zod_parse zod_message true "ana"
           PUT_items (Some (JArr [Sample.test_body])) _
           (handler_of iso_date_in iso_timestamptz_in PUT_items "ana"
              Sample.clock)
           [] [Sample.plants_row] H).
Defined.

(** C9, refuted as stated: the first request after start-up is a bulk
    update that leaves [text] out; it is rolled back and answered 500,
    yet the table is not the one the request found: the legacy row now
    belongs to the caller. *)
Lemma bulk_update_counterexample :
  ~ bulk_update_claim iso_date_in false "ana" [Sample.legacy_no_text] []
      [Sample.legacy_row].
Proof.
  unfold bulk_update_claim.
  replace (serve_app _ [] [Sample.legacy_row])
    with (Some (true, fail 500 "Failed to update items"),
          [claim "ana" Sample.legacy_row])
    by (vm_compute; reflexivity).
  intros [[_ H]|H]; discriminate H.
Qed.

(** Once the migration is done, the failed bulk update leaves the table
    it found, and a bulk update that passes is committed. *)
Example bulk_update_runs :
  serve_app (api true "ana"
               (put_items iso_date_in "ana"
                  [Sample.plants_done; Sample.no_text])) []
            [Sample.plants_row]
  = (Some (true, fail 500 "Failed to update items"), [Sample.plants_row])
  /\ fst (serve_app (api true "ana"
                       (put_items iso_date_in "ana" [Sample.plants_done])) []
                    [Sample.plants_row])
     = Some (true, json success).
Proof. split; vm_compute; reflexivity. Qed.

(** One item, then two of which the second has no text. *)
Example post_items_runs :
  serve (post_items iso_date_in iso_timestamptz_in "ana" Sample.clock
           (Many [Sample.plants; Sample.bare])) [] []
  = (Some (json (JArr [row_json Sample.plants_row;
                       row_json (Sample.bare_row (Some "ana"))])),
     [Sample.plants_row; Sample.bare_row (Some "ana")])
  /\ serve (post_items iso_date_in iso_timestamptz_in "ana" Sample.clock
              (Many [Sample.plants; Sample.no_text])) [] []
     = (Some (fail 500 "Failed to create items"), []).
Proof. split; vm_compute; reflexivity. Qed.

Module EngineRuns.

Import Engine Engine.Scenario EngineFacts.

(** The end-to-end scenario: three groups; after item 3 is dropped on
    the header of today's group it is the last of that group, with
    [order] 1, and the no-date group is gone. *)
Example end_to_end :
  map (fun g => (key g, map id (items g)))
      (groupAndFilter today heading store filters)
  = [(overdue, [1]); (on today, [2]); (no_date, [3])]
  /\ find_item 3 (reschedule today 3 (Some today) store)
     = Some (item 3 (Some today) 1)
  /\ map (fun g => (key g, map id (items g)))
         (groupAndFilter today heading
            (reschedule today 3 (Some today) store) filters)
     = [(overdue, [1]); (on today, [2; 3])].
Proof. repeat split; vm_compute; reflexivity. Qed.

(** Overdue precedence does not depend on the order of the input. *)
Example overdue_first :
  map key (groupAndFilter today heading
             [item 3 (Some tomorrow) 0; item 2 (Some today) 0;
              item 1 (Some yesterday) 0] filters)
  = [overdue; on today; on tomorrow].
Proof. vm_compute. reflexivity. Qed.

(** Item 3 is dropped on today's group while the overdue group reaches
    [order] 50: it gets [order] 1, one past the only item of today's
    group. *)
Lemma reschedule_isolation_witness :
  find_item 3 crowded = Some (item 3 None 0)
  /\ Forall2 (fun old new =>
                if Z.eqb (id old) 3
                then dueDate new = Some today /\ order new = 1
                     /\ same_but_schedule old new
                else new = old)
             crowded (reschedule today 3 (Some today) crowded)
  /\ (forall b, In b crowded -> group_key today b = on today -> order b < 1).
Proof.
  assert (H : find_item 3 crowded = Some (item 3 None 0)) by reflexivity.
  split; [exact H|].
  destruct (@reschedule_isolation today 3 (Some today) crowded
              (item 3 None 0) H) as (o & Hframe & Hend & Htop).
  assert (Ho : o = 1).
  { destruct (Htop (item 2 (Some today) 0) (or_intror (or_introl eq_refl))
                eq_refl) as (top & Hin & Hkey & ->).
    destruct Hin as [<-|[<-|[<-|[]]]].
    - discriminate Hkey.
    - reflexivity.
    - discriminate Hkey. }
  subst o. split; [exact Hframe|exact Hend].
Defined.

End EngineRuns.

(* ===================================================================== *)
(** * 17. What a request can do to the table                              *)
(* ===================================================================== *)

Lemma steps_trans u t1 t2 t3 :
  steps u t1 t2 -> steps u t2 t3 -> steps u t1 t3.
Proof.
  intros H12 H23. induction H23 as [|t2 ta tb _ IH Hs]; [assumption|].
  eapply steps_more; [apply IH; assumption|exact Hs].
Qed.

Lemma steps_one u t1 t2 : step u t1 t2 -> steps u t1 t2.
Proof. intros H. eapply steps_more; [apply steps_none|exact H]. Qed.

(** A property every statement keeps is kept by a whole loop. *)
Lemma run_keeps {A B} (P : Table -> Prop)
  (f : A -> Table -> option (B * Table)) xs :
  (forall x t b t1, P t -> f x t = Some (b, t1) -> P t1) ->
  forall fs t, P t -> P (snd (fst (run f xs fs t))).
Proof.
  intros Hf. induction xs as [|x rest IH]; intros fs t Ht; cbn [run].
  - exact Ht.
  - destruct (hd false fs); [exact Ht|].
    destruct (f x t) as [[b t1]|] eqn:Hx; [|exact Ht].
    specialize (IH (tl fs) t1 (Hf _ _ _ _ Ht Hx)).
    destruct (run f rest (tl fs) t1) as [[r t2] fs2]. exact IH.
Qed.

Lemma assign_keeps_identity c due r :
  Row.id (assign c due r) = Row.id r
  /\ Row.created_at (assign c due r) = Row.created_at r
  /\ Row.user_id (assign c due r) = Row.user_id r.
Proof. destruct r. repeat split. Qed.

(** An UPDATE whose WHERE clause names the caller is a rewrite of the
    caller's rows. *)
Lemma sql_update_step date_in u c cond t rows t1 :
  (forall r, cond r = true -> owned_by u r = true) ->
  sql_update date_in c cond t = Some (rows, t1) ->
  steps u t t1.
Proof.
  intros Hcond H. unfold sql_update in H.
  destruct (read date_in (Cols.due_date c)) as [due|]; [|discriminate].
  destruct (existsb cond t).
  - destruct (violates_not_null c); [discriminate|].
    inversion H; subst. apply steps_one. apply step_rewrite.
    + intros r. destruct (cond r); [apply assign_keeps_identity|auto].
    + intros r Hr. destruct (cond r) eqn:Hc; [|reflexivity].
      apply Hcond in Hc. congruence.
  - inversion H; subst. apply steps_none.
Qed.

Lemma mine_owned u id r : mine u id r = true -> owned_by u r = true.
Proof. unfold mine. intros H. now apply andb_true_iff in H. Qed.

Lemma new_row_of_caller date_in timestamptz_in u now item row :
  new_row date_in timestamptz_in now (insert_params u now item) = Some row ->
  Row.user_id row = Some u /\ dated row = true.
Proof.
  unfold new_row. cbn [insert_params Cols.id Cols.text Cols.type
    Cols.category Cols.priority Cols.created_at Cols.due_date Cols.completed
    Cols.notes Cols.sort_order Cols.user_id stored read].
  intros H.
  destruct (stored (param (Req.id item)) None); [|discriminate].
  destruct (stored (param (Req.text item)) None); [|discriminate].
  destruct (timestamptz_in _) as [created|]; [|discriminate].
  destruct (read date_in _); [|discriminate].
  inversion H; subst. split; reflexivity.
Qed.

Lemma sql_insert_step date_in timestamptz_in u now item t rows t1 :
  insert_stmt date_in timestamptz_in u now item t = Some (rows, t1) ->
  steps u t t1.
Proof.
  unfold insert_stmt, sql_insert. intros H.
  destruct (new_row _ _ _ _) as [row|] eqn:Hrow; [|discriminate].
  destruct (existsb _ t) eqn:Hex; [discriminate|].
  inversion H; subst.
  apply new_row_of_caller in Hrow as [Hu Hd].
  apply steps_one. apply step_append; [|assumption|assumption].
  intros Hin. apply in_map_iff in Hin as (x & Hx & Hin).
  assert (existsb (fun x0 => Row.id x0 =? Row.id row) t = true).
  { apply existsb_exists. exists x. split; [assumption|].
    now apply Z.eqb_eq. }
  congruence.
Qed.

(** The middleware, seen from the table. *)
Lemma claim_unclaimed_steps claimed u tbl fs :
  exists found fs1 flag,
    claim_unclaimed claimed u (mkWorld tbl None fs)
    = (mkWorld found None fs1, Some flag)
    /\ steps u tbl found.
Proof.
  destruct (claim_unclaimed_js claimed u tbl fs)
    as (found & fs1 & flag & H & Hfound).
  exists found, fs1, flag. split; [exact H|].
  destruct claimed; [subst; apply steps_none|].
  destruct Hfound as [->| ->]; [apply steps_none|].
  apply steps_one, step_claim.
Qed.

Lemma serve_api claimed u h fs tbl :
  exists found fs1 flag,
    claim_unclaimed claimed u (mkWorld tbl None fs)
    = (mkWorld found None fs1, Some flag)
    /\ steps u tbl found
    /\ serve_app (api claimed u h) fs tbl
       = (option_map (pair flag) (fst (serve h fs1 found)),
          snd (serve h fs1 found)).
Proof.
  destruct (claim_unclaimed_steps claimed u tbl fs)
    as (found & fs1 & flag & H & Hsteps).
  exists found, fs1, flag. split; [exact H|]. split; [exact Hsteps|].
  unfold serve_app, api, serve. unfold bind at 1. rewrite H.
  unfold bind at 1.
  destruct (h (mkWorld found None fs1)) as [w [r|]]; reflexivity.
Qed.

Lemma for_each_lift_collect {A B} (g : A -> option B) xs w :
  for_each (fun x => lift (g x)) xs w = (w, collect g xs).
Proof.
  induction xs as [|x rest IH]; [reflexivity|].
  cbn [for_each collect]. unfold bind at 1. unfold lift at 1.
  destruct (g x) as [y|]; [|reflexivity]. unfold ret at 1.
  unfold bind at 1. rewrite IH.
  destruct (collect g rest); reflexivity.
Qed.

(** [GET /api/items] at a glance. *)
Lemma get_items_serve zone u fs tbl :
  serve (get_items zone u) fs tbl
  = (Some (if hd false fs then fail 500 "Failed to fetch items"
           else match collect (item_of_row zone)
                        (order_by (filter (owned_by u) tbl)) with
                | Some recs => json (JArr recs)
                | None => fail 500 "Failed to fetch items"
                end),
     tbl).
Proof.
  unfold serve, get_items, try_catch. unfold bind at 1.
  unfold query at 1, sql_select.
  cbn [faults current working committed set_current].
  destruct (hd false fs); [reflexivity|].
  cbn [set_current working committed]. unfold bind at 1.
  rewrite for_each_lift_collect.
  destruct (collect (item_of_row zone) _); reflexivity.
Qed.

(** [DELETE /api/items/:id] at a glance. *)
Lemma delete_item_serve u id fs tbl :
  serve (delete_item u id) fs tbl
  = if hd false fs || negb (is_val id)
    then (Some (fail 500 "Failed to delete item"), tbl)
    else (Some (json success),
          filter (fun r => negb (mine u id r)) tbl).
Proof.
  unfold serve, delete_item, try_catch. unfold bind at 1.
  unfold query at 1, sql_delete.
  cbn [faults current working committed set_current].
  destruct (hd false fs); [reflexivity|].
  destruct id; reflexivity.
Qed.

Section Routes.

Variable zone : JsDate -> Z.
Variable date_in : string -> option JsDate.
Variable timestamptz_in : string -> option JsDate.

(** Whatever the request and its outcome, the table after it is the
    table before it changed by statements of the kinds above. *)
Lemma route_steps u req fs tbl :
  steps u tbl (snd (serve (route zone date_in timestamptz_in u req) fs tbl)).
Proof.
  destruct req as [|now b|id item|items|id]; cbn [route].
  - rewrite get_items_serve. apply steps_none.
  - unfold serve. rewrite post_items_js.
    pose proof (@run_keeps _ _ (steps u tbl)
                  (insert_stmt date_in timestamptz_in u now) (items_of b)) as H.
    specialize (H (fun x t b0 t1 Ht Hx =>
                     steps_trans Ht (sql_insert_step _ _ _ _ _ _ Hx))
                  fs tbl (steps_none u tbl)).
    destruct (run _ (items_of b) fs tbl) as [[r t] fs'].
    destruct r; [exact H|apply steps_none].
  - unfold put_item. rewrite single_update_outcomes.
    destruct (update_refused _ _ _ _ _ _); [apply steps_none|].
    destruct (read date_in (or_null (Req.dueDate item))) as [due|];
      [|apply steps_none].
    destruct (filter _ tbl); [apply steps_none|].
    cbn [snd]. apply steps_one, step_rewrite.
    + intros r. destruct (id_is id r && owned_by u r);
        [apply assign_keeps_identity|auto].
    + intros r Hr. rewrite Hr, andb_false_r. reflexivity.
  - unfold serve. rewrite put_items_js.
    pose proof (@run_keeps _ _ (steps u tbl)
                  (update_stmt date_in u) items) as H.
    specialize (H (fun x t b0 t1 Ht Hx =>
                     steps_trans Ht
                       (@sql_update_step date_in u _ _ t b0 t1
                          (fun r Hr => proj2 (proj1 (andb_true_iff _ _) Hr))
                          Hx))
                  fs tbl (steps_none u tbl)).
    destruct (run _ items fs tbl) as [[r t] fs'].
    destruct r; [exact H|apply steps_none].
  - rewrite delete_item_serve.
    destruct (hd false fs || negb (is_val id)); [apply steps_none|].
    cbn [snd]. apply steps_one, step_remove. intros r. apply mine_owned.
Qed.

Lemma request_steps claimed u req fs tbl :
  steps u tbl
    (snd (serve_app (api claimed u (route zone date_in timestamptz_in u req))
            fs tbl)).
Proof.
  destruct (serve_api claimed u (route zone date_in timestamptz_in u req) fs tbl)
    as (found & fs1 & flag & _ & Hsteps & ->).
  cbn [snd]. eapply steps_trans; [exact Hsteps|apply route_steps].
Qed.

End Routes.

Lemma owners_differ u v r :
  String.eqb u v = false -> owned_by v r = true -> owned_by u r = false.
Proof.
  unfold owned_by. intros Huv. destruct (Row.user_id r) as [x|]; [|easy].
  intros Hv. apply String.eqb_eq in Hv. subst x.
  now rewrite String.eqb_sym.
Qed.

Lemma filter_map_fixed {A} (p : A -> bool) (g : A -> A) l :
  (forall x, p (g x) = p x) ->
  (forall x, p x = true -> g x = x) ->
  filter p (map g l) = filter p l.
Proof.
  intros Hp Hg. induction l as [|x l IH]; [reflexivity|].
  cbn [map filter]. rewrite Hp. destruct (p x) eqn:Hx; [|exact IH].
  now rewrite (Hg x Hx), IH.
Qed.

Lemma owned_by_claim u v r :
  String.eqb u v = false -> owned_by v (claim u r) = owned_by v r.
Proof.
  intros Huv. unfold claim, unclaimed.
  destruct (Row.user_id r) eqn:E; [reflexivity|].
  unfold owned_by. cbn [Row.user_id]. now rewrite E.
Qed.

Lemma step_others u v t t' :
  String.eqb u v = false -> step u t t' ->
  filter (owned_by v) t' = filter (owned_by v) t.
Proof.
  intros Huv H. destruct H as [g t Hid Hfix|r t Hfresh Hu Hd|cond t Hc|t].
  - apply filter_map_fixed.
    + intros r. unfold owned_by. destruct (Hid r) as (_ & _ & ->).
      reflexivity.
    + intros r Hr. apply Hfix. now apply (@owners_differ u v r Huv).
  - rewrite filter_app. cbn [filter]. unfold owned_by at 2. rewrite Hu, Huv.
    apply app_nil_r.
  - induction t as [|r t IH]; [reflexivity|]. cbn [filter].
    destruct (cond r) eqn:Hr; cbn [negb filter].
    + apply Hc in Hr.
      destruct (owned_by v r) eqn:Hv; [|exact IH].
      apply (@owners_differ u v r Huv) in Hv. congruence.
    + now rewrite IH.
  - apply filter_map_fixed.
    + intros r. now apply owned_by_claim.
    + intros r Hr. unfold claim, unclaimed. unfold owned_by in Hr.
      destruct (Row.user_id r); [reflexivity|discriminate].
Qed.

Lemma claim_keeps_identity u r :
  Row.id (claim u r) = Row.id r
  /\ Row.created_at (claim u r) = Row.created_at r.
Proof. unfold claim. destruct (unclaimed r); split; reflexivity. Qed.

Lemma NoDup_map_filter {A B} (f : A -> B) (p : A -> bool) l :
  NoDup (map f l) -> NoDup (map f (filter p l)).
Proof.
  induction l as [|x l IH]; cbn [map filter]; [auto|].
  intros H. inversion H as [|? ? Hnin Hnd]; subst.
  destruct (p x); [|auto]. cbn [map]. constructor; [|auto].
  intros Hin. apply Hnin. apply in_map_iff in Hin as (y & Hy & Hin).
  apply filter_In in Hin as [Hin _]. apply in_map_iff. eauto.
Qed.

Lemma step_ids u t t' :
  step u t t' -> NoDup (map Row.id t) -> NoDup (map Row.id t').
Proof.
  intros H Hnd. destruct H as [g t Hid Hfix|r t Hfresh Hu Hd|cond t Hc|t].
  - rewrite map_map.
    replace (map (fun x => Row.id (g x)) t) with (map Row.id t); [exact Hnd|].
    apply map_ext. intros r. now destruct (Hid r) as (-> & _).
  - rewrite map_app. cbn [map].
    apply NoDup_app; [exact Hnd|repeat constructor; auto|].
    intros x Hx [<-|[]]. contradiction.
  - now apply NoDup_map_filter.
  - rewrite map_map.
    replace (map (fun x => Row.id (claim u x)) t) with (map Row.id t);
      [exact Hnd|].
    apply map_ext. intros r. now destruct (claim_keeps_identity u r) as [-> _].
Qed.

Lemma step_dated u t t' :
  step u t t' -> forallb dated t = true -> forallb dated t' = true.
Proof.
  intros H Hall. rewrite forallb_forall in *.
  destruct H as [g t Hid Hfix|r t Hfresh Hu Hd|cond t Hc|t].
  - intros x Hx. apply in_map_iff in Hx as (r & <- & Hr).
    unfold dated. destruct (Hid r) as (_ & -> & _). now apply Hall.
  - intros x Hx. apply in_app_iff in Hx as [Hx|[<-|[]]]; auto.
  - intros x Hx. apply filter_In in Hx as [Hx _]. auto.
  - intros x Hx. apply in_map_iff in Hx as (r & <- & Hr).
    unfold dated. destruct (claim_keeps_identity u r) as [_ ->].
    now apply Hall.
Qed.

Section Invariants.

Variable zone : JsDate -> Z.
Variable date_in : string -> option JsDate.
Variable timestamptz_in : string -> option JsDate.

(** X1: whatever a caller sends to [/api/items], and whether it succeeds
    or fails, the rows that belong to another user come out of the
    request exactly as they went in: none changed, none deleted, none
    added, in the same order. *)
Theorem other_users_rows_untouched claimed u v req fs tbl :
  String.eqb u v = false ->
  filter (owned_by v)
    (snd (serve_app (api claimed u (route zone date_in timestamptz_in u req))
            fs tbl))
  = filter (owned_by v) tbl.
Proof.
  intros Huv.
  induction (request_steps zone date_in timestamptz_in claimed u req fs tbl)
    as [|t t1 t2 _ IH Hs]; [reflexivity|].
  rewrite <- IH. now apply (@step_others u v t1 t2 Huv).
Qed.

(** X2: a table whose ids are pairwise distinct still has pairwise
    distinct ids after any request to [/api/items]. *)
Theorem ids_stay_distinct claimed u req fs tbl :
  NoDup (map Row.id tbl) ->
  NoDup (map Row.id
           (snd (serve_app
                   (api claimed u (route zone date_in timestamptz_in u req))
                   fs tbl))).
Proof.
  intros Hnd.
  induction (request_steps zone date_in timestamptz_in claimed u req fs tbl)
    as [|t t1 t2 _ IH Hs]; [exact Hnd|].
  eapply step_ids; eauto.
Qed.

(** X3: no request to [/api/items] leaves a row without [created_at] in
    a table that had none. *)
Theorem created_at_stays_set claimed u req fs tbl :
  forallb dated tbl = true ->
  forallb dated
    (snd (serve_app (api claimed u (route zone date_in timestamptz_in u req))
            fs tbl)) = true.
Proof.
  intros Hall.
  induction (request_steps zone date_in timestamptz_in claimed u req fs tbl)
    as [|t t1 t2 _ IH Hs]; [exact Hall|].
  eapply step_dated; eauto.
Qed.

End Invariants.

(* ===================================================================== *)
(** * 18. The order of the listing                                        *)
(* ===================================================================== *)

Lemma ordering_Z : ordering Z.compare.
Proof.
  repeat split.
  - intros a b. apply Z.compare_antisym.
  - intros a b c. rewrite !Z.compare_lt_iff. lia.
  - intros a b c H. apply Z.compare_eq in H. now subst.
Qed.

Lemma ordering_on {A B} (f : A -> B) (cmp : B -> B -> comparison) :
  ordering cmp -> ordering (fun a b => cmp (f a) (f b)).
Proof. intros (H1 & H2 & H3). repeat split; eauto. Qed.

(** In an ordering, equivalent elements compare alike on the right as
    well. *)
Lemma ordering_eq_r {A} (cmp : A -> A -> comparison) a b c :
  ordering cmp -> cmp b c = Eq -> cmp a b = cmp a c.
Proof.
  intros (H1 & _ & H3) H. apply H3 with (c := a) in H.
  rewrite (H1 a b), (H1 a c) in H.
  destruct (cmp a b), (cmp a c); cbn in H; congruence.
Qed.

Lemma ordering_lex {A} (c1 c2 : A -> A -> comparison) :
  ordering c1 -> ordering c2 -> ordering (fun a b => lex (c1 a b) (c2 a b)).
Proof.
  intros O1 O2.
  pose proof O1 as (A1 & T1 & E1). pose proof O2 as (A2 & T2 & E2).
  repeat split.
  - intros a b. rewrite (A1 a b), (A2 a b). destruct (c1 a b); reflexivity.
  - intros a b c Hab Hbc. cbv beta in *.
    destruct (c1 a b) eqn:Eab; cbn [lex] in Hab; try discriminate.
    + rewrite (E1 _ _ c Eab).
      destruct (c1 b c); cbn [lex] in *; try congruence. eauto.
    + destruct (c1 b c) eqn:Ebc; cbn [lex] in Hbc; try discriminate.
      * rewrite <- (@ordering_eq_r _ c1 a b c O1 Ebc). now rewrite Eab.
      * now rewrite (T1 _ _ _ Eab Ebc).
  - intros a b c Hab. cbv beta in *.
    destruct (c1 a b) eqn:Eab; cbn [lex] in Hab; try discriminate.
    rewrite (E1 _ _ c Eab). destruct (c1 b c); cbn [lex]; eauto.
Qed.

Lemma ordering_opp {A} (cmp : A -> A -> comparison) :
  ordering cmp -> ordering (fun a b => CompOpp (cmp a b)).
Proof.
  intros O. pose proof O as (H1 & H2 & H3). repeat split.
  - intros a b. now rewrite (H1 a b).
  - intros a b c Hab Hbc. cbv beta in *.
    assert (Hba : cmp b a = Lt) by (rewrite (H1 a b); destruct (cmp a b);
                                    cbn in *; congruence).
    assert (Hcb : cmp c b = Lt) by (rewrite (H1 b c); destruct (cmp b c);
                                    cbn in *; congruence).
    pose proof (H2 _ _ _ Hcb Hba) as Hca. rewrite (H1 a c) in Hca.
    destruct (cmp a c); cbn in *; congruence.
  - intros a b c Hab. cbv beta in *.
    assert (Hab' : cmp a b = Eq) by (destruct (cmp a b); cbn in *; congruence).
    now rewrite (H3 _ _ c Hab').
Qed.

Lemma ordering_nulls_last {A} (cmp : A -> A -> comparison) :
  ordering cmp -> ordering (compare_nulls_last cmp).
Proof.
  intros (H1 & H2 & H3). repeat split.
  - intros [a|] [b|]; cbn; auto.
  - intros [a|] [b|] [c|]; cbn; try discriminate; eauto.
  - intros [a|] [b|] [c|]; cbn; try discriminate; eauto.
Qed.

Lemma ordering_dates : ordering compare_date.
Proof.
  unfold compare_date.
  repeat (apply ordering_lex; [apply (ordering_on _ ordering_Z)|]).
  apply (ordering_on _ ordering_Z).
Qed.

Lemma ordering_rows : ordering compare_rows.
Proof.
  unfold compare_rows. apply ordering_lex.
  - apply (ordering_on Row.sort_order).
    apply ordering_nulls_last, ordering_Z.
  - apply ordering_opp. apply (ordering_on Row.created_at).
    apply ordering_nulls_last, ordering_dates.
Qed.

Lemma row_le_trans a b c : row_le a b -> row_le b c -> row_le a c.
Proof.
  unfold row_le. pose proof ordering_rows as O.
  pose proof O as (H1 & H2 & H3). intros Hab Hbc.
  destruct (compare_rows a b) eqn:Eab; [| |congruence].
  - now rewrite (H3 _ _ c Eab).
  - destruct (compare_rows b c) eqn:Ebc; [| |congruence].
    + rewrite <- (@ordering_eq_r _ compare_rows a b c O Ebc), Eab.
      discriminate.
    + rewrite (H2 _ _ _ Eab Ebc). discriminate.
Qed.

Lemma insert_sorted_perm r rows : Permutation (insert_sorted r rows) (r :: rows).
Proof.
  induction rows as [|x rest IH]; cbn [insert_sorted]; [reflexivity|].
  destruct (compare_rows r x); try reflexivity.
  rewrite IH. apply perm_swap.
Qed.

Lemma order_by_perm rows : Permutation (order_by rows) rows.
Proof.
  induction rows as [|r rest IH]; cbn [order_by fold_right]; [reflexivity|].
  fold (order_by rest). rewrite insert_sorted_perm. now constructor.
Qed.

Lemma insert_sorted_sorted r rows :
  StronglySorted row_le rows -> StronglySorted row_le (insert_sorted r rows).
Proof.
  induction 1 as [|x rest Hs IH Hall]; cbn [insert_sorted].
  - repeat constructor.
  - assert (Hle : compare_rows r x <> Gt -> 
                  StronglySorted row_le (r :: x :: rest)).
    { intros Hrx. constructor; [now constructor|].
      constructor; [exact Hrx|].
      eapply Forall_impl; [|exact Hall].
      intros z Hz. now apply row_le_trans with x. }
    destruct (compare_rows r x) eqn:Hc.
    + apply Hle. discriminate.
    + apply Hle. discriminate.
    + constructor; [exact IH|].
      assert (Hxr : row_le x r).
      { unfold row_le. destruct ordering_rows as (H1 & _).
        rewrite (H1 r x), Hc. discriminate. }
      apply Forall_forall. intros z Hz.
      apply (Permutation_in _ (insert_sorted_perm r rest)) in Hz.
      destruct Hz as [<-|Hz]; [exact Hxr|].
      rewrite Forall_forall in Hall. now apply Hall.
Qed.

Lemma order_by_sorted rows : StronglySorted row_le (order_by rows).
Proof.
  induction rows as [|r rest IH]; cbn [order_by fold_right]; [constructor|].
  now apply insert_sorted_sorted.
Qed.

Lemma collect_all {A B} (g : A -> option B) xs ys :
  collect g xs = Some ys -> Forall2 (fun x y => g x = Some y) xs ys.
Proof.
  revert ys. induction xs as [|x rest IH]; intros ys H; cbn [collect] in H.
  - inversion H. constructor.
  - destruct (g x) as [y|] eqn:Hg; [|discriminate].
    destruct (collect g rest) as [ys'|]; [|discriminate].
    inversion H; subst. constructor; auto.
Qed.

Lemma collect_some_iff {A B} (g : A -> option B) xs :
  is_none (collect g xs) = negb (forallb (fun x => negb (is_none (g x))) xs).
Proof.
  induction xs as [|x rest IH]; [reflexivity|]. cbn [collect forallb].
  destruct (g x); cbn; [|reflexivity].
  destruct (collect g rest); cbn in *; [now rewrite <- IH|now rewrite <- IH].
Qed.

Lemma forallb_perm {A} (p : A -> bool) l l' :
  Permutation l l' -> forallb p l = forallb p l'.
Proof.
  induction 1; cbn; try congruence.
  - destruct (p y), (p x); reflexivity.
Qed.

(** The listing makes a record of a row exactly when the row renders. *)
Lemma item_of_row_renders zone r :
  negb (is_none (item_of_row zone r)) = renders zone r.
Proof.
  unfold item_of_row, due_of_row, iso, renders.
  destruct (Row.created_at r) as [created|]; [|reflexivity].
  destruct (js_valid created); [|reflexivity].
  destruct (Row.due_date r) as [d|]; [|reflexivity].
  destruct (js_valid (local_midnight zone d)); reflexivity.
Qed.

(** [Number] reads an id below 2^53 exactly, and takes no larger id
    for one of them. *)
Lemma Number_exact z : exact_id z -> Number_of_bigint z = z.
Proof.
  unfold exact_id, Number_of_bigint. intros H. cbv zeta.
  assert (Hlog : Z.log2 (Z.abs z) <= 52).
  { destruct (Z.eq_dec (Z.abs z) 0) as [E|E]; [rewrite E; cbn; lia|].
    assert (Z.log2 (Z.abs z) < 53) by (apply Z.log2_lt_pow2; lia). lia. }
  destruct (Z.leb_spec (Z.log2 (Z.abs z) - 52) 0); [reflexivity|lia].
Qed.

Lemma Number_large z :
  2 ^ 53 <= Z.abs z -> 2 ^ 53 <= Z.abs (Number_of_bigint z).
Proof.
  intros H. unfold Number_of_bigint. cbv zeta.
  destruct (Z.leb_spec (Z.log2 (Z.abs z) - 52) 0) as [He|He]; [exact H|].
  assert (Hpos : 0 < 2 ^ 53) by (apply Z.pow_pos_nonneg; lia).
  assert (Ha : 0 < Z.abs z) by lia.
  destruct (Z.log2_spec _ Ha) as [Hlo _].
  set (e := Z.log2 (Z.abs z) - 52) in *.
  assert (Hpow : 2 ^ Z.log2 (Z.abs z) = 2 ^ 52 * 2 ^ e).
  { unfold e. rewrite <- Z.pow_add_r by lia. f_equal. lia. }
  assert (Hq : 2 ^ 52 <= Z.abs z / 2 ^ e).
  { apply Z.div_le_lower_bound; [apply Z.pow_pos_nonneg; lia|].
    rewrite Z.mul_comm, <- Hpow. exact Hlo. }
  assert (He2 : 2 ^ 1 <= 2 ^ e) by (apply Z.pow_le_mono_r; lia).
  set (q' := if Z.abs z mod 2 ^ e <? 2 ^ (e - 1) then Z.abs z / 2 ^ e
             else if 2 ^ (e - 1) <? Z.abs z mod 2 ^ e
                  then Z.abs z / 2 ^ e + 1
                  else if Z.even (Z.abs z / 2 ^ e) then Z.abs z / 2 ^ e
                       else Z.abs z / 2 ^ e + 1).
  assert (Hq' : Z.abs z / 2 ^ e <= q').
  { unfold q'. destruct (_ <? _); [lia|]. destruct (_ <? _); [lia|].
    destruct (Z.even _); lia. }
  assert (Hs : Z.abs (Z.sgn z) = 1) by (destruct z; cbn in *; lia).
  rewrite Z.abs_mul, Hs, Z.mul_1_l, Z.abs_eq.
  - change (2 ^ 53) with (2 ^ 52 * 2 ^ 1).
    assert (0 < 2 ^ 52) by (apply Z.pow_pos_nonneg; lia).
    apply Z.mul_le_mono_nonneg; lia.
  - assert (0 < 2 ^ 52) by (apply Z.pow_pos_nonneg; lia).
    assert (0 < 2 ^ 1) by (apply Z.pow_pos_nonneg; lia).
    apply Z.mul_nonneg_nonneg; lia.
Qed.

Lemma Number_keeps_exact z i :
  exact_id i -> Number_of_bigint z = i -> z = i.
Proof.
  intros Hi Hz. destruct (Z.lt_ge_cases (Z.abs z) (2 ^ 53)) as [H|H].
  - now rewrite (@Number_exact z H) in Hz.
  - apply Number_large in H. rewrite Hz in H. unfold exact_id in Hi. lia.
Qed.

Lemma item_of_row_id zone row rec :
  item_of_row zone row = Some rec ->
  prop "id" rec = Some (JNum (Number_of_bigint (Row.id row))).
Proof.
  unfold item_of_row. destruct (Row.created_at row); [|discriminate].
  destruct (iso _); [|discriminate]. destruct (due_of_row _ _); [|discriminate].
  intros H. inversion H. reflexivity.
Qed.

Lemma forallb_same {A} (p q : A -> bool) l :
  (forall x, p x = q x) -> forallb p l = forallb q l.
Proof.
  intros H. induction l as [|x l IH]; [reflexivity|].
  cbn [forallb]. now rewrite H, IH.
Qed.

(** X4: [GET /api/items] never changes the table, and when it answers
    200 its records are the caller's rows, each row once and no row of
    anyone else, in the order of [sort_order] ascending (rows without one
    last) and, among equals, [created_at] descending. *)
Theorem get_items_listing zone u fs tbl :
  snd (serve (get_items zone u) fs tbl) = tbl
  /\ forall res,
      fst (serve (get_items zone u) fs tbl) = Some res ->
      status res = 200 ->
      exists rows recs,
        body res = JArr recs
        /\ Permutation rows (filter (owned_by u) tbl)
        /\ StronglySorted row_le rows
        /\ Forall2 (fun row rec => item_of_row zone row = Some rec) rows recs.
Proof.
  rewrite get_items_serve. split; [reflexivity|].
  cbn [fst]. intros res H Hs. inversion H; subst; clear H.
  destruct (hd false fs); [discriminate|].
  destruct (collect (item_of_row zone) _) as [recs|] eqn:Hc; [|discriminate].
  exists (order_by (filter (owned_by u) tbl)), recs.
  split; [reflexivity|]. split; [apply order_by_perm|].
  split; [apply order_by_sorted|now apply collect_all].
Qed.


(* ===================================================================== *)
(** * 19. Creating, then reading                                          *)
(* ===================================================================== *)

Lemma or_else_again (v : Field string) :
  or_else (Val (or_else v "")) "" = or_else v "".
Proof.
  unfold or_else, falsy, Falsy_string. destruct v as [| |s]; try reflexivity.
  destruct (String.eqb s "") eqn:E; [reflexivity|now rewrite E].
Qed.

Section Reading.

Variable zone : JsDate -> Z.
Variable date_in : string -> option JsDate.
Variable timestamptz_in : string -> option JsDate.

(** The record [GET /api/items] makes of the row an INSERT stores shows
    the item that was posted. *)
Lemma new_row_reads_back u now item row rec :
  new_row date_in timestamptz_in now (insert_params u now item) = Some row ->
  item_of_row zone row = Some rec ->
  reads_back item rec.
Proof.
  unfold new_row. cbn [insert_params Cols.id Cols.text Cols.type
    Cols.category Cols.priority Cols.created_at Cols.due_date Cols.completed
    Cols.notes Cols.sort_order Cols.user_id stored read].
  intros H.
  destruct (Req.id item) as [| |i] eqn:Hi; cbn [param stored] in H;
    try discriminate.
  destruct (Req.text item) as [| |t] eqn:Ht; cbn [param stored] in H;
    try discriminate.
  destruct (timestamptz_in _) as [created|]; [|discriminate].
  destruct (read date_in _) as [due|]; [|discriminate].
  inversion H; subst row; clear H.
  unfold item_of_row, due_of_row, iso. cbn [Row.created_at Row.due_date stored].
  destruct (js_valid created); [|discriminate].
  intros Hrec.
  assert (Hshape : exists dueDate,
             rec = JObj
               [ ("id", JNum (Number_of_bigint i));
                 ("text", JStr t);
                 ("completed", JBool (or_else (Req.completed item) false));
                 ("createdAt", JStr (toISOString created));
                 ("type", JStr (or_else (Req.type item) "task"));
                 ("category", JStr (or_else (Req.category item) "personal"));
                 ("priority", JStr (or_else (Req.priority item) "medium"));
                 ("dueDate", dueDate);
                 ("notes", JStr (or_else (Val (or_else (Req.notes item) ""))
                                   ""));
                 ("order", JNum (or_else (Req.order item) 0)) ]).
  { destruct (stored due None) as [d|].
    - destruct (js_valid (local_midnight zone d)); [|discriminate].
      inversion Hrec. eexists. reflexivity.
    - inversion Hrec. eexists. reflexivity. }
  destruct Hshape as (dueDate & ->). clear Hrec.
  exists i, t. cbn [Row.id Row.text Row.completed Row.type Row.category
    Row.priority Row.notes Row.sort_order of_option json_opt].
  rewrite (or_else_again (Req.notes item)).
  split; [exact Hi|]. split; [exact Ht|]. repeat split; reflexivity.
Qed.

(** The id an accepted INSERT stores is the one the item carries, and no
    row of the table had it. *)
Lemma insert_stmt_id u now item t rows t1 :
  insert_stmt date_in timestamptz_in u now item t = Some (rows, t1) ->
  exists row, rows = [row] /\ t1 = t ++ [row]
    /\ Req.id item = Val (Row.id row)
    /\ ~ In (Row.id row) (map Row.id t)
    /\ new_row date_in timestamptz_in now (insert_params u now item)
       = Some row.
Proof.
  unfold insert_stmt, sql_insert. intros H.
  destruct (new_row _ _ _ _) as [row|] eqn:Hrow; [|discriminate].
  destruct (existsb _ t) eqn:Hex; [discriminate|].
  inversion H; subst. exists row. repeat split; try reflexivity.
  - clear Hex H. unfold new_row in Hrow.
    cbn [insert_params Cols.id Cols.text Cols.type
      Cols.category Cols.priority Cols.created_at Cols.due_date Cols.completed
      Cols.notes Cols.sort_order Cols.user_id stored read] in Hrow.
    destruct (Req.id item) as [| |i]; cbn [param stored] in Hrow;
      try discriminate.
    destruct (stored (param (Req.text item)) None); [|discriminate].
    destruct (timestamptz_in _) as [created|]; [|discriminate].
    destruct (read date_in _); [|discriminate].
    inversion Hrow; reflexivity.
  - intros Hin. apply in_map_iff in Hin as (x & Hx & Hin).
    assert (existsb (fun x0 => Row.id x0 =? Row.id row) t = true).
    { apply existsb_exists. exists x. split; [assumption|].
      now apply Z.eqb_eq. }
    congruence.
Qed.

Lemma run_insert_ids u now items :
  forall fs t results t1 fs1,
    run (insert_stmt date_in timestamptz_in u now) items fs t
    = (Some results, t1, fs1) ->
    exists ids,
      map Req.id items = map (@Val Z) ids
      /\ map Row.id t1 = map Row.id t ++ ids
      /\ NoDup ids
      /\ (forall i, In i ids -> ~ In i (map Row.id t)).
Proof.
  induction items as [|item rest IH]; intros fs t results t1 fs1 H;
    cbn [run] in H.
  - inversion H; subst. exists []. rewrite app_nil_r.
    repeat split; try constructor. intros i [].
  - destruct (hd false fs); [discriminate|].
    destruct (insert_stmt _ _ _ _ item t) as [[rows t2]|] eqn:Hins;
      [|discriminate].
    apply insert_stmt_id in Hins as (row & -> & -> & Hid & Hfresh & _).
    destruct (run _ rest (tl fs) (t ++ [row])) as [[r t3] fs3] eqn:Hrest.
    destruct r as [rs|]; [|discriminate].
    inversion H; subst. apply IH in Hrest as (ids & Hids & Ht & Hnd & Hfr).
    exists (Row.id row :: ids). cbn [map]. rewrite Hid, Hids, Ht.
    rewrite map_app, <- app_assoc. cbn [map app].
    split; [reflexivity|]. split; [reflexivity|]. split.
    + constructor; [|exact Hnd]. intros Hin. apply (Hfr _ Hin).
      rewrite map_app. apply in_or_app. right. now left.
    + intros i [<-|Hin]; [exact Hfresh|]. intros Hi. apply (Hfr _ Hin).
      rewrite map_app. apply in_or_app. now left.
Qed.


(** X7: when [POST /api/items] answers 200, every item of the body
    carried an id, these ids are pairwise different, and none of them
    was the id of a row of the table, whoever owns that row.  So a body
    that repeats an id, or names the id of anybody's row, gets 500. *)
Theorem post_items_fresh_ids u now b fs tbl :
  let supplied := match b with
                  | One item => [item]
                  | Many items => items
                  end in
  option_map status
    (fst (serve (post_items date_in timestamptz_in u now b) fs tbl))
  = Some 200 ->
  exists ids,
    map Req.id supplied = map (@Val Z) ids
    /\ NoDup ids
    /\ (forall i, In i ids -> ~ In i (map Row.id tbl))
    /\ map Row.id
         (snd (serve (post_items date_in timestamptz_in u now b) fs tbl))
       = map Row.id tbl ++ ids.
Proof.
  cbv zeta.
  change (match b with
          | One item => [item]
          | Many items => items
          end) with (items_of b).
  unfold serve. rewrite post_items_js.
  destruct (run _ (items_of b) fs tbl) as [[r t] fs1] eqn:Hrun.
  destruct r as [results|]; [|discriminate]. intros _.
  apply run_insert_ids in Hrun as (ids & Hids & Ht & Hnd & Hfr).
  exists ids. cbn [snd committed]. auto.
Qed.

End Reading.

(* ===================================================================== *)
(** * 20. Updating and deleting, again                                    *)
(* ===================================================================== *)

Lemma no_faults_hd fs : forallb negb fs = true -> hd false fs = false.
Proof. destruct fs as [|[] fs]; cbn; congruence. Qed.

Lemma no_faults_tl fs : forallb negb fs = true -> forallb negb (tl fs) = true.
Proof. destruct fs as [|[] fs]; cbn; congruence. Qed.

Lemma filter_none_keeps {A} (p : A -> bool) l :
  existsb p l = false -> filter (fun x => negb (p x)) l = l.
Proof.
  induction l as [|x l IH]; [reflexivity|]. cbn [existsb filter].
  destruct (p x); [discriminate|]. cbn [orb negb]. intros H.
  now rewrite (IH H).
Qed.

Lemma filter_map_comm {A} (p : A -> bool) (g : A -> A) l :
  (forall x, p (g x) = p x) ->
  filter p (map g l) = map g (filter p l).
Proof.
  intros Hp. induction l as [|x l IH]; [reflexivity|].
  cbn [map filter]. rewrite Hp. destruct (p x); cbn [map]; now rewrite IH.
Qed.

Lemma existsb_map_same {A} (p : A -> bool) (g : A -> A) l :
  (forall x, p (g x) = p x) -> existsb p (map g l) = existsb p l.
Proof.
  intros Hp. induction l as [|x l IH]; [reflexivity|].
  cbn [map existsb]. now rewrite Hp, IH.
Qed.

Lemma nullish_again {A} (v : Field A) (d : A) :
  nullish v (nullish v d) = nullish v d.
Proof. now destruct v. Qed.

Lemma stored_again {A} (v : Field A) (o : option A) :
  stored v (stored v o) = stored v o.
Proof. now destruct v. Qed.

(** Assigning the same values twice is assigning them once. *)
Lemma assign_again c due r :
  assign c due (assign c due r) = assign c due r.
Proof.
  unfold assign. cbn [Row.id Row.text Row.completed Row.created_at Row.type
    Row.category Row.priority Row.due_date Row.notes Row.sort_order
    Row.user_id].
  now rewrite !nullish_again, !stored_again.
Qed.

Lemma mine_assign u id c due r : mine u id (assign c due r) = mine u id r.
Proof. destruct r. reflexivity. Qed.

Lemma Forall2_In_r {A B} (R : A -> B -> Prop) xs ys y :
  Forall2 R xs ys -> In y ys -> exists x, In x xs /\ R x y.
Proof.
  induction 1 as [|a b l l' Hab _ IH]; intros Hin; [destruct Hin|].
  destruct Hin as [<-|Hin].
  - exists a. split; [now left|exact Hab].
  - destruct (IH Hin) as (x & Hx & Hr). exists x. split; [now right|exact Hr].
Qed.

(** [DELETE /api/items/:id] of the validated server at a glance. *)
Lemma delete_item_checked_serve u i fs tbl :
  0 < i ->
  serve (delete_item_checked u (Val i)) fs tbl
  = if hd false fs then (Some (fail 500 "Failed to delete item"), tbl)
    else if existsb (mine u (Val i)) tbl
         then (Some (json success),
               filter (fun r => negb (mine u (Val i) r)) tbl)
         else (Some (fail 404 "Item not found or unauthorized"), tbl).
Proof.
  intros Hi. unfold serve, delete_item_checked.
  destruct (i <=? 0) eqn:Hle; [apply Z.leb_le in Hle; lia|].
  unfold try_catch, bind, query, sql_delete, ret.
  cbn [faults current working committed set_current].
  destruct (hd false fs); [reflexivity|].
  cbn [set_current working committed].
  destruct (existsb (mine u (Val i)) tbl) eqn:Hex.
  - destruct (filter (mine u (Val i)) tbl) as [|row rest] eqn:Hf.
    { apply existsb_filter_nil in Hf. congruence. }
    reflexivity.
  - pose proof Hex as Hf. apply existsb_filter_nil in Hf. rewrite Hf.
    cbn [committed]. now rewrite (filter_none_keeps _ _ Hex).
Qed.

Section Again.

Variable zone : JsDate -> Z.
Variable date_in : string -> option JsDate.
Variable timestamptz_in : string -> option JsDate.

Lemma update_stmt_missing u item t :
  existsb (mine u (Req.id item)) t = false ->
  update_stmt date_in u item t
  = match read date_in (or_null (Req.dueDate item)) with
    | Some _ => Some ([], t)
    | None => None
    end.
Proof.
  unfold update_stmt, sql_update, mine. intros ->.
  change (Cols.due_date (update_params item))
    with (or_null (Req.dueDate item)).
  now destruct (read date_in (or_null (Req.dueDate item))).
Qed.

Lemma run_update_missing u tbl items :
  (forall item, In item items ->
                existsb (mine u (Req.id item)) tbl = false) ->
  (forall item, In item items ->
                read date_in (or_null (Req.dueDate item)) <> None) ->
  forall fs, forallb negb fs = true ->
  exists results fs1,
    run (update_stmt date_in u) items fs tbl = (Some results, tbl, fs1).
Proof.
  induction items as [|item rest IH]; intros Hmiss Hdue fs Hfs; cbn [run].
  - now exists [], fs.
  - rewrite (no_faults_hd _ Hfs).
    rewrite (@update_stmt_missing u item tbl (Hmiss item (or_introl eq_refl))).
    destruct (read date_in (or_null (Req.dueDate item))) eqn:Hr.
    2:{ exfalso. now apply (Hdue item (or_introl eq_refl)). }
    destruct (IH (fun i Hi => Hmiss i (or_intror Hi))
                 (fun i Hi => Hdue i (or_intror Hi))
                 (tl fs) (no_faults_tl _ Hfs)) as (results & fs1 & ->).
    now exists ([] :: results), fs1.
Qed.

Lemma put_item_serve u id item fs tbl :
  serve (put_item date_in u id item) fs tbl
  = serve
      (try_catch
         (rows <- query (fun t =>
                    match id with
                    | Val _ => sql_update date_in (update_params item)
                                 (mine u id) t
                    | _ => None
                    end) ;;
          match rows with
          | [] => ret (fail 404 "Item not found")
          | row :: _ => ret (json (row_json row))
          end)
         (ret (fail 500 "Failed to update item"))) fs tbl.
Proof. reflexivity. Qed.

Lemma put_item_checked_serve u i item fs tbl :
  0 < i ->
  serve (put_item_checked date_in u (Val i) item) fs tbl
  = serve
      (try_catch
         (rows <- query (fun t =>
                    match Val i with
                    | Val _ => sql_update date_in (update_params item)
                                 (mine u (Val i)) t
                    | _ => None
                    end) ;;
          match rows with
          | [] => ret (fail 404 "Item not found or unauthorized")
          | row :: _ => ret (json (row_json row))
          end)
         (ret (fail 500 "Failed to update item"))) fs tbl.
Proof.
  intros Hi. unfold put_item_checked.
  destruct (i <=? 0) eqn:Hle; [apply Z.leb_le in Hle; lia|]. reflexivity.
Qed.

(** X8: a bulk update whose items name no row of the caller (ids that
    do not exist, or ids of rows of somebody else) is answered with
    success although it changes nothing, where the single-item update of
    any of these items is answered 404. *)
Theorem put_items_of_others u items fs tbl :
  (forall item, In item items ->
                existsb (mine u (Req.id item)) tbl = false) ->
  (forall item, In item items ->
                read date_in (or_null (Req.dueDate item)) <> None) ->
  forallb negb fs = true ->
  serve (put_items date_in u items) fs tbl = (Some (json success), tbl)
  /\ forall item, In item items -> is_val (Req.id item) = true ->
       serve (put_item date_in u (Req.id item) item) fs tbl
       = (Some (fail 404 "Item not found"), tbl).
Proof.
  intros Hmiss Hdue Hfs. split.
  - unfold serve. rewrite put_items_js.
    destruct (run_update_missing u tbl items Hmiss Hdue fs Hfs)
      as (results & fs1 & ->). reflexivity.
  - intros item Hin Hid. unfold put_item.
    rewrite single_update_outcomes.
    unfold update_refused.
    change (fun r => id_is (Req.id item) r && owned_by u r)
      with (mine u (Req.id item)).
    rewrite (no_faults_hd _ Hfs), Hid, (Hmiss item Hin).
    change (Cols.due_date (update_params item))
      with (or_null (Req.dueDate item)).
    destruct (read date_in (or_null (Req.dueDate item))) eqn:Hr.
    2:{ exfalso. now apply (Hdue item Hin). }
    cbn [is_none negb orb andb].
    pose proof (Hmiss item Hin) as Hm.
    apply existsb_filter_nil in Hm. now rewrite Hm.
Qed.

(** X9: [PUT /api/items/:id] can be retried: sent again to the table the
    first attempt left, with neither attempt disturbed, it gives the same
    answer and leaves the same table. *)
Theorem put_item_retry u id item fs fs' tbl :
  hd false fs = false -> hd false fs' = false ->
  serve (put_item date_in u id item) fs'
    (snd (serve (put_item date_in u id item) fs tbl))
  = serve (put_item date_in u id item) fs tbl.
Proof.
  intros Hfs Hfs'. unfold put_item.
  change (fun r => id_is id r && owned_by u r) with (mine u id).
  rewrite (single_update_outcomes date_in (mine u id) "Item not found"
             id item fs tbl).
  assert (Hsame : forall t,
             update_refused date_in (mine u id) id item fs' t
             = update_refused date_in (mine u id) id item fs t).
  { intros t. unfold update_refused. now rewrite Hfs, Hfs'. }
  destruct (update_refused date_in (mine u id) id item fs tbl) eqn:Href.
  - cbn [snd]. rewrite single_update_outcomes, Hsame, Href. reflexivity.
  - destruct (read date_in (or_null (Req.dueDate item))) as [due|] eqn:Hr.
    2:{ cbn [snd]. rewrite single_update_outcomes, Hsame, Href, Hr.
        reflexivity. }
    destruct (filter (mine u id) tbl) as [|row rest] eqn:Hf.
    { cbn [snd]. rewrite single_update_outcomes, Hsame, Href, Hr, Hf.
      reflexivity. }
    cbn [snd]. rewrite single_update_outcomes, Hsame, Hr.
    set (g := fun r => if mine u id r
                       then assign (update_params item) due r else r).
    assert (Hg : forall r, mine u id (g r) = mine u id r).
    { intros r. unfold g. destruct (mine u id r) eqn:Hm; [|exact Hm].
      now rewrite mine_assign. }
    assert (Href' : update_refused date_in (mine u id) id item fs (map g tbl)
                    = false).
    { unfold update_refused in *.
      now rewrite (existsb_map_same _ g tbl Hg). }
    rewrite Href'. rewrite (filter_map_comm _ g tbl Hg), Hf. cbn [map].
    assert (Hrow : mine u id row = true).
    { assert (Hin : In row (filter (mine u id) tbl))
        by (rewrite Hf; now left).
      now apply filter_In in Hin. }
    unfold g at 1. rewrite Hrow. rewrite assign_again.
    f_equal. rewrite map_map. apply map_ext. intros r.
    unfold g. destruct (mine u id r) eqn:Hm.
    + now rewrite mine_assign, Hm, assign_again.
    + now rewrite Hm.
Qed.

(** X10: after [DELETE /api/items/:id] has answered success the caller
    has no row of that id: the table is the old one without it, deleting
    again changes nothing, an update of that id is never answered 200,
    and, for an id below 2^53, which [Number] reads exactly, no record
    the listing returns carries the id. *)
Theorem delete_item_then u i fs tbl :
  fst (serve (delete_item u (Val i)) fs tbl) = Some (json success) ->
  let tbl1 := snd (serve (delete_item u (Val i)) fs tbl) in
  (forall r, In r tbl1 <-> In r tbl /\ mine u (Val i) r = false)
  /\ (forall fs', snd (serve (delete_item u (Val i)) fs' tbl1) = tbl1)
  /\ (forall item fs',
        option_map status
          (fst (serve (put_item date_in u (Val i) item) fs' tbl1))
        <> Some 200)
  /\ (exact_id i ->
      forall fs' recs rec,
        fst (serve (get_items zone u) fs' tbl1) = Some (json (JArr recs)) ->
        In rec recs -> prop "id" rec <> Some (JNum i)).
Proof.
  rewrite delete_item_serve. cbn [is_val negb]. rewrite orb_false_r.
  destruct (hd false fs); [discriminate|]. intros _. cbn [snd].
  set (tbl1 := filter (fun r => negb (mine u (Val i) r)) tbl).
  assert (Hin : forall r, In r tbl1 <-> In r tbl /\ mine u (Val i) r = false).
  { intros r. unfold tbl1. rewrite filter_In, negb_true_iff. reflexivity. }
  assert (Hnone : existsb (mine u (Val i)) tbl1 = false).
  { destruct (existsb (mine u (Val i)) tbl1) eqn:Hex; [|reflexivity].
    apply existsb_exists in Hex as (r & Hr & Hm).
    apply Hin in Hr as [_ Hr]. congruence. }
  split; [exact Hin|]. split; [|split].
  - intros fs'. rewrite delete_item_serve.
    destruct (hd false fs' || negb (is_val (Val i))); [reflexivity|].
    cbn [snd]. now apply filter_none_keeps.
  - intros item fs'. unfold put_item.
    pose proof (single_update_outcomes date_in (mine u (Val i))
                  "Item not found" (Val i) item fs' tbl1) as Hp.
    cbv beta iota in Hp. unfold mine at 1 in Hp. rewrite Hp. clear Hp.
    destruct (update_refused _ _ _ _ _ _); [discriminate|].
    apply existsb_filter_nil in Hnone. rewrite Hnone.
    destruct (read date_in _); discriminate.
  - intros Hi fs' recs rec. rewrite get_items_serve. cbn [fst].
    destruct (hd false fs'); [discriminate|].
    destruct (collect (item_of_row zone) _) as [recs'|] eqn:Hc;
      [|discriminate].
    intros H Hrec. inversion H; subst recs'; clear H.
    apply collect_all in Hc.
    destruct (@Forall2_In_r _ _ _ _ _ rec Hc Hrec) as (row & Hrow & Hitem).
    apply (Permutation_in _ (order_by_perm _)) in Hrow.
    apply filter_In in Hrow as [Hrow Hown].
    apply Hin in Hrow as [_ Hm]. unfold mine in Hm. rewrite Hown in Hm.
    rewrite andb_true_r in Hm. cbn [id_is] in Hm.
    rewrite (item_of_row_id _ _ Hitem). intros Heq. inversion Heq as [Hnum].
    apply (@Number_keeps_exact _ _ Hi) in Hnum. rewrite Z.eqb_neq in Hm.
    congruence.
Qed.

(** X11: the two [DELETE /api/items/:id] handlers, on a path segment
    both read as the positive integer [i], leave the same table; they
    give the same answer unless the statement runs and the caller has no
    such row, which the validated server answers 404 and the other one
    success. *)
Theorem delete_variants u i fs tbl :
  0 < i ->
  snd (serve (delete_item_checked u (Val i)) fs tbl)
  = snd (serve (delete_item u (Val i)) fs tbl)
  /\ if negb (hd false fs) && negb (existsb (mine u (Val i)) tbl)
     then fst (serve (delete_item_checked u (Val i)) fs tbl)
          = Some (fail 404 "Item not found or unauthorized")
          /\ fst (serve (delete_item u (Val i)) fs tbl) = Some (json success)
     else fst (serve (delete_item_checked u (Val i)) fs tbl)
          = fst (serve (delete_item u (Val i)) fs tbl).
Proof.
  intros Hi. rewrite delete_item_serve, (delete_item_checked_serve u fs tbl Hi).
  cbn [is_val negb]. rewrite orb_false_r.
  destruct (hd false fs); [split; reflexivity|]. cbn [negb andb].
  destruct (existsb (mine u (Val i)) tbl) eqn:Hex; cbn [negb fst snd].
  - split; reflexivity.
  - split; [|split; reflexivity]. symmetry. now apply filter_none_keeps.
Qed.

(** X12: the two [PUT /api/items/:id] handlers, on a path segment both
    read as the positive integer [i], leave the same table and answer
    with the same status; the answers are the same unless that status is
    404. *)
Theorem put_item_variants u i item fs tbl :
  0 < i ->
  let checked := serve (put_item_checked date_in u (Val i) item) fs tbl in
  let plain := serve (put_item date_in u (Val i) item) fs tbl in
  snd checked = snd plain
  /\ option_map status (fst checked) = option_map status (fst plain)
  /\ (option_map status (fst plain) <> Some 404 -> fst checked = fst plain).
Proof.
  intros Hi. cbv zeta.
  rewrite (put_item_checked_serve u item fs tbl Hi), put_item_serve.
  pose proof (single_update_outcomes date_in (mine u (Val i))
                "Item not found or unauthorized" (Val i) item fs tbl) as Hc.
  pose proof (single_update_outcomes date_in (mine u (Val i))
                "Item not found" (Val i) item fs tbl) as Hp.
  cbv beta iota in Hc, Hp. rewrite Hc, Hp. clear Hc Hp.
  destruct (update_refused _ _ _ _ _ _); [repeat split|].
  destruct (read date_in _); [|repeat split; intros H; now elim H].
  destruct (filter _ tbl); [repeat split; intros H; now elim H|].
  repeat split.
Qed.

(** X13: for an item whose id is given, the single-item update and the
    bulk update of that one item leave the same table, and the one is
    answered 500 exactly when the other is. *)
Theorem put_item_as_bulk u item fs tbl :
  is_val (Req.id item) = true ->
  let single := serve (put_item date_in u (Req.id item) item) fs tbl in
  let bulk := serve (put_items date_in u [item]) fs tbl in
  snd single = snd bulk
  /\ (option_map status (fst single) = Some 500
      <-> option_map status (fst bulk) = Some 500).
Proof.
  intros Hid. cbv zeta. unfold put_item.
  rewrite single_update_outcomes.
  unfold serve. rewrite put_items_js. cbn [run].
  unfold update_refused. rewrite Hid. cbn [negb]. rewrite orb_false_r.
  destruct (hd false fs); [split; [reflexivity|split; intros _; reflexivity]|]. cbn [orb].
  unfold update_stmt, sql_update.
  change (Cols.due_date (update_params item))
    with (or_null (Req.dueDate item)).
  destruct (read date_in (or_null (Req.dueDate item))) as [due|];
    [|split; [reflexivity|split; intros _; reflexivity]].
  cbn [is_none orb].
  destruct (existsb _ tbl) eqn:Hex; cbn [andb].
  - destruct (violates_not_null (update_params item));
      [split; [reflexivity|split; intros _; reflexivity]|].
    destruct (filter _ tbl) as [|row rest] eqn:Hf.
    { apply existsb_filter_nil in Hf. congruence. }
    cbn. split; [reflexivity|]. split; discriminate.
  - apply existsb_filter_nil in Hex. rewrite Hex.
    cbn. split; [reflexivity|]. split; discriminate.
Qed.

End Again.

(* ===================================================================== *)
(** * 21. The migration middleware                                        *)
(* ===================================================================== *)

Lemma claimed_all u t : existsb unclaimed (map (claim u) t) = false.
Proof.
  induction t as [|r t IH]; [reflexivity|]. cbn [map existsb]. rewrite IH.
  unfold claim. destruct (unclaimed r) eqn:Hr; [reflexivity|now rewrite Hr].
Qed.

Lemma none_unclaimed t :
  (0 <? Z.of_nat (List.length (filter unclaimed t))) = false ->
  existsb unclaimed t = false.
Proof.
  intros H. apply existsb_filter_nil.
  destruct (filter unclaimed t); [reflexivity|].
  cbn [List.length] in H. apply Z.ltb_ge in H. lia.
Qed.

(** When the middleware sets the flag, no row is left without owner. *)
Lemma claim_unclaimed_done u c fs found fs1 :
  claim_unclaimed false u (mkWorld c None fs)
  = (mkWorld found None fs1, Some true) ->
  existsb unclaimed found = false.
Proof.
  unfold claim_unclaimed, try_catch, bind, query, ret, sql_count_unclaimed,
    sql_claim, sql_elsewhere.
  cbn [faults current working committed set_current].
  destruct (hd false fs); [discriminate|].
  cbn [faults current working committed set_current].
  destruct (0 <? Z.of_nat (List.length (filter unclaimed c))) eqn:Hcount.
  2:{ intros H. inversion H; subst. now apply none_unclaimed. }
  cbn [faults current working committed set_current].
  destruct (hd false (tl fs)); [discriminate|].
  cbn [faults current working committed set_current].
  destruct (hd false (tl (tl fs))); [discriminate|].
  cbn [faults current working committed set_current].
  destruct (hd false (tl (tl (tl fs)))); [discriminate|].
  intros H. inversion H; subst. apply claimed_all.
Qed.

Lemma step_owners u t t' :
  step u t t' -> existsb unclaimed t = false -> existsb unclaimed t' = false.
Proof.
  intros H Hnone. destruct H as [g t Hid Hfix|r t Hfresh Hu Hd|cond t Hc|t].
  - rewrite <- Hnone. apply existsb_map_same. intros r. unfold unclaimed.
    now destruct (Hid r) as (_ & _ & ->).
  - rewrite existsb_app, Hnone. cbn [existsb]. unfold unclaimed.
    now rewrite Hu.
  - apply existsb_filter_nil in Hnone. apply existsb_filter_nil.
    clear - Hnone. induction t as [|r t IH]; [reflexivity|].
    cbn [filter] in *. destruct (unclaimed r) eqn:Hr; [discriminate|].
    destruct (negb (cond r)); cbn [filter]; [rewrite Hr|]; auto.
  - apply claimed_all.
Qed.

Lemma steps_owners u t t' :
  steps u t t' -> existsb unclaimed t = false -> existsb unclaimed t' = false.
Proof.
  induction 1 as [|t t1 t2 _ IH Hs]; [auto|].
  intros H. eapply step_owners; eauto.
Qed.

Section Migration.

Variable zone : JsDate -> Z.
Variable date_in : string -> option JsDate.
Variable timestamptz_in : string -> option JsDate.

(** X14: the flag [unclaimedDataClaimed] tells the truth: if it is set
    only when no row is without owner, then after any request to
    [/api/items] that leaves it set no row is without owner; in
    particular the request on which the middleware sets it leaves none. *)
Theorem flag_means_claimed claimed u req fs tbl flag res :
  (claimed = true -> existsb unclaimed tbl = false) ->
  fst (serve_app (api claimed u (route zone date_in timestamptz_in u req)) fs tbl)
  = Some (flag, res) ->
  flag = true ->
  existsb unclaimed
    (snd (serve_app (api claimed u (route zone date_in timestamptz_in u req))
            fs tbl)) = false.
Proof.
  intros Hinv.
  destruct (serve_api claimed u (route zone date_in timestamptz_in u req) fs tbl)
    as (found & fs1 & flag0 & Hmw & _ & ->).
  cbn [fst snd]. intros Hres ->.
  assert (Hflag : flag0 = true).
  { destruct (fst (serve _ fs1 found)); cbn in Hres; congruence. }
  subst flag0.
  assert (Hfound : existsb unclaimed found = false).
  { destruct claimed.
    - cbn in Hmw. inversion Hmw; subst. now apply Hinv.
    - eapply claim_unclaimed_done; eassumption. }
  eapply steps_owners; [apply route_steps|exact Hfound].
Qed.

End Migration.

(* ===================================================================== *)
(** * 22. Renaming a custom category                                      *)
(* ===================================================================== *)

Section Renaming.

Variable trim : string -> string.


Lemma put_custom_category_serve u oldName newName newEmoji fs tbl :
  serve (put_custom_category trim u oldName newName newEmoji) fs tbl
  = let failed := Some (fail 500 "Failed to update custom category") in
    let renamed :=
      map (fun r => if filed_under oldName u r
                    then set_category (trim (nullish newName "")) r else r)
          tbl in
    if renames trim oldName newName then
      if hd false fs then (failed, tbl)
      else if hd false (tl fs) then (failed, tbl)
      else if hd false (tl (tl fs)) then (failed, renamed)
      else (Some (json success), renamed)
    else if given newEmoji then
      if hd false fs then (failed, tbl) else (Some (json success), tbl)
    else (Some (json success), tbl).
Proof.
  cbv zeta. unfold serve, put_custom_category, try_catch.
  destruct (renames trim oldName newName); cbn [negb andb].
  - unfold bind, query, ret, sql_elsewhere, sql_recategorize.
    cbn [faults current working committed set_current].
    destruct (hd false fs); [reflexivity|].
    cbn [faults current working committed set_current].
    destruct (hd false (tl fs)); [reflexivity|].
    cbn [faults current working committed set_current].
    destruct (hd false (tl (tl fs))); reflexivity.
  - destruct (given newEmoji); cbn [negb]; [|reflexivity].
    unfold bind, query, ret, sql_elsewhere.
    cbn [faults current working committed set_current].
    destruct (hd false fs); reflexivity.
Qed.

Lemma renames_differs oldName newName :
  renames trim oldName newName = true ->
  String.eqb (trim (nullish newName "")) oldName = false.
Proof.
  unfold renames. destruct newName as [| |s]; try discriminate.
  cbn [nullish]. intros H. apply andb_true_iff in H as [_ H].
  now apply negb_true_iff in H.
Qed.

(** X15: when [PUT /api/custom-categories/:name] renames a category and
    answers success, each item of the caller filed under the old name is
    filed under the new one and is otherwise as it was, every other row,
    the rows other users file under that name among them, is untouched,
    and no item of the caller is filed under the old name any more. *)
Theorem rename_moves_items u oldName newName newEmoji fs tbl :
  renames trim oldName newName = true ->
  fst (serve (put_custom_category trim u oldName newName newEmoji) fs tbl)
  = Some (json success) ->
  let tbl1 :=
    snd (serve (put_custom_category trim u oldName newName newEmoji) fs tbl)
  in
  Forall2 (fun old new =>
             if filed_under oldName u old
             then new = set_category (trim (nullish newName "")) old
             else new = old) tbl tbl1
  /\ existsb (filed_under oldName u) tbl1 = false.
Proof.
  intros Hren. rewrite put_custom_category_serve. cbv zeta. rewrite Hren.
  destruct (hd false fs); [discriminate|].
  destruct (hd false (tl fs)); [discriminate|].
  destruct (hd false (tl (tl fs))); [discriminate|].
  intros _. cbn [snd]. apply renames_differs in Hren. split.
  - induction tbl as [|r t IH]; cbn [map]; constructor; [|exact IH].
    destruct (filed_under oldName u r); reflexivity.
  - induction tbl as [|r t IH]; [reflexivity|]. cbn [map existsb].
    rewrite IH, orb_false_r.
    destruct (filed_under oldName u r) eqn:Hr; [|exact Hr].
    unfold filed_under, set_category. cbn [Row.category].
    now rewrite Hren.
Qed.

(** X16: whatever its outcome, [PUT /api/custom-categories/:name] changes
    nothing but the category of items the caller files under the old
    name, and nothing at all unless a new name is given that, trimmed, is
    neither empty nor the old name. *)
Theorem rename_touches_category_only u oldName newName newEmoji fs tbl :
  Forall2 (fun old new =>
             new = old
             \/ (renames trim oldName newName = true
                 /\ filed_under oldName u old = true
                 /\ new = set_category (trim (nullish newName "")) old))
    tbl
    (snd (serve (put_custom_category trim u oldName newName newEmoji)
            fs tbl)).
Proof.
  rewrite put_custom_category_serve. cbv zeta.
  assert (Hsame : Forall2 (fun old new : Row.t =>
             new = old
             \/ (renames trim oldName newName = true
                 /\ filed_under oldName u old = true
                 /\ new = set_category (trim (nullish newName "")) old))
             tbl tbl).
  { induction tbl; constructor; auto. }
  destruct (renames trim oldName newName) eqn:Hren.
  2:{ destruct (given newEmoji); [destruct (hd false fs)|]; exact Hsame. }
  destruct (hd false fs); [exact Hsame|].
  destruct (hd false (tl fs)); [exact Hsame|].
  assert (Hrenamed : Forall2 (fun old new : Row.t =>
             new = old
             \/ (true = true
                 /\ filed_under oldName u old = true
                 /\ new = set_category (trim (nullish newName "")) old))
             tbl
             (map (fun r => if filed_under oldName u r
                            then set_category (trim (nullish newName "")) r
                            else r) tbl)).
  { clear. induction tbl as [|r t IH]; cbn [map]; constructor; [|exact IH].
    destruct (filed_under oldName u r); auto. }
  destruct (hd false (tl (tl fs))); exact Hrenamed.
Qed.

(** X17: the rename is not atomic: when the statement on the learning
    data, the last of the three, is refused, the answer is a 500 error
    and yet the items stay renamed. *)
Theorem rename_not_atomic u oldName newName newEmoji fs tbl :
  renames trim oldName newName = true ->
  hd false fs = false -> hd false (tl fs) = false ->
  hd false (tl (tl fs)) = true ->
  serve (put_custom_category trim u oldName newName newEmoji) fs tbl
  = (Some (fail 500 "Failed to update custom category"),
     map (fun r => if filed_under oldName u r
                   then set_category (trim (nullish newName "")) r else r)
         tbl).
Proof.
  intros Hren H1 H2 H3. rewrite put_custom_category_serve. cbv zeta.
  now rewrite Hren, H1, H2, H3.
Qed.

End Renaming.

(* ===================================================================== *)
(** * 23. The categorize proxy                                            *)
(* ===================================================================== *)

(** X18: whatever the client asks for, the body [POST /api/categorize]
    forwards names the allowed model and at most 4000 tokens: a request
    for 1 to 4000 tokens is passed on as it is, a larger one is cut to
    4000, and a missing, null or zero one becomes 2000. *)
Theorem categorize_body_capped model max_tokens messages :
  prop "model" (categorize_body model max_tokens messages)
  = Some (JStr allowedModel)
  /\ exists n,
      prop "max_tokens" (categorize_body model max_tokens messages)
      = Some (JNum n)
      /\ n <= 4000
      /\ (forall k, max_tokens = Val k -> 1 <= k <= 4000 -> n = k)
      /\ (forall k, max_tokens = Val k -> 4000 <= k -> n = 4000)
      /\ (truthy max_tokens = false -> n = 2000).
Proof.
  split.
  - cbn. f_equal. f_equal. unfold forwarded_model.
    destruct model as [| |m]; try reflexivity.
    destruct (String.eqb m allowedModel) eqn:E; [|reflexivity].
    now apply String.eqb_eq in E.
  - exists (forwarded_max_tokens max_tokens). split; [reflexivity|].
    unfold forwarded_max_tokens. split; [lia|]. split; [|split].
    + intros k -> Hk. unfold or_else, falsy, Falsy_Z.
      destruct (k =? 0) eqn:E; [apply Z.eqb_eq in E; lia|lia].
    + intros k -> Hk. unfold or_else, falsy, Falsy_Z.
      destruct (k =? 0) eqn:E; [apply Z.eqb_eq in E; lia|lia].
    + unfold truthy, or_else. destruct max_tokens as [| |k]; try (intros; lia).
      intros H. apply negb_false_iff in H. rewrite H. lia.
Qed.

(* ===================================================================== *)
(** * 24. The drizzle server                                              *)
(* ===================================================================== *)

Lemma for_each_ext {A B} (f g : A -> Js B) xs :
  (forall x w, f x w = g x w) ->
  forall w, for_each f xs w = for_each g xs w.
Proof.
  intros Hfg. induction xs as [|x rest IH]; intros w; [reflexivity|].
  cbn [for_each]. unfold bind. rewrite Hfg.
  destruct (g x w) as [w1 [y|]]; [|reflexivity]. now rewrite IH.
Qed.

Section Drizzle.

Variable date_in : string -> option JsDate.
Variable timestamptz_in : string -> option JsDate.

Lemma drizzle_post_items_js now b c fs :
  drizzle_post_items date_in timestamptz_in now b (mkWorld c None fs) =
  match run (drizzle_insert_stmt date_in timestamptz_in now) (items_of b) fs c
  with
  | (Some recs, t, fs') => (mkWorld t None fs', Some (json (JArr recs)))
  | (None, t, fs') =>
      (mkWorld t None fs', Some (fail 500 "Failed to create items"))
  end.
Proof.
  unfold drizzle_post_items, try_catch. unfold bind at 1.
  rewrite (@for_each_ext _ _ _
             (fun x => query (drizzle_insert_stmt date_in timestamptz_in
                                now x)) (items_of b)).
  - rewrite for_each_query. cbn [current working committed].
    destruct (run _ (items_of b) fs c) as [[r t] fs'].
    destruct r; reflexivity.
  - intros x w. unfold bind, query, drizzle_insert_stmt, ret.
    destruct (hd false (faults w)); [reflexivity|].
    destruct (sql_insert _ _ _ _ _) as [[rows t1]|]; reflexivity.
Qed.

Lemma run_drizzle_insert now items :
  forall fs t,
  exists rows,
    snd (fst (run (drizzle_insert_stmt date_in timestamptz_in now)
                items fs t)) = t ++ rows
    /\ Forall2 (fun item row =>
                  new_row date_in timestamptz_in now (drizzle_values item)
                  = Some row)
         (firstn (List.length rows) items) rows
    /\ match fst (fst (run (drizzle_insert_stmt date_in timestamptz_in now)
                         items fs t)) with
       | Some recs => recs = map rowToItem rows
                      /\ List.length rows = List.length items
       | None => (List.length rows < List.length items)%nat
       end.
Proof.
  induction items as [|item rest IH]; intros fs t; cbn [run].
  - exists []. rewrite app_nil_r. cbn. repeat split; constructor.
  - assert (Hstop : exists rows : list Row.t,
               t = t ++ rows
               /\ Forall2 (fun item row =>
                    new_row date_in timestamptz_in now (drizzle_values item)
                    = Some row)
                    (firstn (List.length rows) (item :: rest)) rows
               /\ (List.length rows < List.length (item :: rest))%nat).
    { exists []. rewrite app_nil_r. cbn. repeat split; [constructor|lia]. }
    destruct (hd false fs); [exact Hstop|].
    unfold drizzle_insert_stmt at 1 2 3, sql_insert.
    destruct (new_row _ _ _ (drizzle_values item)) as [row|] eqn:Hrow;
      [|exact Hstop].
    destruct (existsb _ t); [exact Hstop|].
    destruct (IH (tl fs) (t ++ [row])) as (rows & Ht & Hall & Hres).
    destruct (run _ rest (tl fs) (t ++ [row])) as [[r t2] fs2].
    cbn [fst snd] in *. exists (row :: rows). subst t2.
    rewrite <- app_assoc. split; [reflexivity|]. split.
    + cbn [List.length firstn]. constructor; assumption.
    + destruct r as [recs|]; cbn [option_map].
      * destruct Hres as [-> Hlen]. cbn [map List.length].
        split; [reflexivity|]. now rewrite Hlen.
      * cbn [List.length]. lia.
Qed.


Lemma drizzle_get_items_serve fs tbl :
  serve drizzle_get_items fs tbl
  = (Some (if hd false fs then fail 500 "Failed to fetch items"
           else json (JArr (map rowToItem
                              (order_by (filter (fun _ => true) tbl))))),
     tbl).
Proof.
  unfold serve, drizzle_get_items, try_catch, bind, query, sql_select, ret.
  cbn [faults current working committed set_current].
  destruct (hd false fs); reflexivity.
Qed.

Lemma filter_true {A} (l : list A) : filter (fun _ => true) l = l.
Proof. induction l as [|x l IH]; [reflexivity|]. cbn. now rewrite IH. Qed.

End Drizzle.

(** The text of a date of the years 1 to 9999 is [YYYY-MM-DD]. *)
Lemma date_out_is_ymd d :
  1 <= year d <= 9999 -> is_ymd (date_out d) = true.
Proof.
  intros Hy. unfold date_out. cbv zeta.
  destruct (Z.ltb_spec 5874897 (year d)); [lia|].
  destruct (Z.ltb_spec (year d) (-4712)); [lia|].
  destruct (Z.leb_spec 1 (year d)); [|lia].
  destruct (Z.leb_spec (year d) 9999); [|lia].
  unfold pad4, pad3, pad2, is_ymd. cbn [append list_ascii_of_string].
  repeat match goal with
         | |- context [is_digit (digit ?a)] => rewrite (is_digit_digit a)
         end.
  reflexivity.
Qed.

(** [rowToItem] makes a record of the data model of every row. *)
Lemma rowToItem_record row :
  (forall d, Row.due_date row = Some d -> 1 <= year d <= 9999) ->
  is_item_record (rowToItem row).
Proof.
  intros Hy. split; [reflexivity|].
  cbn. destruct (Row.due_date row) as [d|]; [|now left].
  right. eexists. split; [reflexivity|]. apply date_out_is_ymd. now apply Hy.
Qed.

Lemma rowToItem_records rows :
  Forall (fun row => forall d, Row.due_date row = Some d ->
                               1 <= year d <= 9999) rows ->
  Forall is_item_record (map rowToItem rows).
Proof.
  induction 1 as [|row rows Hrow _ IH]; cbn [map]; constructor;
    [now apply rowToItem_record|exact IH].
Qed.

Section DrizzleRecords.

Variable date_in : string -> option JsDate.
Variable timestamptz_in : string -> option JsDate.

(** X21: when [POST /api/items] of the drizzle server answers 200 and
    the due dates stored are of the years 1 to 9999, the answer lists
    one record of the data model per item: the ten fields under their
    names, [dueDate] null or [YYYY-MM-DD]. *)
Theorem drizzle_post_items_records now b fs tbl res :
  let supplied := match b with
                  | One item => [item]
                  | Many items => items
                  end in
  Forall (fun row => forall d, Row.due_date row = Some d ->
                               1 <= year d <= 9999)
    (snd (serve (drizzle_post_items date_in timestamptz_in now b) fs tbl)) ->
  fst (serve (drizzle_post_items date_in timestamptz_in now b) fs tbl)
  = Some res ->
  status res = 200 ->
  exists recs,
    body res = JArr recs
    /\ Forall is_item_record recs
    /\ List.length recs = List.length supplied.
Proof.
  cbv zeta.
  change (match b with
          | One item => [item]
          | Many items => items
          end) with (items_of b).
  unfold serve. rewrite drizzle_post_items_js.
  destruct (run_drizzle_insert date_in timestamptz_in now (items_of b) fs tbl)
    as (rows & Ht & _ & Hres).
  destruct (run _ (items_of b) fs tbl) as [[r t] fs'].
  cbn [fst snd] in Ht, Hres.
  destruct r as [recs|]; cbn [fst snd committed].
  2:{ intros _ H Hs. inversion H; subst. discriminate. }
  destruct Hres as [-> Hlen]. subst t. intros Hy H _.
  inversion H; subst res; clear H. exists (map rowToItem rows).
  split; [reflexivity|]. split.
  - apply rowToItem_records. apply Forall_app in Hy. exact (proj2 Hy).
  - now rewrite length_map.
Qed.

End DrizzleRecords.

(** X22: when [GET /api/items] of the drizzle server answers 200 and
    the due dates of the table are of the years 1 to 9999, the answer
    lists one record of the data model per row of the table. *)
Theorem drizzle_get_items_records fs tbl res :
  Forall (fun row => forall d, Row.due_date row = Some d ->
                               1 <= year d <= 9999) tbl ->
  fst (serve drizzle_get_items fs tbl) = Some res ->
  status res = 200 ->
  exists recs,
    body res = JArr recs
    /\ Forall is_item_record recs
    /\ List.length recs = List.length tbl.
Proof.
  rewrite drizzle_get_items_serve, filter_true. cbn [fst].
  intros Hy H Hs. inversion H; subst res; clear H.
  destruct (hd false fs); [discriminate|].
  exists (map rowToItem (order_by tbl)). split; [reflexivity|]. split.
  - apply rowToItem_records. apply Forall_forall. intros row Hin.
    apply in_order_by in Hin. rewrite Forall_forall in Hy. now apply Hy.
  - rewrite length_map. apply Permutation_length, order_by_perm.
Qed.

(* ===================================================================== *)
(** * 25. Defaults of created items, through the handlers                 *)
(* ===================================================================== *)

Section StoredDefaults.

Variable date_in : string -> option JsDate.
Variable timestamptz_in : string -> option JsDate.

Lemma Forall2_concat_singletons {A B} (P : A -> B -> Prop) xs rss :
  Forall2 (fun x rs => exists r, rs = [r] /\ P x r) xs rss ->
  Forall2 P xs (List.concat rss).
Proof.
  induction 1 as [|x rs xs rss [r [-> Hr]] _ IH]; cbn; constructor;
    assumption.
Qed.

(** C10: when [POST /api/items] answers 200, on the pg server and on the
    drizzle server alike, the table is the one before followed by one
    row per supplied item, in input order, and the row stored for an
    item takes the fixed default for every optional field the item
    leaves out or gives a falsy value: [completed] false, [type] task,
    [category] personal, [priority] medium, [dueDate] null, [notes]
    empty, [order] 0, and [createdAt] the current time.  A supplied
    [order] of 0 and a supplied empty [dueDate] are falsy, hence stored
    as 0 and null. *)
Theorem post_items_defaults userId now b fs tbl :
  let supplied := match b with
                  | One item => [item]
                  | Many items => items
                  end in
  (forall res,
      fst (serve (post_items date_in timestamptz_in userId now b) fs tbl)
      = Some res ->
      status res = 200 ->
      exists rows,
        snd (serve (post_items date_in timestamptz_in userId now b) fs tbl)
        = tbl ++ rows
        /\ Forall2 (fun item row =>
                      defaults_hold item row
                      /\ (truthy (Req.createdAt item) = false ->
                          Row.created_at row
                          = timestamptz_in (toISOString now)))
             supplied rows)
  /\ (forall res,
        fst (serve (drizzle_post_items date_in timestamptz_in now b) fs tbl)
        = Some res ->
        status res = 200 ->
        exists rows,
          snd (serve (drizzle_post_items date_in timestamptz_in now b)
                 fs tbl)
          = tbl ++ rows
          /\ Forall2 (fun item row =>
                        defaults_hold item row
                        /\ (truthy (Req.createdAt item) = false ->
                            Row.created_at row = Some now))
               supplied rows).
Proof.
  cbv zeta.
  change (match b with
          | One item => [item]
          | Many items => items
          end) with (items_of b).
  split; intros res; unfold serve.
  - rewrite post_items_js.
    destruct (run _ (items_of b) fs tbl) as [[r t] fs'] eqn:Hrun.
    destruct r as [results|]; cbn [fst snd committed].
    2:{ intros H Hs. inversion H; subst res. discriminate Hs. }
    intros _ _. apply run_insert in Hrun as [-> Hall].
    exists (List.concat results). split; [reflexivity|].
    apply Forall2_concat_singletons.
    eapply Forall2_impl; [|exact Hall].
    intros item rows (row & -> & Hrow). exists row. split; [reflexivity|].
    exact (proj1 (new_row_defaults date_in timestamptz_in userId now item
                    row) Hrow).
  - rewrite drizzle_post_items_js.
    destruct (run_drizzle_insert date_in timestamptz_in now (items_of b)
                fs tbl) as (rows & Ht & Hall & Hres).
    destruct (run _ (items_of b) fs tbl) as [[r t] fs'].
    cbn [fst snd] in Ht, Hres.
    destruct r as [recs|]; cbn [fst snd committed].
    2:{ intros H Hs. inversion H; subst res. discriminate Hs. }
    intros _ _. destruct Hres as [_ Hlen].
    rewrite Hlen, firstn_all in Hall.
    exists rows. split; [exact Ht|].
    eapply Forall2_impl; [|exact Hall].
    intros item row Hrow.
    exact (proj2 (new_row_defaults date_in timestamptz_in userId now item
                    row) Hrow).
Qed.

End StoredDefaults.

(* ===================================================================== *)
(** * 26. Runs of the other routes                                        *)
(* ===================================================================== *)

Module Runs.

Import Sample.

(** ana's item, bob's item, and a row from before accounts. *)
Lemma other_users_rows_untouched_witness :
  String.eqb "ana" "bob" = false
  /\ filter (owned_by "bob")
       (snd (serve_app
               (api false "ana"
                  (route utc iso_date_in iso_timestamptz_in "ana"
                     (PutItems [plants_done; bare])))
               [] [plants_row; bare_row (Some "bob"); legacy_row]))
     = [bare_row (Some "bob")].
Proof.
  split; [reflexivity|].
  exact (@other_users_rows_untouched utc iso_date_in iso_timestamptz_in false
           "ana" "bob" (PutItems [plants_done; bare]) []
           [plants_row; bare_row (Some "bob"); legacy_row] eq_refl).
Defined.

Lemma ids_stay_distinct_witness :
  NoDup (map Row.id [plants_row; legacy_row])
  /\ NoDup (map Row.id
              (snd (serve_app
                      (api false "ana"
                         (route utc iso_date_in iso_timestamptz_in "ana"
                            (PostItems clock (Many [bare; stranger]))))
                      [] [plants_row; legacy_row]))).
Proof.
  assert (H : NoDup (map Row.id [plants_row; legacy_row])).
  { cbn. constructor; [|constructor; [|constructor]].
    - intros [H|[]]. discriminate H.
    - intros []. }
  split; [exact H|].
  exact (@ids_stay_distinct utc iso_date_in iso_timestamptz_in false "ana"
           (PostItems clock (Many [bare; stranger])) []
           [plants_row; legacy_row] H).
Defined.

Lemma created_at_stays_set_witness :
  forallb dated [plants_row; legacy_row] = true
  /\ forallb dated
       (snd (serve_app
               (api false "ana"
                  (route utc iso_date_in iso_timestamptz_in "ana"
                     (PostItems clock (One bare))))
               [] [plants_row; legacy_row])) = true.
Proof.
  split; [reflexivity|].
  exact (@created_at_stays_set utc iso_date_in iso_timestamptz_in false "ana"
           (PostItems clock (One bare)) [] [plants_row; legacy_row] eq_refl).
Defined.

Lemma get_items_listing_witness :
  exists rows recs,
    fst (serve (get_items east "ana") []
           [bob_row; plants_row; bare_row (Some "ana")])
    = Some (json (JArr recs))
    /\ Permutation rows [plants_row; bare_row (Some "ana")]
    /\ StronglySorted row_le rows
    /\ Forall2 (fun row rec => item_of_row east row = Some rec) rows recs.
Proof.
  destruct (@get_items_listing east "ana" []
              [bob_row; plants_row; bare_row (Some "ana")])
    as [_ H].
  destruct (H _ eq_refl eq_refl) as (rows & recs & Hb & Hp & Hs & Hf).
  exists rows, recs. split; [|split; [exact Hp|split; [exact Hs|exact Hf]]].
  cbn [body] in Hb. rewrite <- Hb. reflexivity.
Defined.


(** An item whose optional fields are all left out or falsy, posted to
    either server. *)
Lemma post_items_defaults_witness :
  serve (post_items iso_date_in iso_timestamptz_in "ana" clock (One bare))
        [] [plants_row]
  = (Some (json (JArr [row_json (bare_row (Some "ana"))])),
     [plants_row; bare_row (Some "ana")])
  /\ serve (drizzle_post_items iso_date_in iso_timestamptz_in clock
              (One bare)) [] [plants_row]
     = (Some (json (JArr [rowToItem (bare_row None)])),
        [plants_row; bare_row None])
  /\ defaults_hold bare (bare_row (Some "ana"))
  /\ defaults_hold bare (bare_row None)
  /\ Row.created_at (bare_row (Some "ana"))
     = iso_timestamptz_in (toISOString clock)
  /\ Row.created_at (bare_row None) = Some clock.
Proof.
  assert (Hpg : serve (post_items iso_date_in iso_timestamptz_in "ana" clock
                         (One bare)) [] [plants_row]
                = (Some (json (JArr [row_json (bare_row (Some "ana"))])),
                   [plants_row] ++ [bare_row (Some "ana")]))
    by reflexivity.
  assert (Hdz : serve (drizzle_post_items iso_date_in iso_timestamptz_in
                         clock (One bare)) [] [plants_row]
                = (Some (json (JArr [rowToItem (bare_row None)])),
                   [plants_row] ++ [bare_row None]))
    by reflexivity.
  destruct (@post_items_defaults iso_date_in iso_timestamptz_in "ana" clock
              (One bare) [] [plants_row]) as [Ha Hb].
  destruct (Ha _ (f_equal fst Hpg) eq_refl) as (rows & Hrows & Hall).
  destruct (Hb _ (f_equal fst Hdz) eq_refl) as (rows' & Hrows' & Hall').
  rewrite Hpg in Hrows. rewrite Hdz in Hrows'. cbn [snd] in Hrows, Hrows'.
  apply app_inv_head in Hrows. apply app_inv_head in Hrows'.
  subst rows rows'.
  inversion Hall as [|? ? ? ? [Hd Hc] _]; subst.
  inversion Hall' as [|? ? ? ? [Hd' Hc'] _]; subst.
  split; [exact Hpg|]. split; [exact Hdz|].
  split; [exact Hd|]. split; [exact Hd'|].
  split; [exact (Hc eq_refl)|exact (Hc' eq_refl)].
Defined.

Lemma post_items_fresh_ids_witness :
  option_map status
    (fst (serve (post_items iso_date_in iso_timestamptz_in "ana" clock
                   (Many [plants; bare])) [] [legacy_row]))
  = Some 200
  /\ exists ids,
      map Req.id [plants; bare] = map (@Val Z) ids
      /\ NoDup ids
      /\ (forall i, In i ids -> ~ In i (map Row.id [legacy_row]))
      /\ map Row.id
           (snd (serve (post_items iso_date_in iso_timestamptz_in "ana" clock
                          (Many [plants; bare])) [] [legacy_row]))
         = map Row.id [legacy_row] ++ ids.
Proof.
  split; [reflexivity|].
  exact (@post_items_fresh_ids iso_date_in iso_timestamptz_in "ana" clock
           (Many [plants; bare]) [] [legacy_row] eq_refl).
Defined.

(** bob sends ana's item in a bulk update, and on its own. *)
Lemma put_items_of_others_witness :
  (forall item, In item [plants_done] ->
                existsb (mine "bob" (Req.id item)) [plants_row] = false)
  /\ (forall item, In item [plants_done] ->
                   read iso_date_in (or_null (Req.dueDate item)) <> None)
  /\ forallb negb [] = true
  /\ serve (put_items iso_date_in "bob" [plants_done]) [] [plants_row]
     = (Some (json success), [plants_row])
  /\ serve (put_item iso_date_in "bob" (Val 1) plants_done) [] [plants_row]
     = (Some (fail 404 "Item not found"), [plants_row]).
Proof.
  assert (H1 : forall item, In item [plants_done] ->
               existsb (mine "bob" (Req.id item)) [plants_row] = false).
  { intros item [<-|[]]. reflexivity. }
  assert (H2 : forall item, In item [plants_done] ->
               read iso_date_in (or_null (Req.dueDate item)) <> None).
  { intros item [<-|[]] H. vm_compute in H. discriminate H. }
  destruct (@put_items_of_others iso_date_in "bob" [plants_done] []
              [plants_row] H1 H2 eq_refl) as [Hbulk Hsingle].
  split; [exact H1|]. split; [exact H2|]. split; [reflexivity|].
  split; [exact Hbulk|].
  exact (Hsingle plants_done (or_introl eq_refl) eq_refl).
Defined.

Lemma put_item_retry_witness :
  hd false [] = false
  /\ serve (put_item iso_date_in "ana" (Val 1) plants_done) []
       (snd (serve (put_item iso_date_in "ana" (Val 1) plants_done) []
               [plants_row]))
     = serve (put_item iso_date_in "ana" (Val 1) plants_done) []
         [plants_row].
Proof.
  split; [reflexivity|].
  exact (@put_item_retry iso_date_in "ana" (Val 1) plants_done [] []
           [plants_row] eq_refl eq_refl).
Defined.

Lemma delete_item_then_witness :
  fst (serve (delete_item "ana" (Val 1)) []
         [plants_row; bare_row (Some "ana")])
  = Some (json success)
  /\ exact_id 1
  /\ snd (serve (delete_item "ana" (Val 1)) []
            [plants_row; bare_row (Some "ana")])
     = [bare_row (Some "ana")]
  /\ (forall item fs',
        option_map status
          (fst (serve (put_item iso_date_in "ana" (Val 1) item) fs'
                  [bare_row (Some "ana")]))
        <> Some 200)
  /\ (forall fs' recs rec,
        fst (serve (get_items utc "ana") fs' [bare_row (Some "ana")])
        = Some (json (JArr recs)) ->
        In rec recs -> prop "id" rec <> Some (JNum 1)).
Proof.
  assert (Hi : exact_id 1) by reflexivity.
  destruct (@delete_item_then utc iso_date_in "ana" 1 []
              [plants_row; bare_row (Some "ana")] eq_refl)
    as (_ & _ & Hput & Hget).
  split; [reflexivity|]. split; [exact Hi|]. split; [reflexivity|].
  split; [exact Hput|exact (Hget Hi)].
Defined.

Lemma delete_variants_witness :
  0 < 7
  /\ fst (serve (delete_item_checked "ana" (Val 7)) [] [plants_row])
     = Some (fail 404 "Item not found or unauthorized")
  /\ fst (serve (delete_item "ana" (Val 7)) [] [plants_row])
     = Some (json success)
  /\ snd (serve (delete_item_checked "ana" (Val 7)) [] [plants_row])
     = snd (serve (delete_item "ana" (Val 7)) [] [plants_row]).
Proof.
  assert (H : 0 < 7) by reflexivity.
  destruct (@delete_variants "ana" 7 [] [plants_row] H) as [Ht [Hc Hp]].
  split; [exact H|]. split; [exact Hc|]. split; [exact Hp|exact Ht].
Defined.

Lemma put_item_variants_witness :
  0 < 1
  /\ snd (serve (put_item_checked iso_date_in "ana" (Val 1) plants_done) []
            [plants_row])
     = snd (serve (put_item iso_date_in "ana" (Val 1) plants_done) []
              [plants_row])
  /\ fst (serve (put_item_checked iso_date_in "ana" (Val 1) plants_done) []
            [plants_row])
     = fst (serve (put_item iso_date_in "ana" (Val 1) plants_done) []
              [plants_row]).
Proof.
  assert (H : 0 < 1) by reflexivity.
  destruct (@put_item_variants iso_date_in "ana" 1 plants_done []
              [plants_row] H) as (Ht & _ & Hr).
  split; [exact H|]. split; [exact Ht|]. apply Hr. discriminate.
Defined.

Lemma put_item_as_bulk_witness :
  is_val (Req.id plants_done) = true
  /\ snd (serve (put_item iso_date_in "ana" (Val 1) plants_done) []
            [plants_row])
     = snd (serve (put_items iso_date_in "ana" [plants_done]) []
              [plants_row]).
Proof.
  split; [reflexivity|].
  exact (proj1 (@put_item_as_bulk iso_date_in "ana" plants_done []
                  [plants_row] eq_refl)).
Defined.

(** The first request after the deployment: the middleware hands the
    legacy row to ana and sets the flag. *)
Lemma flag_means_claimed_witness :
  option_map fst
    (fst (serve_app
            (api false "ana"
               (route utc iso_date_in iso_timestamptz_in "ana" GetItems))
            [] [legacy_row; plants_row]))
  = Some true
  /\ existsb unclaimed
       (snd (serve_app
               (api false "ana"
                  (route utc iso_date_in iso_timestamptz_in "ana" GetItems))
               [] [legacy_row; plants_row])) = false.
Proof.
  split; [reflexivity|].
  eapply (@flag_means_claimed utc iso_date_in iso_timestamptz_in false "ana"
            GetItems [] [legacy_row; plants_row] true).
  - discriminate.
  - reflexivity.
  - reflexivity.
Defined.

(** ana renames her category [personal] to [home]; bob's stays. *)
Lemma rename_moves_items_witness :
  renames ascii_trim "personal" (Val " home ") = true
  /\ snd (serve (put_custom_category ascii_trim "ana" "personal"
                   (Val " home ") Undefined) []
            [plants_row; bare_row (Some "bob")])
     = [set_category "home" plants_row; bare_row (Some "bob")]
  /\ existsb (filed_under "personal" "ana")
       (snd (serve (put_custom_category ascii_trim "ana" "personal"
                      (Val " home ") Undefined) []
               [plants_row; bare_row (Some "bob")])) = false.
Proof.
  split; [reflexivity|]. split; [reflexivity|].
  exact (proj2 (@rename_moves_items ascii_trim "ana" "personal"
                  (Val " home ") Undefined []
                  [plants_row; bare_row (Some "bob")] eq_refl eq_refl)).
Defined.

Lemma rename_not_atomic_witness :
  renames ascii_trim "personal" (Val "home") = true
  /\ serve (put_custom_category ascii_trim "ana" "personal" (Val "home")
              Undefined) [false; false; true] [plants_row]
     = (Some (fail 500 "Failed to update custom category"),
        [set_category "home" plants_row]).
Proof.
  split; [reflexivity|].
  exact (@rename_not_atomic ascii_trim "ana" "personal" (Val "home")
           Undefined [false; false; true] [plants_row]
           eq_refl eq_refl eq_refl eq_refl).
Defined.

Lemma categorize_body_capped_witness :
  prop "model" (categorize_body (Val "another-model") (Val 9000) None)
  = Some (JStr allowedModel)
  /\ prop "max_tokens" (categorize_body (Val "another-model") (Val 9000) None)
     = Some (JNum 4000).
Proof.
  destruct (categorize_body_capped (Val "another-model") (Val 9000) None)
    as (Hm & n & Hn & _ & _ & Hbig & _).
  split; [exact Hm|]. rewrite Hn.
  now rewrite (Hbig 9000 eq_refl ltac:(discriminate)).
Defined.

Lemma drizzle_post_items_records_witness :
  Forall (fun row => forall d, Row.due_date row = Some d ->
                               1 <= year d <= 9999)
    (snd (serve (drizzle_post_items iso_date_in iso_timestamptz_in clock
                   (One plants_done)) [] [legacy_row]))
  /\ exists res recs,
      fst (serve (drizzle_post_items iso_date_in iso_timestamptz_in clock
                    (One plants_done)) [] [legacy_row]) = Some res
      /\ status res = 200
      /\ body res = JArr recs
      /\ Forall is_item_record recs
      /\ List.length recs = 1%nat.
Proof.
  assert (Hy : Forall (fun row => forall d, Row.due_date row = Some d ->
                                            1 <= year d <= 9999)
                 (snd (serve (drizzle_post_items iso_date_in
                                iso_timestamptz_in clock (One plants_done))
                         [] [legacy_row]))).
  { apply Forall_forall. intros row Hin d Hd. vm_compute in Hin.
    destruct Hin as [<-|[<-|[]]]; vm_compute in Hd.
    - discriminate Hd.
    - inversion Hd. cbn. split; discriminate. }
  split; [exact Hy|].
  destruct (@drizzle_post_items_records iso_date_in iso_timestamptz_in clock
              (One plants_done) [] [legacy_row] _ Hy eq_refl eq_refl)
    as (recs & Hb & Hrec & Hlen).
  eexists. exists recs. split; [reflexivity|]. split; [reflexivity|].
  split; [exact Hb|]. split; [exact Hrec|exact Hlen].
Defined.

Lemma drizzle_get_items_records_witness :
  Forall (fun row => forall d, Row.due_date row = Some d ->
                               1 <= year d <= 9999) [plants_row; bob_row]
  /\ exists recs,
      fst (serve drizzle_get_items [] [plants_row; bob_row])
      = Some (json (JArr recs))
      /\ Forall is_item_record recs
      /\ List.length recs = 2%nat.
Proof.
  assert (Hy : Forall (fun row => forall d, Row.due_date row = Some d ->
                                            1 <= year d <= 9999)
                 [plants_row; bob_row]).
  { constructor; [|constructor; [|constructor]]; intros d Hd.
    - discriminate Hd.
    - inversion Hd. cbn. split; discriminate. }
  split; [exact Hy|].
  destruct (@drizzle_get_items_records [] [plants_row; bob_row] _ Hy
              eq_refl eq_refl) as (recs & Hb & Hrec & Hlen).
  exists recs. split; [|split; [exact Hrec|exact Hlen]].
  cbn [body] in Hb. rewrite <- Hb. reflexivity.
Defined.

End Runs.
